(** * The MCP access layer of memos: tools, resources and their policy

    A shallow embedding of [server/router/mcp]: the visibility policy
    ([checkMemoAccess], [applyVisibilityFilter]), the tag extractor
    ([extractTags]), the canonical response shape ([storeMemoToJSON]), the
    tool handlers of [tools_memo.go], the tag listing tool and the memo
    resource of [resources_memo.go].

    Handlers talk to the store through calls; they are written here as
    programs over those calls ([Handler]) and run against any store
    ([exec]), so that statements about "what the store is asked" and "what
    comes back" can both be made. *)

From Stdlib Require Import ZArith String Ascii DecimalString Bool Lia.
From Stdlib Require Import Floats.SpecFloat.
From stdpp Require Import base tactics option list gmap strings sorting.
From Equations Require Import Equations.

Local Open Scope Z_scope.

(** ** Go values *)

(** The double quote, for the string constants of the source that contain it. *)
Definition dq : string := String (ascii_of_nat 34) EmptyString.

(** Go's [int] on the 64-bit targets memos is built for: arithmetic wraps
    around in two's complement. *)
Definition minInt : Z := - 2 ^ 63.
Definition maxInt : Z := 2 ^ 63 - 1.
Definition wrapInt (z : Z) : Z := (z + 2 ^ 63) mod 2 ^ 64 - 2 ^ 63.
Definition intAdd (a b : Z) : Z := wrapInt (a + b).
Definition intMul (a b : Z) : Z := wrapInt (a * b).
Definition isInt (z : Z) : Prop := minInt <= z <= maxInt.

(** [%d] of [fmt] on an integer. *)
Definition fmtInt (z : Z) : string := NilZero.string_of_int (Z.to_int z).

(** [%v] of [fmt] on a bool. *)
Definition fmtBool (b : bool) : string := if b then "true" else "false".

(** [strings.Join]. *)
Fixpoint stringsJoin (elems : list string) (sep : string) : string :=
  match elems with
  | [] => ""
  | [e] => e
  | e :: rest => e +:+ sep +:+ stringsJoin rest sep
  end.

(** [strings.CutPrefix]: the rest of [s] after [prefix], when [s] starts with it. *)
Fixpoint stringsCutPrefix (s prefix : string) {struct prefix} : option string :=
  match prefix with
  | EmptyString => Some s
  | String p prefix' =>
      match s with
      | EmptyString => None
      | String c s' => if Ascii.eqb c p then stringsCutPrefix s' prefix' else None
      end
  end.

(** [strings.TrimPrefix]: [s] itself when it does not start with [prefix]. *)
Definition stringsTrimPrefix (s prefix : string) : string :=
  match stringsCutPrefix s prefix with
  | Some rest => rest
  | None => s
  end.

(** A Go slice is either nil or holds a (possibly empty) sequence; the
    difference shows in JSON, where nil is [null]. *)
Inductive slice (A : Type) : Type :=
| nilSlice
| mkSlice (elems : list A).
Arguments nilSlice {A}.
Arguments mkSlice {A} elems.

Definition sliceElems {A} (s : slice A) : list A :=
  match s with
  | nilSlice => []
  | mkSlice l => l
  end.

(** What [encoding/json] makes of a Go string: the string as it is where it
    is valid UTF-8, and U+FFFD in the place of every byte that is not part
    of a valid encoding. The encoder walks the string with
    [utf8.DecodeRuneInString]; where that gives [RuneError] of width 1 it
    writes the replacement character and goes on with the next byte. *)

(** U+FFFD in UTF-8: the bytes EF BF BD. *)
Definition replacementChar : string :=
  String (ascii_of_nat 239) (String (ascii_of_nat 191) (String (ascii_of_nat 189) "")).

(** The table [first] of [unicode/utf8] with its accept ranges, for the
    bytes from 128 on: the width of the encoding a byte starts and the range
    of the second byte; nothing for a byte that starts no encoding (80 to
    C1 and F5 to FF). *)
Definition utf8First (b : nat) : option (nat * nat * nat) :=
  (if b <? 194 then None
   else if b <? 224 then Some (2, 128, 191)
   else if b =? 224 then Some (3, 160, 191)
   else if b <? 237 then Some (3, 128, 191)
   else if b =? 237 then Some (3, 128, 159)
   else if b <? 240 then Some (3, 128, 191)
   else if b =? 240 then Some (4, 144, 191)
   else if b <? 244 then Some (4, 128, 191)
   else if b =? 244 then Some (4, 128, 143)
   else None)%nat.

Definition byteWithin (lo hi : nat) (c : ascii) : bool :=
  ((lo <=? nat_of_ascii c) && (nat_of_ascii c <=? hi))%nat.

Fixpoint toValidUTF8 (s : string) : string :=
  match s with
  | EmptyString => EmptyString
  | String c0 s1 =>
      let invalid := replacementChar +:+ toValidUTF8 s1 in
      if (nat_of_ascii c0 <? 128)%nat then String c0 (toValidUTF8 s1)
      else
        match utf8First (nat_of_ascii c0), s1 with
        | Some (size, lo, hi), String c1 s2 =>
            if negb (byteWithin lo hi c1) then invalid
            else if (size =? 2)%nat then String c0 (String c1 (toValidUTF8 s2))
            else
              match s2 with
              | String c2 s3 =>
                  if negb (byteWithin 128 191 c2) then invalid
                  else if (size =? 3)%nat
                  then String c0 (String c1 (String c2 (toValidUTF8 s3)))
                  else
                    match s3 with
                    | String c3 s4 =>
                        if negb (byteWithin 128 191 c3) then invalid
                        else String c0 (String c1 (String c2 (String c3 (toValidUTF8 s4))))
                    | EmptyString => invalid
                    end
              | EmptyString => invalid
              end
        | _, _ => invalid
        end
  end.

(** A [float64]: a float of IEEE 754 binary64, of 53 bits of precision
    ([valid_binary 53 1024]). What is stated of every [spec_float] holds of
    every [float64]. *)
Definition float64 : Type := spec_float.

(** The [float64] nearest to an integer, ties to even: what decoding makes
    of an integer literal in a request. *)
Definition float64OfZ (z : Z) : float64 := binary_normalize 53 1024 z 0 false.

(** Where a [float64] is outside the range of [int], Go leaves the result
    of the conversion [int(v)] to the implementation. *)
Class Platform : Type := intOfHugeFloat : float64 -> Z.

(** The conversion [int(v)] of a [float64]: the fraction is dropped. *)
Definition float64ToInt `{Platform} (v : float64) : Z :=
  match v with
  | S754_zero _ => 0
  | S754_finite sign m e =>
      let magnitude := if 0 <=? e then Z.pos m * 2 ^ e else Z.pos m / 2 ^ (- e) in
      let t := if sign then - magnitude else magnitude in
      if (minInt <=? t) && (t <=? maxInt) then t else wrapInt (intOfHugeFloat v)
  | S754_infinity _ | S754_nan => wrapInt (intOfHugeFloat v)
  end.

(** Results of fallible calls, Go's [(value, err)] pairs: a value, or an
    error. The store's errors are taken as their messages. *)
Inductive Result (E A : Type) : Type :=
| Ok (a : A)
| Err (e : E).
Arguments Ok {E A} a.
Arguments Err {E A} e.

(** ** The store's data ([store] package) *)

(** Modelled from the spec: the constants of the [store] package, which is
    not part of this layer. [store.Visibility], [store.RowStatus] and
    [store.MemoRelationType] are string types; their values are the
    enumerations PRIVATE, PROTECTED, PUBLIC and NORMAL, ARCHIVED, and the
    one relation type this layer uses. *)
Definition Public : string := "PUBLIC".
Definition Protected : string := "PROTECTED".
Definition Private : string := "PRIVATE".
Definition Normal : string := "NORMAL".
Definition Archived : string := "ARCHIVED".
Definition MemoRelationComment : string := "COMMENT".

Record MemoPayload_Property : Type := {
  HasLink : bool;
  HasTaskList : bool;
  HasCode : bool;
  HasIncompleteTasks : bool
}.

Record MemoPayload : Type := {
  Tags : list string;
  Property : option MemoPayload_Property
}.

(** [store.Memo]; pointers are options, integers are [Z]. *)
Record Memo : Type := {
  ID : Z;
  UID : string;
  RowStatus : string;
  CreatorID : Z;
  CreatedTs : Z;
  UpdatedTs : Z;
  Content : string;
  Visibility : string;
  Pinned : bool;
  Payload : option MemoPayload;
  ParentUID : option string
}.

(** [store.FindMemo], the query specification. *)
Record FindMemo : Type := {
  find_ID : option Z;
  find_UID : option string;
  find_RowStatus : option string;
  find_VisibilityList : list string;
  find_ExcludeContent : bool;
  find_ExcludeComments : bool;
  find_Filters : list string;
  find_Limit : option Z;
  find_Offset : option Z;
  find_OrderByPinned : bool;
  find_IDList : list Z
}.

(** The zero value [store.FindMemo{}]. *)
Definition emptyFind : FindMemo := {|
  find_ID := None; find_UID := None; find_RowStatus := None;
  find_VisibilityList := []; find_ExcludeContent := false;
  find_ExcludeComments := false; find_Filters := [];
  find_Limit := None; find_Offset := None;
  find_OrderByPinned := false; find_IDList := []
|}.

(** [store.UpdateMemo]: a nil pointer leaves the column alone. *)
Record UpdateMemo : Type := {
  upd_ID : Z;
  upd_RowStatus : option string;
  upd_Content : option string;
  upd_Visibility : option string;
  upd_Pinned : option bool;
  upd_Payload : option MemoPayload
}.

Record MemoRelation : Type := {
  rel_MemoID : Z;
  rel_RelatedMemoID : Z;
  rel_Type : string
}.

Record FindMemoRelation : Type := {
  findrel_RelatedMemoID : option Z;
  findrel_Type : option string
}.

(** ** Errors of this layer

    Each constructor stands for one message of the source; the ones built
    with [%q] keep the offending text as data. *)
Inductive MCPError : Type :=
| PermissionDenied                       (* "permission denied" *)
| Unauthenticated                        (* "unauthenticated: a personal access token is required" *)
| BadMemoName (name : string)            (* memo name must be in the format "memos/<uid>", got %q *)
| BadVisibility (s : string)             (* visibility must be PRIVATE, PROTECTED, or PUBLIC; got %q *)
| BadRowStatus (s : string)              (* state must be NORMAL or ARCHIVED; got %q *)
| MemoNotFound                           (* "memo not found" *)
| ContentRequired                        (* "content is required" *)
| QueryRequired                          (* "query is required" *)
| Failed (action : string) (cause : string)  (* "failed to <action>: %v" *)
| InvalidMemoURI (uri : string)          (* invalid memo URI %q: expected memo://memos/<uid> *)
| ResourceNotFound (uid : string)        (* "memo not found: %s" *)
| Wrapped (msg : string) (cause : string). (* errors.Wrap(err, msg) *)

(** ** Tag extraction *)

(** [\s] of Go's regexp: tab, newline, form feed, carriage return, space. *)
Definition isSpace (c : ascii) : bool :=
  let n := nat_of_ascii c in
  ((n =? 9) || (n =? 10) || (n =? 12) || (n =? 13) || (n =? 32))%nat.

(** [[A-Za-z]]. *)
Definition isLetter (c : ascii) : bool :=
  let n := nat_of_ascii c in
  (((65 <=? n) && (n <=? 90)) || ((97 <=? n) && (n <=? 122)))%nat.

Definition isHash (c : ascii) : bool := (nat_of_ascii c =? 35)%nat.

(** [[^\s#]]. On the bytes of a Go string this class takes every byte above
    127, so matching by byte and by rune agree. *)
Definition isTagChar (c : ascii) : bool := negb (isSpace c) && negb (isHash c).

(** The greedy star over [isTagChar]: the longest run of tag characters and what follows. *)
Fixpoint spanTag (s : string) : string * string :=
  match s with
  | EmptyString => (EmptyString, EmptyString)
  | String c s' =>
      if isTagChar c
      then let '(run, rest) := spanTag s' in (String c run, rest)
      else (EmptyString, s)
  end.

(** The part of [tagRegexp] after its first group, a hash, a letter and the
    greedy run, anchored at the head of [s]: the submatch and the text after
    the match. *)
Definition matchHashTag (s : string) : option (string * string) :=
  match s with
  | String h (String c s') =>
      if isHash h && isLetter c
      then let '(run, rest) := spanTag s' in Some (String c run, rest)
      else None
  | _ => None
  end.

(** [tagRegexp] anchored at the current position. [atStart] tells whether
    that position is offset 0, the only place where [^] matches. *)
Definition matchTagRegexp (atStart : bool) (s : string) : option (string * string) :=
  match (if atStart then matchHashTag s else None) with
  | Some r => Some r
  | None =>
      match s with
      | String w s' => if isSpace w then matchHashTag s' else None
      | EmptyString => None
      end
  end.

Definition inspect {A} (a : A) : {b : A | a = b} := exist _ a eq_refl.

Lemma spanTag_length (s : string) :
  (String.length (spanTag s).2 <= String.length s)%nat.
Proof.
  induction s as [|c s IH]; simpl; [lia|].
  destruct (isTagChar c); simpl; [|lia].
  destruct (spanTag s) as [run rest]; simpl in *; lia.
Qed.

Lemma matchHashTag_length (s tag rest : string) :
  matchHashTag s = Some (tag, rest) ->
  (String.length rest < String.length s)%nat.
Proof.
  destruct s as [|h [|c s]]; simpl; try discriminate.
  destruct (isHash h && isLetter c); [|discriminate].
  pose proof (spanTag_length s) as Hlen.
  destruct (spanTag s) as [run rest']; simpl in *.
  intros [= _ <-]; lia.
Qed.

Lemma matchTagRegexp_length (atStart : bool) (s tag rest : string) :
  matchTagRegexp atStart s = Some (tag, rest) ->
  (String.length rest < String.length s)%nat.
Proof.
  unfold matchTagRegexp.
  destruct (if atStart then matchHashTag s else None) as [[t r]|] eqn:Hfirst.
  - intros [= -> ->]. destruct atStart; [|discriminate].
    eauto using matchHashTag_length.
  - destruct s as [|w s]; [discriminate|].
    destruct (isSpace w); [|discriminate].
    intros Hm%matchHashTag_length; simpl; lia.
Qed.

(** [tagRegexp.FindAllStringSubmatch(content, -1)], keeping submatch 1 of
    each match: the leftmost match from the current position is taken, and
    the search resumes where it ended; where nothing matches at the current
    position the search moves one byte on. *)
Equations? findAllTags (atStart : bool) (s : string) : list string
  by wf (String.length s) lt :=
  findAllTags atStart s with inspect (matchTagRegexp atStart s) => {
    | exist _ (Some (tag, rest)) _ := tag :: findAllTags false rest;
    | exist _ None _ with s => {
        | EmptyString := [];
        | String _ s' := findAllTags false s' } }.
Proof.
  eauto using matchTagRegexp_length.
Qed.

(** One round of the loop of [extractTags]: [seen] is the set of tags met so
    far, [tags] the result slice. *)
Definition noteTag (acc : gset string * list string) (tag : string)
  : gset string * list string :=
  let '(seen, tags) := acc in
  if decide (tag ∈ seen) then (seen, tags) else ({[tag]} ∪ seen, tags ++ [tag]).

Definition extractTags (content : string) : list string :=
  let matches := findAllTags true content in
  (fold_left noteTag matches (∅, [])).2.

Definition buildPayload (content : string) : option MemoPayload :=
  let tags := extractTags content in
  if (length tags =? 0)%nat then None
  else Some {| Tags := tags; Property := None |}.

(** ** The canonical response shape *)

(** What [encoding/json] writes, as a tree. An object keeps its fields in
    the order they are written. *)
#[local] Set Warnings "-register-all".
Inductive JSON : Type :=
| JNull
| JBool (b : bool)
| JNumber (z : Z)
| JString (s : string)
| JArray (elems : list JSON)
| JObject (fields : list (string * JSON)).

(** The value of field [key] of an object, when the object has it. *)
Fixpoint fieldOf (key : string) (fields : list (string * JSON)) : option JSON :=
  match fields with
  | [] => None
  | (k, v) :: rest => if String.eqb k key then Some v else fieldOf key rest
  end.

Definition jsonField (key : string) (j : JSON) : option JSON :=
  match j with
  | JObject fields => fieldOf key fields
  | _ => None
  end.

Record propertyJSON : Type := {
  json_HasLink : bool;
  json_HasTaskList : bool;
  json_HasCode : bool;
  json_HasIncompleteTasks : bool
}.

Record memoJSON : Type := {
  json_Name : string;
  json_Creator : string;
  json_CreateTime : Z;
  json_UpdateTime : Z;
  json_Content : string;
  json_Visibility : string;
  json_Tags : slice string;
  json_Pinned : bool;
  json_State : string;
  json_Property : option propertyJSON;
  json_Parent : string
}.

Definition storeMemoToJSON (m : Memo) : memoJSON :=
  let j := {|
    json_Name := "memos/" +:+ UID m;
    json_Creator := "users/" +:+ fmtInt (CreatorID m);
    json_CreateTime := CreatedTs m;
    json_UpdateTime := UpdatedTs m;
    json_Content := Content m;
    json_Visibility := Visibility m;
    json_Tags := mkSlice [];
    json_Pinned := Pinned m;
    json_State := RowStatus m;
    json_Property := None;
    json_Parent := ""
  |} in
  let tags :=
    match Payload m with
    | Some payload =>
        if (0 <? length (Tags payload))%nat
        then mkSlice (Tags payload) else json_Tags j
    | None => json_Tags j
    end in
  let property :=
    match Payload m with
    | Some payload =>
        match Property payload with
        | Some p =>
            if HasLink p || HasTaskList p || HasCode p || HasIncompleteTasks p
            then Some {| json_HasLink := HasLink p;
                         json_HasTaskList := HasTaskList p;
                         json_HasCode := HasCode p;
                         json_HasIncompleteTasks := HasIncompleteTasks p |}
            else json_Property j
        | None => json_Property j
        end
    | None => json_Property j
    end in
  let parent :=
    match ParentUID m with
    | Some uid => "memos/" +:+ uid
    | None => json_Parent j
    end in
  {| json_Name := json_Name j; json_Creator := json_Creator j;
     json_CreateTime := json_CreateTime j; json_UpdateTime := json_UpdateTime j;
     json_Content := json_Content j; json_Visibility := json_Visibility j;
     json_Tags := tags; json_Pinned := json_Pinned j;
     json_State := json_State j; json_Property := property;
     json_Parent := parent |}.

(** [json.Marshal] on the types of this package, following their struct
    tags: a field tagged [omitempty] is left out when it is the empty string
    or a nil pointer; a nil slice is written [null]; a string is written
    with its invalid bytes replaced. *)
Definition marshalString (s : string) : JSON := JString (toValidUTF8 s).

Definition marshalStrings (s : slice string) : JSON :=
  match s with
  | nilSlice => JNull
  | mkSlice l => JArray (marshalString <$> l)
  end.

Definition marshalProperty (p : propertyJSON) : JSON :=
  JObject [("has_link", JBool (json_HasLink p));
           ("has_task_list", JBool (json_HasTaskList p));
           ("has_code", JBool (json_HasCode p));
           ("has_incomplete_tasks", JBool (json_HasIncompleteTasks p))].

Definition omitEmptyString (key : string) (s : string) : list (string * JSON) :=
  if String.eqb s "" then [] else [(key, marshalString s)].

Definition marshalMemo (j : memoJSON) : JSON :=
  JObject (
    [("name", marshalString (json_Name j));
     ("creator", marshalString (json_Creator j));
     ("create_time", JNumber (json_CreateTime j));
     ("update_time", JNumber (json_UpdateTime j))]
    ++ omitEmptyString "content" (json_Content j)
    ++ [("visibility", marshalString (json_Visibility j));
        ("tags", marshalStrings (json_Tags j));
        ("pinned", JBool (json_Pinned j));
        ("state", marshalString (json_State j))]
    ++ match json_Property j with
       | Some p => [("property", marshalProperty p)]
       | None => []
       end
    ++ omitEmptyString "parent" (json_Parent j)).

Definition marshalMemos (js : list memoJSON) : JSON := JArray (marshalMemo <$> js).

(** The [listResponse] of [handleListMemos]. *)
Definition marshalListResponse (memos : list memoJSON) (hasMore : bool) : JSON :=
  JObject [("memos", marshalMemos memos); ("has_more", JBool hasMore)].

(** ** The visibility policy *)

(** [userID = 0] means anonymous. *)
Definition checkMemoAccess (memo : Memo) (userID : Z) : Result MCPError unit :=
  if String.eqb (Visibility memo) Protected then
    if userID =? 0 then Err PermissionDenied else Ok ()
  else if String.eqb (Visibility memo) Private then
    if negb (CreatorID memo =? userID) then Err PermissionDenied else Ok ()
  else Ok ().

(** The policy clause of an authenticated caller, a CEL expression. *)
Definition visibilityClause (userID : Z) : string :=
  "creator_id == " +:+ fmtInt userID +:+ " || visibility in ["
    +:+ dq +:+ "PUBLIC" +:+ dq +:+ ", " +:+ dq +:+ "PROTECTED" +:+ dq +:+ "]".

Definition applyVisibilityFilter (find : FindMemo) (userID : Z) : FindMemo :=
  if userID =? 0 then
    {| find_ID := find_ID find; find_UID := find_UID find;
       find_RowStatus := find_RowStatus find;
       find_VisibilityList := [Public];
       find_ExcludeContent := find_ExcludeContent find;
       find_ExcludeComments := find_ExcludeComments find;
       find_Filters := find_Filters find;
       find_Limit := find_Limit find; find_Offset := find_Offset find;
       find_OrderByPinned := find_OrderByPinned find;
       find_IDList := find_IDList find |}
  else
    {| find_ID := find_ID find; find_UID := find_UID find;
       find_RowStatus := find_RowStatus find;
       find_VisibilityList := find_VisibilityList find;
       find_ExcludeContent := find_ExcludeContent find;
       find_ExcludeComments := find_ExcludeComments find;
       find_Filters := find_Filters find ++ [visibilityClause userID];
       find_Limit := find_Limit find; find_Offset := find_Offset find;
       find_OrderByPinned := find_OrderByPinned find;
       find_IDList := find_IDList find |}.

(** [find.Filters = append(find.Filters, filter)]. *)
Definition appendFilter (find : FindMemo) (filter : string) : FindMemo :=
  {| find_ID := find_ID find; find_UID := find_UID find;
     find_RowStatus := find_RowStatus find;
     find_VisibilityList := find_VisibilityList find;
     find_ExcludeContent := find_ExcludeContent find;
     find_ExcludeComments := find_ExcludeComments find;
     find_Filters := find_Filters find ++ [filter];
     find_Limit := find_Limit find; find_Offset := find_Offset find;
     find_OrderByPinned := find_OrderByPinned find;
     find_IDList := find_IDList find |}.

(** ** Argument validation *)

Definition parseMemoUID (name : string) : Result MCPError string :=
  match stringsCutPrefix name "memos/" with
  | Some uid => if String.eqb uid "" then Err (BadMemoName name) else Ok uid
  | None => Err (BadMemoName name)
  end.

Definition parseVisibility (s : string) : Result MCPError string :=
  if String.eqb s Public || String.eqb s Protected || String.eqb s Private
  then Ok s else Err (BadVisibility s).

Definition parseRowStatus (s : string) : Result MCPError string :=
  if String.eqb s Normal || String.eqb s Archived
  then Ok s else Err (BadRowStatus s).

(** [auth.GetUserID] gives 0 for a call without identity. *)
Definition extractUserID (userID : Z) : Result MCPError Z :=
  if userID =? 0 then Err Unauthenticated else Ok userID.

(** ** Requests

    The arguments of a call are a JSON object decoded into a Go map; a JSON
    number arrives as a [float64]. *)
Inductive ArgValue : Type :=
| AString (s : string)
| ANumber (v : float64)
| ABool (b : bool)
| AOther.                      (* null, arrays, objects *)

Record CallToolRequest : Type := {
  GetArguments : gmap string ArgValue
}.

Definition isDigit (c : ascii) : bool :=
  let n := nat_of_ascii c in ((48 <=? n) && (n <=? 57))%nat.

Fixpoint parseDigits (s : string) (acc : Z) : option Z :=
  match s with
  | EmptyString => Some acc
  | String c s' =>
      if isDigit c
      then parseDigits s' (10 * acc + (Z.of_nat (nat_of_ascii c) - 48))
      else None
  end.

(** [strconv.Atoi]: an optional sign and decimal digits, within [int]. *)
Definition strconvAtoi (s : string) : option Z :=
  let '(neg, body) :=
    match s with
    | String c s' =>
        if Ascii.eqb c "-" then (true, s')
        else if Ascii.eqb c "+" then (false, s')
        else (false, s)
    | EmptyString => (false, s)
    end in
  if String.eqb body "" then None
  else match parseDigits body 0 with
       | Some n =>
           let v := if neg : bool then - n else n in
           if (minInt <=? v) && (v <=? maxInt) then Some v else None
       | None => None
       end.

(** [strconv.ParseBool]. *)
Definition strconvParseBool (s : string) : option bool :=
  if String.eqb s "1" || String.eqb s "t" || String.eqb s "T"
     || String.eqb s "TRUE" || String.eqb s "true" || String.eqb s "True"
  then Some true
  else if String.eqb s "0" || String.eqb s "f" || String.eqb s "F"
     || String.eqb s "FALSE" || String.eqb s "false" || String.eqb s "False"
  then Some false
  else None.

(** The accessors of [mcp.CallToolRequest] (mcp-go). *)
Definition GetString (req : CallToolRequest) (key defaultValue : string) : string :=
  match GetArguments req !! key with
  | Some (AString s) => s
  | _ => defaultValue
  end.

Definition GetInt `{Platform} (req : CallToolRequest) (key : string) (defaultValue : Z)
  : Z :=
  match GetArguments req !! key with
  | Some (ANumber v) => float64ToInt v
  | Some (AString s) =>
      match strconvAtoi s with
      | Some i => i
      | None => defaultValue
      end
  | _ => defaultValue
  end.

Definition GetBool (req : CallToolRequest) (key : string) (defaultValue : bool) : bool :=
  match GetArguments req !! key with
  | Some (ABool b) => b
  | Some (AString s) =>
      match strconvParseBool s with
      | Some b => b
      | None => defaultValue
      end
  | Some (ANumber v) =>         (* v != 0 *)
      match v with
      | S754_zero _ => false
      | _ => true
      end
  | _ => defaultValue
  end.

(** ** Handlers as programs over the store *)

Record DeleteMemo : Type := { del_ID : Z }.

(** What a handler may ask of its collaborators: the methods of
    [store.Store] it uses, and [shortuuid.New]. The index is the type of the
    answer. *)
Inductive StoreCall : Type -> Type :=
| Store_GetMemo (find : FindMemo) : StoreCall (Result string (option Memo))
| Store_ListMemos (find : FindMemo) : StoreCall (Result string (list Memo))
| Store_CreateMemo (create : Memo) : StoreCall (Result string Memo)
| Store_UpdateMemo (update : UpdateMemo) : StoreCall (Result string unit)
| Store_DeleteMemo (delete : DeleteMemo) : StoreCall (Result string unit)
| Store_ListMemoRelations (find : FindMemoRelation)
    : StoreCall (Result string (list MemoRelation))
| Store_UpsertMemoRelation (create : MemoRelation)
    : StoreCall (Result string MemoRelation)
| Shortuuid_New : StoreCall string.

(** A handler returns, asks something and goes on with the answer, or
    panics (a nil pointer is dereferenced). *)
Inductive Handler (A : Type) : Type :=
| Return (a : A)
| Invoke {X : Type} (c : StoreCall X) (k : X -> Handler A)
| Panic.
Arguments Return {A} a.
Arguments Invoke {A X} c k.
Arguments Panic {A}.

Notation "x <- c ;; k" := (Invoke c (fun x => k))
  (at level 100, c at next level, right associativity).

(** One call of a handler and its answer. *)
Definition Event : Type := { X : Type & (StoreCall X * X)%type }.
Definition event {X} (c : StoreCall X) (x : X) : Event := existT X (c, x).

(** A store, as far as this layer can tell: something that answers calls
    and may change while doing so. *)
Class Store (W : Type) : Type :=
  perform : forall X, StoreCall X -> W -> X * W.
Arguments perform {W _ X} c w.

(** Running a handler against a store: its result ([None] for a panic),
    the calls it made with their answers, in order, and the store after. *)
Fixpoint exec {W} `{Store W} {A} (p : Handler A) (w : W)
  : option A * list Event * W :=
  match p with
  | Return a => (Some a, [], w)
  | Invoke c k =>
      let '(x, w1) := perform c w in
      let '(a, evs, w2) := exec (k x) w1 in
      (a, event c x :: evs, w2)
  | Panic => (None, [], w)
  end.

(** A tool call ends in a text result or in an error result; both are
    results of the protocol, the session goes on. *)
Inductive CallToolResult : Type :=
| NewToolResultText (body : JSON)
| NewToolResultError (e : MCPError).

(** [json.Marshal] does not fail on the values of this package, so
    [marshalJSON] always gives its text and the handlers' Go-level error is
    always nil. *)
Definition marshalJSON (v : JSON) : JSON := v.

Definition findByUID (uid : string) : FindMemo := {|
  find_ID := None; find_UID := Some uid; find_RowStatus := None;
  find_VisibilityList := []; find_ExcludeContent := false;
  find_ExcludeComments := false; find_Filters := [];
  find_Limit := None; find_Offset := None;
  find_OrderByPinned := false; find_IDList := []
|}.

Definition findByID (id : Z) : FindMemo := {|
  find_ID := Some id; find_UID := None; find_RowStatus := None;
  find_VisibilityList := []; find_ExcludeContent := false;
  find_ExcludeComments := false; find_Filters := [];
  find_Limit := None; find_Offset := None;
  find_OrderByPinned := false; find_IDList := []
|}.

(** The page size of [handleListMemos]: 20 when none or a non-positive one
    is asked for, at most 100. *)
Definition listPageSize `{Platform} (req : CallToolRequest) : Z :=
  let pageSize := GetInt req "page_size" 20 in
  let pageSize := if pageSize <=? 0 then 20 else pageSize in
  let pageSize := if pageSize >? 100 then 100 else pageSize in
  pageSize.

(** Its zero-based page index. *)
Definition listPage `{Platform} (req : CallToolRequest) : Z :=
  let page := GetInt req "page" 0 in
  let page := if page <? 0 then 0 else page in
  page.

(** The query of [handleListMemos], once the state argument is validated. *)
Definition listFind `{Platform} (userID : Z) (req : CallToolRequest)
    (rowStatus : option string) : FindMemo :=
  let pageSize := listPageSize req in
  let page := listPage req in
  let limit := intAdd pageSize 1 in
  let offset := intMul page pageSize in
  let find := {|
    find_ID := None; find_UID := None;
    find_RowStatus := rowStatus;
    find_VisibilityList := []; find_ExcludeContent := false;
    find_ExcludeComments := true;
    find_Filters := [];
    find_Limit := Some limit; find_Offset := Some offset;
    find_OrderByPinned := GetBool req "order_by_pinned" false;
    find_IDList := [] |} in
  let find := applyVisibilityFilter find userID in
  let filter := GetString req "filter" "" in
  if negb (String.eqb filter "") then appendFilter find filter else find.

Definition handleListMemos `{Platform} (userID : Z) (req : CallToolRequest)
  : Handler CallToolResult :=
  let pageSize := listPageSize req in
  let state := GetString req "state" "NORMAL" in
  match (if negb (String.eqb state "")
         then match parseRowStatus state with
              | Ok rs => Ok (Some rs)
              | Err e => Err e
              end
         else Ok None) with
  | Err e => Return (NewToolResultError e)
  | Ok rowStatus =>
      listed <- Store_ListMemos (listFind userID req rowStatus) ;;
      match listed with
      | Err err => Return (NewToolResultError (Failed "list memos" err))
      | Ok memos =>
          let hasMore := Z.of_nat (length memos) >? pageSize in
          let memos := if hasMore then take (Z.to_nat pageSize) memos else memos in
          let results := storeMemoToJSON <$> memos in
          Return (NewToolResultText
                    (marshalJSON (marshalListResponse results hasMore)))
      end
  end.

Definition handleGetMemo (userID : Z) (req : CallToolRequest)
  : Handler CallToolResult :=
  match parseMemoUID (GetString req "name" "") with
  | Err e => Return (NewToolResultError e)
  | Ok uid =>
      got <- Store_GetMemo (findByUID uid) ;;
      match got with
      | Err err => Return (NewToolResultError (Failed "get memo" err))
      | Ok None => Return (NewToolResultError MemoNotFound)
      | Ok (Some memo) =>
          match checkMemoAccess memo userID with
          | Err e => Return (NewToolResultError e)
          | Ok _ =>
              Return (NewToolResultText (marshalJSON (marshalMemo (storeMemoToJSON memo))))
          end
      end
  end.

Definition handleCreateMemo (ctxUserID : Z) (req : CallToolRequest)
  : Handler CallToolResult :=
  match extractUserID ctxUserID with
  | Err e => Return (NewToolResultError e)
  | Ok userID =>
      let content := GetString req "content" "" in
      if String.eqb content "" then Return (NewToolResultError ContentRequired)
      else
        match parseVisibility (GetString req "visibility" "PRIVATE") with
        | Err e => Return (NewToolResultError e)
        | Ok visibility =>
            uid <- Shortuuid_New ;;
            created <- Store_CreateMemo {|
              ID := 0; UID := uid; RowStatus := ""; CreatorID := userID;
              CreatedTs := 0; UpdatedTs := 0; Content := content;
              Visibility := visibility; Pinned := false;
              Payload := buildPayload content; ParentUID := None |} ;;
            match created with
            | Err err => Return (NewToolResultError (Failed "create memo" err))
            | Ok memo =>
                Return (NewToolResultText (marshalJSON (marshalMemo (storeMemoToJSON memo))))
            end
        end
  end.

(** The [store.UpdateMemo] that [handleUpdateMemo] fills in from the
    arguments, field after field; the first invalid enumeration value stops
    it. *)
Definition buildUpdate (memo : Memo) (req : CallToolRequest)
  : Result MCPError UpdateMemo :=
  let args := GetArguments req in
  let content := GetString req "content" "" in
  let '(updContent, updPayload) :=
    if negb (String.eqb content "")
    then (Some content, buildPayload content)
    else (None, None) in
  let visibility := GetString req "visibility" "" in
  match (if negb (String.eqb visibility "")
         then match parseVisibility visibility with
              | Ok vis => Ok (Some vis)
              | Err e => Err e
              end
         else Ok None) with
  | Err e => Err e
  | Ok updVisibility =>
      let state := GetString req "state" "" in
      match (if negb (String.eqb state "")
             then match parseRowStatus state with
                  | Ok rs => Ok (Some rs)
                  | Err e => Err e
                  end
             else Ok None) with
      | Err e => Err e
      | Ok updRowStatus =>
          let updPinned :=
            match args !! "pinned" with
            | Some _ => Some (GetBool req "pinned" false)
            | None => None
            end in
          Ok {| upd_ID := ID memo;
                upd_RowStatus := updRowStatus;
                upd_Content := updContent;
                upd_Visibility := updVisibility;
                upd_Pinned := updPinned;
                upd_Payload := updPayload |}
      end
  end.

Definition handleUpdateMemo (ctxUserID : Z) (req : CallToolRequest)
  : Handler CallToolResult :=
  match extractUserID ctxUserID with
  | Err e => Return (NewToolResultError e)
  | Ok userID =>
      match parseMemoUID (GetString req "name" "") with
      | Err e => Return (NewToolResultError e)
      | Ok uid =>
          got <- Store_GetMemo (findByUID uid) ;;
          match got with
          | Err err => Return (NewToolResultError (Failed "get memo" err))
          | Ok None => Return (NewToolResultError MemoNotFound)
          | Ok (Some memo) =>
              if negb (CreatorID memo =? userID)
              then Return (NewToolResultError PermissionDenied)
              else
                match buildUpdate memo req with
                | Err e => Return (NewToolResultError e)
                | Ok update =>
                    done <- Store_UpdateMemo update ;;
                    match done with
                    | Err err => Return (NewToolResultError (Failed "update memo" err))
                    | Ok _ =>
                        again <- Store_GetMemo (findByID (ID memo)) ;;
                        match again with
                        | Err err =>
                            Return (NewToolResultError (Failed "fetch updated memo" err))
                        | Ok None => Panic
                        | Ok (Some updated) =>
                            Return (NewToolResultText
                                      (marshalJSON (marshalMemo (storeMemoToJSON updated))))
                        end
                    end
                end
          end
      end
  end.

Definition handleDeleteMemo (ctxUserID : Z) (req : CallToolRequest)
  : Handler CallToolResult :=
  match extractUserID ctxUserID with
  | Err e => Return (NewToolResultError e)
  | Ok userID =>
      match parseMemoUID (GetString req "name" "") with
      | Err e => Return (NewToolResultError e)
      | Ok uid =>
          got <- Store_GetMemo (findByUID uid) ;;
          match got with
          | Err err => Return (NewToolResultError (Failed "get memo" err))
          | Ok None => Return (NewToolResultError MemoNotFound)
          | Ok (Some memo) =>
              if negb (CreatorID memo =? userID)
              then Return (NewToolResultError PermissionDenied)
              else
                done <- Store_DeleteMemo {| del_ID := ID memo |} ;;
                match done with
                | Err err => Return (NewToolResultError (Failed "delete memo" err))
                | Ok _ => Return (NewToolResultText (JObject [("deleted", JBool true)]))
                end
          end
      end
  end.

(** The query of [handleSearchMemos]. [quote] stands for [%q] of [fmt]
    ([strconv.Quote]). *)
Definition searchFind (quote : string -> string) (userID : Z) (query : string)
  : FindMemo :=
  let limit := 50 in
  let zero := 0 in
  let rowStatus := Normal in
  let find := {|
    find_ID := None; find_UID := None;
    find_RowStatus := Some rowStatus;
    find_VisibilityList := []; find_ExcludeContent := false;
    find_ExcludeComments := true;
    find_Filters := ["content.contains(" +:+ quote query +:+ ")"];
    find_Limit := Some limit; find_Offset := Some zero;
    find_OrderByPinned := false; find_IDList := [] |} in
  applyVisibilityFilter find userID.

Definition handleSearchMemos (quote : string -> string)
    (userID : Z) (req : CallToolRequest) : Handler CallToolResult :=
  let query := GetString req "query" "" in
  if String.eqb query "" then Return (NewToolResultError QueryRequired)
  else
    listed <- Store_ListMemos (searchFind quote userID query) ;;
    match listed with
    | Err err => Return (NewToolResultError (Failed "search memos" err))
    | Ok memos =>
        Return (NewToolResultText (marshalJSON (marshalMemos (storeMemoToJSON <$> memos))))
    end.

Definition handleListMemoComments (userID : Z) (req : CallToolRequest)
  : Handler CallToolResult :=
  match parseMemoUID (GetString req "name" "") with
  | Err e => Return (NewToolResultError e)
  | Ok uid =>
      got <- Store_GetMemo (findByUID uid) ;;
      match got with
      | Err err => Return (NewToolResultError (Failed "get memo" err))
      | Ok None => Return (NewToolResultError MemoNotFound)
      | Ok (Some parent) =>
          match checkMemoAccess parent userID with
          | Err e => Return (NewToolResultError e)
          | Ok _ =>
              let relationType := MemoRelationComment in
              rels <- Store_ListMemoRelations {|
                findrel_RelatedMemoID := Some (ID parent);
                findrel_Type := Some relationType |} ;;
              match rels with
              | Err err => Return (NewToolResultError (Failed "list relations" err))
              | Ok relations =>
                  if (length relations =? 0)%nat
                  then Return (NewToolResultText (marshalJSON (marshalMemos [])))
                  else
                    let commentIDs := rel_MemoID <$> relations in
                    listed <- Store_ListMemos {|
                      find_ID := None; find_UID := None; find_RowStatus := None;
                      find_VisibilityList := []; find_ExcludeContent := false;
                      find_ExcludeComments := false; find_Filters := [];
                      find_Limit := None; find_Offset := None;
                      find_OrderByPinned := false; find_IDList := commentIDs |} ;;
                    match listed with
                    | Err err => Return (NewToolResultError (Failed "list comments" err))
                    | Ok memos =>
                        let results :=
                          storeMemoToJSON <$>
                            List.filter
                              (fun m => match checkMemoAccess m userID with
                                        | Ok _ => true
                                        | Err _ => false
                                        end) memos in
                        Return (NewToolResultText (marshalJSON (marshalMemos results)))
                    end
              end
          end
      end
  end.

Definition handleCreateMemoComment (ctxUserID : Z) (req : CallToolRequest)
  : Handler CallToolResult :=
  match extractUserID ctxUserID with
  | Err e => Return (NewToolResultError e)
  | Ok userID =>
      match parseMemoUID (GetString req "name" "") with
      | Err e => Return (NewToolResultError e)
      | Ok uid =>
          let content := GetString req "content" "" in
          if String.eqb content "" then Return (NewToolResultError ContentRequired)
          else
            got <- Store_GetMemo (findByUID uid) ;;
            match got with
            | Err err => Return (NewToolResultError (Failed "get memo" err))
            | Ok None => Return (NewToolResultError MemoNotFound)
            | Ok (Some parent) =>
                match checkMemoAccess parent userID with
                | Err e => Return (NewToolResultError e)
                | Ok _ =>
                    newUID <- Shortuuid_New ;;
                    created <- Store_CreateMemo {|
                      ID := 0; UID := newUID; RowStatus := "";
                      CreatorID := userID; CreatedTs := 0; UpdatedTs := 0;
                      Content := content; Visibility := Visibility parent;
                      Pinned := false; Payload := buildPayload content;
                      ParentUID := Some (UID parent) |} ;;
                    match created with
                    | Err err => Return (NewToolResultError (Failed "create comment" err))
                    | Ok comment =>
                        linked <- Store_UpsertMemoRelation {|
                          rel_MemoID := ID comment;
                          rel_RelatedMemoID := ID parent;
                          rel_Type := MemoRelationComment |} ;;
                        match linked with
                        | Err err => Return (NewToolResultError (Failed "link comment" err))
                        | Ok _ =>
                            Return (NewToolResultText
                                      (marshalJSON (marshalMemo (storeMemoToJSON comment))))
                        end
                    end
                end
            end
      end
  end.

(** ** The tag listing tool *)

Record tagEntry : Type := {
  Tag : string;
  Count : Z
}.

(** [counts[tag]++]. The counter is bounded by the number of tags held by
    the listed memos, far below the range of [int]. *)
Definition countTag (counts : gmap string Z) (tag : string) : gmap string Z :=
  <[tag := default 0 (counts !! tag) + 1]> counts.

(** The body of the loop over the memos: a memo without payload is skipped. *)
Definition countMemoTags (counts : gmap string Z) (m : Memo) : gmap string Z :=
  match Payload m with
  | None => counts
  | Some payload => fold_left countTag (Tags payload) counts
  end.

Definition tagCounts (memos : list Memo) : gmap string Z :=
  fold_left countMemoTags memos ∅.

(** The [less] function handed to [sort.Slice]. *)
Definition tagEntryLess (a b : tagEntry) : bool :=
  if negb (Count a =? Count b) then Count a >? Count b
  else String.ltb (Tag a) (Tag b).

(** [a] may stand before [b] in a slice sorted by [tagEntryLess]. *)
Definition tagEntryBefore (a b : tagEntry) : Prop := tagEntryLess b a = false.

#[global] Instance tagEntryBefore_dec (a b : tagEntry) : Decision (tagEntryBefore a b).
Proof. unfold tagEntryBefore. apply _. Defined.

(** The entries of the map, in the order the iteration yields them, then
    [sort.Slice]. Go fixes neither the iteration order nor the sorting
    method; [tagEntries_sorted_unique] shows that the result does not depend
    on them. *)
Definition tagEntries (counts : gmap string Z) : list tagEntry :=
  let entries := (fun kv => {| Tag := kv.1; Count := kv.2 |}) <$> map_to_list counts in
  merge_sort tagEntryBefore entries.

Definition marshalTagEntry (e : tagEntry) : JSON :=
  JObject [("tag", marshalString (Tag e)); ("count", JNumber (Count e))].

(** The query of [handleListTags]. *)
Definition tagsFind (userID : Z) : FindMemo :=
  let rowStatus := Normal in
  let find := {|
    find_ID := None; find_UID := None;
    find_RowStatus := Some rowStatus;
    find_VisibilityList := []; find_ExcludeContent := true;
    find_ExcludeComments := true; find_Filters := [];
    find_Limit := None; find_Offset := None;
    find_OrderByPinned := false; find_IDList := [] |} in
  applyVisibilityFilter find userID.

Definition handleListTags (userID : Z) (_ : CallToolRequest)
  : Handler CallToolResult :=
  listed <- Store_ListMemos (tagsFind userID) ;;
  match listed with
  | Err err => Return (NewToolResultError (Failed "list memos" err))
  | Ok memos =>
      let entries := tagEntries (tagCounts memos) in
      Return (NewToolResultText (marshalJSON (JArray (marshalTagEntry <$> entries))))
  end.

(** ** The memo resource *)

(** The line feed. *)
Definition nl : string := String (ascii_of_nat 10) EmptyString.

Record TextResourceContents : Type := {
  res_URI : string;
  res_MIMEType : string;
  res_Text : string
}.

(** One line [key: value] of the header. *)
Definition headerLine (key value : string) : string := key +:+ ": " +:+ value +:+ nl.

Definition formatMemoMarkdown (j : memoJSON) : string :=
  let sb := "---" +:+ nl in
  let sb := sb +:+ headerLine "name" (json_Name j) in
  let sb := sb +:+ headerLine "creator" (json_Creator j) in
  let sb := sb +:+ headerLine "visibility" (json_Visibility j) in
  let sb := sb +:+ headerLine "state" (json_State j) in
  let sb := sb +:+ headerLine "pinned" (fmtBool (json_Pinned j)) in
  let sb :=
    if (0 <? length (sliceElems (json_Tags j)))%nat
    then sb +:+ headerLine "tags" ("[" +:+ stringsJoin (sliceElems (json_Tags j)) ", " +:+ "]")
    else sb in
  let sb := sb +:+ headerLine "create_time" (fmtInt (json_CreateTime j)) in
  let sb := sb +:+ headerLine "update_time" (fmtInt (json_UpdateTime j)) in
  let sb :=
    if negb (String.eqb (json_Parent j) "")
    then sb +:+ headerLine "parent" (json_Parent j)
    else sb in
  let sb := sb +:+ "---" +:+ nl +:+ nl in
  sb +:+ json_Content j.

(** A resource read ends in contents or in an error of the resolution
    itself, not in a tool result. *)
Definition handleReadMemoResource (userID : Z) (uri : string)
  : Handler (Result MCPError (list TextResourceContents)) :=
  let uid := stringsTrimPrefix uri "memo://memos/" in
  if String.eqb uid uri || String.eqb uid "" then Return (Err (InvalidMemoURI uri))
  else
    got <- Store_GetMemo (findByUID uid) ;;
    match got with
    | Err err => Return (Err (Wrapped "failed to get memo" err))
    | Ok None => Return (Err (ResourceNotFound uid))
    | Ok (Some memo) =>
        match checkMemoAccess memo userID with
        | Err e => Return (Err e)
        | Ok _ =>
            let j := storeMemoToJSON memo in
            let text := formatMemoMarkdown j in
            Return (Ok [{| res_URI := uri; res_MIMEType := "text/markdown";
                           res_Text := text |}])
        end
    end.

(** ** The prompts *)

(** The arguments of a prompt request are a Go [map[string]string]: a key
    that is not there reads as the empty string. *)
Record GetPromptRequest : Type := {
  prompt_Arguments : gmap string string
}.

Definition promptArgument (req : GetPromptRequest) (key : string) : string :=
  default "" (prompt_Arguments req !! key).

Definition RoleUser : string := "user".

Record PromptMessage : Type := {
  msg_Role : string;
  msg_Text : string
}.

Record GetPromptResult : Type := {
  prompt_Description : string;
  prompt_Messages : list PromptMessage
}.

Definition captureInstruction : string :=
  "Please save the following as a new private memo using the create_memo tool."
    +:+ nl +:+ nl +:+ "Content:" +:+ nl.

Definition captureTagsHint : string :=
  nl +:+ nl +:+ "Append these tags inline using #tag syntax: ".

Definition handleCapturePrompt (req : GetPromptRequest)
  : Result string GetPromptResult :=
  let content := promptArgument req "content" in
  if String.eqb content "" then Err "content argument is required"
  else
    let tags := promptArgument req "tags" in
    let instruction := captureInstruction +:+ content in
    let instruction :=
      if negb (String.eqb tags "")
      then instruction +:+ (captureTagsHint +:+ tags)
      else instruction in
    Ok {| prompt_Description := "Capture a memo";
          prompt_Messages := [{| msg_Role := RoleUser; msg_Text := instruction |}] |}.

(** [quote] stands for [%q] of [fmt] ([strconv.Quote]). *)
Definition handleReviewPrompt (quote : string -> string) (req : GetPromptRequest)
  : Result string GetPromptResult :=
  let topic := promptArgument req "topic" in
  if String.eqb topic "" then Err "topic argument is required"
  else
    let instruction :=
      "Please use the search_memos tool to find memos about " +:+ quote topic
        +:+ ", then provide a concise summary of what has been written on this topic, grouped by theme. Include the memo names so the user can reference them." in
    Ok {| prompt_Description := "Review memos about " +:+ quote topic;
          prompt_Messages := [{| msg_Role := RoleUser; msg_Text := instruction |}] |}.

(** ** A reference store

    The [store] package itself is outside this layer. The handlers above are
    stated against any [Store]; the one below is the plain in-memory reading
    of the store's contract, used to run the handlers on concrete data. *)

(** Modelled from the spec: the state of the store collaborator, a table of
    memos and a table of typed relations. [filterEval] is the store's
    evaluation of a filter expression on a row, [uuids] the identifiers
    [shortuuid.New] will hand out. *)
Record World : Type := {
  memos : list Memo;
  relations : list MemoRelation;
  nextID : Z;
  clock : Z;
  uuids : list string;
  filterEval : string -> Memo -> bool
}.

Definition optMatches {A} (eqb : A -> A -> bool) (want : option A) (have : A) : bool :=
  match want with
  | Some x => eqb x have
  | None => true
  end.

Definition inOrAll {A} (eqb : A -> A -> bool) (l : list A) (x : A) : bool :=
  match l with
  | [] => true
  | _ => existsb (eqb x) l
  end.

(** Modelled from the spec: which rows a [FindMemo] selects. The filter
    strings passed together are ANDed, and so are the other constraints. *)
Definition rowMatches (w : World) (find : FindMemo) (m : Memo) : bool :=
  optMatches Z.eqb (find_ID find) (ID m)
  && optMatches String.eqb (find_UID find) (UID m)
  && optMatches String.eqb (find_RowStatus find) (RowStatus m)
  && inOrAll String.eqb (find_VisibilityList find) (Visibility m)
  && (if find_ExcludeComments find
      then match ParentUID m with None => true | Some _ => false end
      else true)
  && inOrAll Z.eqb (find_IDList find) (ID m)
  && forallb (fun f => filterEval w f m) (find_Filters find).

Definition withoutContent (m : Memo) : Memo :=
  {| ID := ID m; UID := UID m; RowStatus := RowStatus m;
     CreatorID := CreatorID m; CreatedTs := CreatedTs m;
     UpdatedTs := UpdatedTs m; Content := "";
     Visibility := Visibility m; Pinned := Pinned m;
     Payload := Payload m; ParentUID := ParentUID m |}.

(** Modelled from the spec: [FindMemo(...) -> []Memo], the selected rows,
    pinned ones first on request, then the window [offset, offset + limit). *)
Definition selectMemos (w : World) (find : FindMemo) : list Memo :=
  let rows := List.filter (rowMatches w find) (memos w) in
  let rows :=
    if find_OrderByPinned find
    then List.filter Pinned rows ++ List.filter (fun m => negb (Pinned m)) rows
    else rows in
  let rows :=
    match find_Offset find with
    | Some o => drop (Z.to_nat o) rows
    | None => rows
    end in
  let rows :=
    match find_Limit find with
    | Some l => take (Z.to_nat l) rows
    | None => rows
    end in
  if find_ExcludeContent find then withoutContent <$> rows else rows.

(** Modelled from the spec: [UpdateMemo(id, partialFields)], a field that is
    not supplied keeps its value. *)
Definition applyUpdate (update : UpdateMemo) (m : Memo) : Memo :=
  if ID m =? upd_ID update then
    {| ID := ID m; UID := UID m;
       RowStatus := default (RowStatus m) (upd_RowStatus update);
       CreatorID := CreatorID m; CreatedTs := CreatedTs m;
       UpdatedTs := UpdatedTs m;
       Content := default (Content m) (upd_Content update);
       Visibility := default (Visibility m) (upd_Visibility update);
       Pinned := default (Pinned m) (upd_Pinned update);
       Payload := match upd_Payload update with
                  | Some p => Some p
                  | None => Payload m
                  end;
       ParentUID := ParentUID m |}
  else m.

Definition sameRelation (a b : MemoRelation) : bool :=
  (rel_MemoID a =? rel_MemoID b) && (rel_RelatedMemoID a =? rel_RelatedMemoID b)
  && String.eqb (rel_Type a) (rel_Type b).

Definition setMemos (w : World) (ms : list Memo) : World :=
  {| memos := ms; relations := relations w; nextID := nextID w;
     clock := clock w; uuids := uuids w; filterEval := filterEval w |}.

(** Modelled from the spec: the store collaborator's answers.
    [CreateMemo] gives the draft its row identifier, its timestamps and the
    NORMAL row status; [DeleteMemo] removes the row; [UpsertMemoRelation]
    adds the edge unless it is there. This store never fails. *)
Definition memPerform (X : Type) (c : StoreCall X) (w : World) : X * World :=
  match c in StoreCall T return T * World with
  | Store_GetMemo find => (Ok (head (List.filter (rowMatches w find) (memos w))), w)
  | Store_ListMemos find => (Ok (selectMemos w find), w)
  | Store_CreateMemo create =>
      let row := {|
        ID := nextID w; UID := UID create;
        RowStatus := if String.eqb (RowStatus create) "" then Normal else RowStatus create;
        CreatorID := CreatorID create;
        CreatedTs := clock w; UpdatedTs := clock w;
        Content := Content create; Visibility := Visibility create;
        Pinned := Pinned create; Payload := Payload create;
        ParentUID := ParentUID create |} in
      (Ok row,
       {| memos := memos w ++ [row]; relations := relations w;
          nextID := nextID w + 1; clock := clock w; uuids := uuids w;
          filterEval := filterEval w |})
  | Store_UpdateMemo update => (Ok (), setMemos w (applyUpdate update <$> memos w))
  | Store_DeleteMemo delete =>
      (Ok (), setMemos w (List.filter (fun m => negb (ID m =? del_ID delete)) (memos w)))
  | Store_ListMemoRelations find =>
      (Ok (List.filter
             (fun r => optMatches Z.eqb (findrel_RelatedMemoID find) (rel_RelatedMemoID r)
                       && optMatches String.eqb (findrel_Type find) (rel_Type r))
             (relations w)), w)
  | Store_UpsertMemoRelation create =>
      (Ok create,
       if existsb (sameRelation create) (relations w) then w
       else {| memos := memos w; relations := relations w ++ [create];
               nextID := nextID w; clock := clock w; uuids := uuids w;
               filterEval := filterEval w |})
  | Shortuuid_New =>
      (hd "" (uuids w),
       {| memos := memos w; relations := relations w; nextID := nextID w;
          clock := clock w; uuids := tl (uuids w); filterEval := filterEval w |})
  end.

#[global] Instance memStore : Store World := memPerform.

(** ** Notions used in the statements *)

(** The tags a memo carries: those of its payload, none without payload. *)
Definition memoTags (m : Memo) : list string :=
  match Payload m with
  | Some payload => Tags payload
  | None => []
  end.

(** The payload has a property and one of its four flags is set. *)
Definition hasShapeFlag (m : Memo) : Prop :=
  exists payload p,
    Payload m = Some payload /\ Property payload = Some p /\
    (HasLink p = true \/ HasTaskList p = true \/ HasCode p = true
     \/ HasIncompleteTasks p = true).


(** The clauses the policy adds to the filter list: none for the anonymous
    caller, whose restriction is the visibility list. *)
Definition policyClauses (userID : Z) : list string :=
  if userID =? 0 then [] else [visibilityClause userID].



(** The memo [handleCreateMemoComment] hands to [CreateMemo]. *)
Definition commentDraft (caller : Z) (content newUID : string) (parent : Memo) : Memo :=
  {| ID := 0; UID := newUID; RowStatus := "";
     CreatorID := caller; CreatedTs := 0; UpdatedTs := 0;
     Content := content; Visibility := Visibility parent;
     Pinned := false; Payload := buildPayload content;
     ParentUID := Some (UID parent) |}.

(** The edge from a comment to its parent. *)
Definition commentRelation (comment parent : Memo) : MemoRelation :=
  {| rel_MemoID := ID comment; rel_RelatedMemoID := ID parent;
     rel_Type := MemoRelationComment |}.

(** The body of a text result. *)
Definition textOf (res : option CallToolResult) : JSON :=
  match res with
  | Some (NewToolResultText body) => body
  | _ => JNull
  end.

(** An identifier is well formed when it is [memo://memos/] followed by a
    non-empty uid. *)
Definition wellFormedURI (uri uid : string) : Prop :=
  uri = "memo://memos/" +:+ uid /\ uid <> "".





(** A string argument counts as supplied when it is there, is a string and
    is not empty. *)
Definition suppliedString (req : CallToolRequest) (key : string) : option string :=
  if String.eqb (GetString req key "") "" then None else Some (GetString req key "").

(** How often [tag] stands in a list of tags. *)
Fixpoint countIn (tag : string) (tags : list string) : Z :=
  match tags with
  | [] => 0
  | t :: rest => (if String.eqb t tag then 1 else 0) + countIn tag rest
  end.

(** How often [tag] stands in the tag lists of the memos: a memo counts once
    for each time its list holds the tag, a memo without payload never. *)
Definition tagOccurrences (tag : string) (memos : list Memo) : Z :=
  countIn tag (memos ≫= memoTags).

(** A table of counters agrees with a list of tags when it holds, for each
    tag, the number of times the tag stands in the list, and no entry for a
    tag that does not. *)
Definition countsAgree (counts : gmap string Z) (tags : list string) : Prop :=
  forall tag,
    counts !! tag = if countIn tag tags =? 0 then None else Some (countIn tag tags).

(** [tagEntryLess] spelled out: a higher count first, then the lower tag. *)
Definition ranksBefore (a b : tagEntry) : Prop :=
  Count a > Count b \/ (Count a = Count b /\ String.ltb (Tag a) (Tag b) = true).

(** A pair of the map, as an entry. *)
Definition toEntry (kv : string * Z) : tagEntry := {| Tag := kv.1; Count := kv.2 |}.

(** ** The tag rule, as the specification words it *)

(** The text before a position ends a word: the position is the start of the
    text, or the character before it is whitespace. *)
Definition atBoundary (prev : option ascii) : bool :=
  match prev with
  | None => true
  | Some w => isSpace w
  end.

(** The tag that starts at the head of [s]: the longest run of characters
    that are neither whitespace nor [#], provided the first is a letter. *)
Definition tagRun (s : string) : option string :=
  match s with
  | String c _ => if isLetter c then Some (spanTag s).1 else None
  | EmptyString => None
  end.

(** The tags of a text by the rule, position after position: a [#] at a
    boundary, followed by a tag, gives that tag. [prev] is the character
    before the text, if any. *)
Fixpoint tagsFrom (prev : option ascii) (s : string) : list string :=
  match s with
  | EmptyString => []
  | String c rest =>
      (if isHash c && atBoundary prev
       then match tagRun rest with
            | Some tag => [tag]
            | None => []
            end
       else [])
      ++ tagsFrom (Some c) rest
  end.

(** The tags of a whole text by the rule. *)
Definition tagsByRule (content : string) : list string := tagsFrom None content.

(** Each string once, at the place of its first occurrence. *)
Fixpoint firstOccurrences (l : list string) : list string :=
  match l with
  | [] => []
  | x :: rest => x :: List.filter (fun y => negb (String.eqb y x)) (firstOccurrences rest)
  end.

(** Every character of [s] satisfies [p]. *)
Fixpoint allChars (p : ascii -> bool) (s : string) : bool :=
  match s with
  | EmptyString => true
  | String c rest => p c && allChars p rest
  end.

(** One or more characters that are neither whitespace nor [#], the first a
    letter. *)
Definition isTag (t : string) : bool :=
  match t with
  | String c rest => isLetter c && allChars isTagChar rest
  | EmptyString => false
  end.

(** The text after a tag does not go on with a tag character. *)
Definition endsTag (post : string) : bool :=
  match post with
  | EmptyString => true
  | String c _ => negb (isTagChar c)
  end.

(** The last character of [pre], or [prev] when [pre] is empty. *)
Fixpoint lastChar (prev : option ascii) (pre : string) : option ascii :=
  match pre with
  | EmptyString => prev
  | String c rest => lastChar (Some c) rest
  end.

(** [tag] stands in [s] behind a [#] that follows the start of the text or
    a whitespace character. *)
Definition tagOccursIn (prev : option ascii) (s tag : string) : Prop :=
  exists pre post,
    s = pre +:+ String "#" (tag +:+ post)
    /\ atBoundary (lastChar prev pre) = true
    /\ isTag tag = true
    /\ endsTag post = true.

(** ** A small store to run the handlers on *)

(** The platform of the examples: on amd64 the conversion of a [float64]
    outside the range of [int] gives the least [int]. *)
#[global] Instance amd64 : Platform := fun _ => minInt.


(** A memo of the sample store; its payload is the one [create_memo] would
    have given it. *)
Definition sampleMemo (id : Z) (uid : string) (creator : Z)
    (visibility content : string) : Memo :=
  {| ID := id; UID := uid; RowStatus := Normal; CreatorID := creator;
     CreatedTs := 1700000000 + id; UpdatedTs := 1700000000 + id;
     Content := content; Visibility := visibility; Pinned := false;
     Payload := buildPayload content; ParentUID := None |}.

(** A store that reads the policy clause of user 7 and takes any other
    filter expression as true. *)
Definition sampleWorld : World :=
  {| memos := [ sampleMemo 1 "a1" 7 Public "first #go";
                sampleMemo 2 "b2" 7 Private "second #go #diary";
                sampleMemo 3 "c3" 8 Protected "third";
                sampleMemo 4 "d4" 8 Public "fourth #diary";
                sampleMemo 5 "e5" 8 Private "fifth";
                sampleMemo 6 "f6" 9 Public "sixth" ];
     relations := [];
     nextID := 7;
     clock := 1700000100;
     uuids := ["u1"; "u2"; "u3"];
     filterEval := fun f m =>
       if String.eqb f (visibilityClause 7)
       then (CreatorID m =? 7) || String.eqb (Visibility m) Public
            || String.eqb (Visibility m) Protected
       else true |}.

(** The string of the given bytes. *)
Definition bytes (l : list Z) : string :=
  foldr (fun n s => String (ascii_of_nat (Z.to_nat n)) s) "" l.



(** A list call with page size 2. *)
Definition twoPerPage : CallToolRequest :=
  {| GetArguments := {[ "page_size" := ANumber (float64OfZ 2) ]} |}.

(** A call that names a memo and says nothing else. *)
Definition onlyName (name : string) : CallToolRequest :=
  {| GetArguments := {[ "name" := AString name ]} |}.

(** A call that names a memo and brings a content. *)
Definition withContent (name content : string) : CallToolRequest :=
  {| GetArguments := {[ "name" := AString name; "content" := AString content ]} |}.

(** A memo whose payload holds [tags]. *)
Definition taggedMemo (tags : list string) : Memo :=
  {| ID := 0; UID := ""; RowStatus := Normal; CreatorID := 1;
     CreatedTs := 0; UpdatedTs := 0; Content := ""; Visibility := Public;
     Pinned := false; Payload := Some {| Tags := tags; Property := None |};
     ParentUID := None |}.

(** A memo without payload. *)
Definition untaggedMemo : Memo :=
  {| ID := 0; UID := ""; RowStatus := Normal; CreatorID := 1;
     CreatedTs := 0; UpdatedTs := 0; Content := ""; Visibility := Public;
     Pinned := false; Payload := None; ParentUID := None |}.

(** Memos for the tag listing. *)
Definition taggedSample : list Memo :=
  [taggedMemo ["work"; "go"]; untaggedMemo; taggedMemo ["go"];
   taggedMemo ["diary"; "go"; "diary"; "zoo"]; taggedMemo ["zoo"]].

(** ** Notions used in the further properties *)

(** The store reads the policy clause of caller [userID] the way CEL does:
    the expression [creator_id == userID || visibility in ["PUBLIC",
    "PROTECTED"]] is true of the rows created by [userID] and of the rows
    whose visibility is one of the two. *)
Definition readsPolicyClause (w : World) (userID : Z) : Prop :=
  forall m,
    filterEval w ("creator_id == " +:+ fmtInt userID +:+ " || visibility in ["
                    +:+ dq +:+ "PUBLIC" +:+ dq +:+ ", " +:+ dq +:+ "PROTECTED" +:+ dq +:+ "]")
               m
    = (CreatorID m =? userID)
      || String.eqb (Visibility m) "PUBLIC" || String.eqb (Visibility m) "PROTECTED".

(** One of the three visibilities. *)
Definition knownVisibility (v : string) : Prop :=
  v = Public \/ v = Protected \/ v = Private.

(** One of the two row states. *)
Definition knownRowStatus (s : string) : Prop :=
  s = Normal \/ s = Archived.

(** The calls that change the store. *)
Definition mutates {X} (c : StoreCall X) : bool :=
  match c with
  | Store_CreateMemo _ | Store_UpdateMemo _ | Store_DeleteMemo _
  | Store_UpsertMemoRelation _ => true
  | _ => false
  end.

Definition eventMutates (e : Event) : bool := mutates (projT2 e).1.

(** The calls made in a run, and its result. *)
Definition callsOf {W A} (run : option A * list Event * W) : list Event := run.1.2.
Definition resultOf {W A} (run : option A * list Event * W) : option A := run.1.1.

(** The visibility and the row status an event writes, if it writes one. *)
Definition writtenVisibility (e : Event) : option string :=
  match (projT2 e).1 with
  | Store_CreateMemo m => Some (Visibility m)
  | Store_UpdateMemo u => upd_Visibility u
  | _ => None
  end.

Definition writtenRowStatus (e : Event) : option string :=
  match (projT2 e).1 with
  | Store_UpdateMemo u => upd_RowStatus u
  | _ => None
  end.

(** An event writes no visibility and no row status outside the
    enumerations. *)
Definition writesKnownValues (e : Event) : Prop :=
  (forall v, writtenVisibility e = Some v -> knownVisibility v)
  /\ (forall s, writtenRowStatus e = Some s -> knownRowStatus s).

(** An update call with a content and a visibility. *)
Definition updateRequest (name content visibility : string) : CallToolRequest :=
  {| GetArguments := {[ "name" := AString name; "content" := AString content;
                        "visibility" := AString visibility ]} |}.

(** The memo [handleCreateMemo] hands to [CreateMemo]. *)
Definition memoDraft (caller : Z) (content uid visibility : string) : Memo :=
  {| ID := 0; UID := uid; RowStatus := ""; CreatorID := caller;
     CreatedTs := 0; UpdatedTs := 0; Content := content;
     Visibility := visibility; Pinned := false;
     Payload := buildPayload content; ParentUID := None |}.

(** A create call with its content alone. *)
Definition createRequest (content : string) : CallToolRequest :=
  {| GetArguments := {[ "content" := AString content ]} |}.

(** A store shared with another session that deletes the memo [memos/a1]
    right after it has been updated: the state tells whether the update
    has happened. *)
Definition racingStore : Store bool :=
  fun X (c : StoreCall X) (updated : bool) =>
    match c in StoreCall T return T * bool with
    | Store_GetMemo _ =>
        (Ok (if updated then None
             else Some (sampleMemo 1 "a1" 7 Public "first #go")), updated)
    | Store_ListMemos _ => (Ok [], updated)
    | Store_CreateMemo m => (Ok m, updated)
    | Store_UpdateMemo _ => (Ok (), true)
    | Store_DeleteMemo _ => (Ok (), updated)
    | Store_ListMemoRelations _ => (Ok [], updated)
    | Store_UpsertMemoRelation r => (Ok r, updated)
    | Shortuuid_New => ("", updated)
    end.

(** The caller may read the memo. *)
Definition readable (caller : Z) (m : Memo) : bool :=
  match checkMemoAccess m caller with
  | Ok _ => true
  | Err _ => false
  end.

(** The query for the comments behind a list of relations. *)
Definition findByIDList (ids : list Z) : FindMemo := {|
  find_ID := None; find_UID := None; find_RowStatus := None;
  find_VisibilityList := []; find_ExcludeContent := false;
  find_ExcludeComments := false; find_Filters := [];
  find_Limit := None; find_Offset := None;
  find_OrderByPinned := false; find_IDList := ids
|}.

(** The query for the comment relations of a memo. *)
Definition findCommentsOf (parent : Memo) : FindMemoRelation :=
  {| findrel_RelatedMemoID := Some (ID parent);
     findrel_Type := Some MemoRelationComment |}.

(** A store that holds memo [memos/c3], one comment on it by user 8 that is
    PRIVATE and one by user 7 that is PROTECTED. *)
Definition commentedStore : Store unit :=
  fun X (c : StoreCall X) (u : unit) =>
    match c in StoreCall T return T * unit with
    | Store_GetMemo _ => (Ok (Some (sampleMemo 3 "c3" 8 Protected "third")), u)
    | Store_ListMemos _ =>
        (Ok [sampleMemo 11 "k1" 8 Private "mine"; sampleMemo 12 "k2" 7 Protected "ours"], u)
    | Store_CreateMemo m => (Ok m, u)
    | Store_UpdateMemo _ => (Ok (), u)
    | Store_DeleteMemo _ => (Ok (), u)
    | Store_ListMemoRelations _ =>
        (Ok [{| rel_MemoID := 11; rel_RelatedMemoID := 3; rel_Type := MemoRelationComment |};
             {| rel_MemoID := 12; rel_RelatedMemoID := 3; rel_Type := MemoRelationComment |}],
         u)
    | Store_UpsertMemoRelation r => (Ok r, u)
    | Shortuuid_New => ("", u)
    end.

(** Tags written the way a memo's content carries them: each behind a [#],
    one space between two of them. *)
Fixpoint renderTags (tags : list string) : string :=
  match tags with
  | [] => ""
  | [t] => "#" +:+ t
  | t :: rest => "#" +:+ t +:+ " " +:+ renderTags rest
  end.

(** The list call [req] with its page argument set to the number [page]. *)
Definition withPage (req : CallToolRequest) (page : float64) : CallToolRequest :=
  {| GetArguments := <["page" := ANumber page]> (GetArguments req) |}.

(** The query [find] moved to another offset. *)
Definition atOffset (find : FindMemo) (offset : Z) : FindMemo :=
  {| find_ID := find_ID find; find_UID := find_UID find;
     find_RowStatus := find_RowStatus find;
     find_VisibilityList := find_VisibilityList find;
     find_ExcludeContent := find_ExcludeContent find;
     find_ExcludeComments := find_ExcludeComments find;
     find_Filters := find_Filters find;
     find_Limit := find_Limit find; find_Offset := Some offset;
     find_OrderByPinned := find_OrderByPinned find;
     find_IDList := find_IDList find |}.

(** The keys of [memoJSON], in the order of its fields. *)
Definition memoKeys : list string :=
  ["name"; "creator"; "create_time"; "update_time"; "content"; "visibility";
   "tags"; "pinned"; "state"; "property"; "parent"].

(** The keys of a serialized object, in the order they are written. *)
Definition keysOf (j : JSON) : list string :=
  match j with
  | JObject fields => fst <$> fields
  | _ => []
  end.

(** The row a call asks the store to change or remove. *)
Definition targetOf (e : Event) : option Z :=
  match (projT2 e).1 with
  | Store_UpdateMemo u => Some (upd_ID u)
  | Store_DeleteMemo d => Some (del_ID d)
  | _ => None
  end.

(** The update an event asks for, if it is one. *)
Definition updateOf (e : Event) : option UpdateMemo :=
  match (projT2 e).1 with
  | Store_UpdateMemo u => Some u
  | _ => None
  end.

(** * Properties *)

(** ** Read access *)

(** C1. The read check [checkMemoAccess] lets caller [c] read memo [m]
    exactly when the memo is PUBLIC, or PROTECTED and the caller is not
    anonymous (identity 0), or PRIVATE and the caller is the creator, or its
    visibility is none of the three known values. *)
Theorem checkMemoAccess_grants_iff (m : Memo) (c : Z) :
  checkMemoAccess m c = Ok () <->
    Visibility m = Public
    \/ (Visibility m = Protected /\ c <> 0)
    \/ (Visibility m = Private /\ c = CreatorID m)
    \/ (Visibility m <> Public /\ Visibility m <> Protected
        /\ Visibility m <> Private).
Proof.
  unfold checkMemoAccess.
  destruct (String.eqb_spec (Visibility m) Protected) as [Hprot|Hprot].
  - rewrite Hprot. destruct (Z.eqb_spec c 0) as [->|Hc]; split.
    + discriminate.
    + intros [H|[[_ H]|[[H _]|(_ & H & _)]]]; try discriminate; congruence.
    + intros _. right; left; auto.
    + reflexivity.
  - destruct (String.eqb_spec (Visibility m) Private) as [Hpriv|Hpriv].
    + rewrite Hpriv.
      destruct (Z.eqb_spec (CreatorID m) c) as [Heq|Hne]; simpl; split.
      * intros _. right; right; left; auto.
      * reflexivity.
      * discriminate.
      * intros [H|[[H _]|[[_ H]|(_ & _ & H)]]]; try discriminate; congruence.
    + split; [|reflexivity]. intros _.
      destruct (String.eqb_spec (Visibility m) Public) as [Hpub|Hpub]; auto.
      right; right; right; auto.
Qed.

(** ** The canonical response shape *)

Lemma fieldOf_app (key : string) (l1 l2 : list (string * JSON)) :
  fieldOf key (l1 ++ l2) =
    match fieldOf key l1 with
    | Some v => Some v
    | None => fieldOf key l2
    end.
Proof.
  induction l1 as [|[k v] l1 IH]; simpl; [reflexivity|].
  destruct (String.eqb k key); auto.
Qed.

Lemma fieldOf_omitEmptyString (key k s : string) :
  fieldOf key (omitEmptyString k s) =
    if String.eqb k key && negb (String.eqb s "")
    then Some (JString (toValidUTF8 s)) else None.
Proof.
  unfold omitEmptyString. destruct (String.eqb s ""); simpl.
  - rewrite andb_false_r. reflexivity.
  - rewrite andb_true_r. reflexivity.
Qed.

(** The tags, the property and the parent that [storeMemoToJSON] puts in
    the response. *)
Lemma storeMemoToJSON_Tags (m : Memo) :
  json_Tags (storeMemoToJSON m) = mkSlice (memoTags m).
Proof.
  unfold storeMemoToJSON, memoTags; simpl.
  destruct (Payload m) as [payload|]; [|reflexivity].
  destruct (Tags payload); reflexivity.
Qed.

Lemma storeMemoToJSON_Property (m : Memo) :
  is_Some (json_Property (storeMemoToJSON m)) <-> hasShapeFlag m.
Proof.
  unfold storeMemoToJSON, hasShapeFlag; simpl.
  destruct (Payload m) as [payload|]; simpl.
  2:{ split; [intros [? [=]]|intros (? & ? & [=] & _)]. }
  destruct (Property payload) as [p|] eqn:Hp; simpl.
  2:{ split; [intros [? [=]]|]. intros (? & ? & [= <-] & Hq & _). congruence. }
  destruct (HasLink p || HasTaskList p || HasCode p || HasIncompleteTasks p) eqn:Hflags.
  - split; [|eauto]. intros _. exists payload, p.
    repeat split; auto.
    repeat (apply orb_prop in Hflags as [Hflags|Hflags]); auto.
  - split; [intros [? [=]]|].
    intros (? & q & [= <-] & Hq & Hany).
    assert (q = p) as -> by congruence.
    repeat (apply orb_false_elim in Hflags as [Hflags ?]).
    destruct Hany as [?|[?|[?|?]]]; congruence.
Qed.

Lemma storeMemoToJSON_Parent (m : Memo) :
  json_Parent (storeMemoToJSON m) =
    match ParentUID m with
    | Some uid => "memos/" +:+ uid
    | None => ""
    end.
Proof. unfold storeMemoToJSON; simpl. destruct (ParentUID m); reflexivity. Qed.

(** An ASCII string is valid UTF-8: it is written as it is. *)
Lemma toValidUTF8_ascii (s : string) :
  allChars (fun c => (nat_of_ascii c <? 128)%nat) s = true -> toValidUTF8 s = s.
Proof.
  induction s as [|c s IH]; [reflexivity|]. cbn [allChars].
  intros [Hc Hs]%andb_true_iff. cbn [toValidUTF8]. rewrite Hc, IH by assumption.
  reflexivity.
Qed.

(** What the encoder does with overlong forms, surrogates, truncated and
    out-of-range encodings, and what it leaves alone. *)
Example toValidUTF8_cases :
  toValidUTF8 (bytes [97; 255; 98]) = bytes [97; 239; 191; 189; 98]
  /\ toValidUTF8 (bytes [192; 128]) = bytes [239; 191; 189; 239; 191; 189]
  /\ toValidUTF8 (bytes [237; 160; 128])
     = bytes [239; 191; 189; 239; 191; 189; 239; 191; 189]
  /\ toValidUTF8 (bytes [226; 130]) = bytes [239; 191; 189; 239; 191; 189]
  /\ toValidUTF8 (bytes [244; 144; 128; 128])
     = bytes [239; 191; 189; 239; 191; 189; 239; 191; 189; 239; 191; 189]
  /\ toValidUTF8 (bytes [195; 169]) = bytes [195; 169]
  /\ toValidUTF8 (bytes [226; 130; 172]) = bytes [226; 130; 172]
  /\ toValidUTF8 (bytes [240; 159; 152; 128]) = bytes [240; 159; 152; 128]
  /\ toValidUTF8 (bytes [239; 191; 189]) = bytes [239; 191; 189].
Proof. repeat split; vm_compute; reflexivity. Qed.

Lemma marshal_valid_strings (l : list string) :
  Forall (fun s => toValidUTF8 s = s) l ->
  (fun s => JString (toValidUTF8 s)) <$> l = JString <$> l.
Proof.
  induction 1 as [|s l Hs _ IH]; [reflexivity|].
  cbn [fmap list_fmap]. rewrite Hs. f_equal. exact IH.
Qed.

(** C10. In the serialized form of any memo: [tags] is always a list, the
    tags of the payload in their order (the empty list without payload or
    tags, never null); [property] is there exactly when the payload's
    property exists with a flag set, and is then the object of the four
    flags; [parent] is there exactly when the memo has a parent reference,
    and is then [memos/] and the parent's uid; [content] is left out exactly
    when the content is the empty string. Strings are written as
    [encoding/json] writes them: as they are where they are valid UTF-8 (the
    tag [caf], C3, A9 below), with U+FFFD for each invalid byte (the tag
    [a], FF below). *)
Theorem storeMemoToJSON_shape (m : Memo) :
  let out := marshalMemo (storeMemoToJSON m) in
  jsonField "tags" out
    = Some (JArray ((fun tag => JString (toValidUTF8 tag)) <$> memoTags m))
  /\ (Forall (fun tag => toValidUTF8 tag = tag) (memoTags m) ->
      jsonField "tags" out = Some (JArray (JString <$> memoTags m)))
  /\ (is_Some (jsonField "property" out) <-> hasShapeFlag m)
  /\ (forall payload p,
        Payload m = Some payload -> Property payload = Some p ->
        HasLink p = true \/ HasTaskList p = true \/ HasCode p = true
        \/ HasIncompleteTasks p = true ->
        jsonField "property" out
          = Some (JObject [("has_link", JBool (HasLink p));
                           ("has_task_list", JBool (HasTaskList p));
                           ("has_code", JBool (HasCode p));
                           ("has_incomplete_tasks", JBool (HasIncompleteTasks p))]))
  /\ (is_Some (jsonField "parent" out) <-> is_Some (ParentUID m))
  /\ (forall uid, ParentUID m = Some uid ->
        jsonField "parent" out = Some (JString (toValidUTF8 ("memos/" +:+ uid))))
  /\ (jsonField "content" out = None <-> Content m = "")
  /\ (Content m <> "" ->
        jsonField "content" out = Some (JString (toValidUTF8 (Content m))))
  /\ jsonField "tags"
       (marshalMemo
          (storeMemoToJSON
             (taggedMemo ["caf" +:+ String (ascii_of_nat 195) (String (ascii_of_nat 169) "");
                          "a" +:+ String (ascii_of_nat 255) ""])))
     = Some (JArray [JString ("caf" +:+ String (ascii_of_nat 195)
                                           (String (ascii_of_nat 169) ""));
                     JString ("a" +:+ String (ascii_of_nat 239)
                                         (String (ascii_of_nat 191)
                                            (String (ascii_of_nat 189) "")))]).
Proof.
  cbn zeta.
  assert (Htagsfield : jsonField "tags" (marshalMemo (storeMemoToJSON m))
            = Some (JArray ((fun tag => JString (toValidUTF8 tag)) <$> memoTags m))).
  { unfold marshalMemo, jsonField.
    rewrite !fieldOf_app, fieldOf_omitEmptyString, storeMemoToJSON_Tags. reflexivity. }
  assert (Hpropfield : jsonField "property" (marshalMemo (storeMemoToJSON m))
            = match json_Property (storeMemoToJSON m) with
              | Some p =>
                  Some (JObject [("has_link", JBool (json_HasLink p));
                                 ("has_task_list", JBool (json_HasTaskList p));
                                 ("has_code", JBool (json_HasCode p));
                                 ("has_incomplete_tasks",
                                  JBool (json_HasIncompleteTasks p))])
              | None => None
              end).
  { unfold marshalMemo, jsonField.
    rewrite !fieldOf_app, !fieldOf_omitEmptyString. cbn [fieldOf String.eqb Ascii.eqb
      Bool.eqb andb].
    destruct (json_Property (storeMemoToJSON m)); reflexivity. }
  assert (Hparentfield : jsonField "parent" (marshalMemo (storeMemoToJSON m))
            = match ParentUID m with
              | Some uid => Some (JString (toValidUTF8 ("memos/" +:+ uid)))
              | None => None
              end).
  { unfold marshalMemo, jsonField.
    rewrite !fieldOf_app, !fieldOf_omitEmptyString, storeMemoToJSON_Parent.
    cbn [fieldOf String.eqb Ascii.eqb Bool.eqb andb].
    destruct (json_Property (storeMemoToJSON m)), (ParentUID m); reflexivity. }
  assert (Hcontentfield : jsonField "content" (marshalMemo (storeMemoToJSON m))
            = if String.eqb (Content m) "" then None
              else Some (JString (toValidUTF8 (Content m)))).
  { unfold marshalMemo, jsonField.
    rewrite !fieldOf_app, !fieldOf_omitEmptyString.
    change (json_Content (storeMemoToJSON m)) with (Content m).
    cbn [fieldOf String.eqb Ascii.eqb Bool.eqb andb].
    destruct (String.eqb (Content m) ""), (json_Property (storeMemoToJSON m));
      reflexivity. }
  split; [exact Htagsfield|]. split.
  { intros Hvalid. rewrite Htagsfield, (marshal_valid_strings _ Hvalid). reflexivity. }
  split.
  { rewrite Hpropfield, <- storeMemoToJSON_Property.
    destruct (json_Property (storeMemoToJSON m)); split; intros [x Hx]; try discriminate;
      eauto. }
  split.
  { intros payload p Hpayload Hp Hflag. rewrite Hpropfield.
    unfold storeMemoToJSON. cbn [json_Property]. rewrite Hpayload, Hp.
    assert (Hany : HasLink p || HasTaskList p || HasCode p || HasIncompleteTasks p = true).
    { destruct Hflag as [Hf|[Hf|[Hf|Hf]]]; rewrite Hf; rewrite ?orb_true_r; reflexivity. }
    rewrite Hany. reflexivity. }
  split.
  { rewrite Hparentfield. destruct (ParentUID m); split; intros [x Hx]; try discriminate;
      eauto. }
  split.
  { intros uid Huid. rewrite Hparentfield, Huid. reflexivity. }
  split.
  { rewrite Hcontentfield.
    destruct (String.eqb_spec (Content m) ""); split; congruence. }
  split.
  { intros Hcontent. rewrite Hcontentfield.
    destruct (String.eqb_spec (Content m) ""); [contradiction|reflexivity]. }
  vm_compute. reflexivity.
Qed.

(** ** The row-level filter of bulk queries *)

Lemma applyVisibilityFilter_fields (find : FindMemo) (userID : Z) :
  let q := applyVisibilityFilter find userID in
  find_VisibilityList q
    = (if userID =? 0 then [Public] else find_VisibilityList find)
  /\ find_Filters q = find_Filters find ++ policyClauses userID
  /\ find_ID q = find_ID find /\ find_UID q = find_UID find
  /\ find_RowStatus q = find_RowStatus find
  /\ find_ExcludeContent q = find_ExcludeContent find
  /\ find_ExcludeComments q = find_ExcludeComments find
  /\ find_Limit q = find_Limit find /\ find_Offset q = find_Offset find
  /\ find_OrderByPinned q = find_OrderByPinned find
  /\ find_IDList q = find_IDList find.
Proof.
  unfold applyVisibilityFilter, policyClauses.
  destruct (userID =? 0); simpl; rewrite ?app_nil_r; repeat split.
Qed.

Lemma rowMatches_filters (w : World) (q : FindMemo) (m : Memo) :
  rowMatches w q m = true ->
  Forall (fun f => filterEval w f m = true) (find_Filters q)
  /\ (find_VisibilityList q = [Public] -> Visibility m = Public).
Proof.
  unfold rowMatches. rewrite !andb_true_iff.
  intros [[[[[[_ _] _] Hvis] _] _] Hall]. split.
  - apply Forall_forall. intros f Hin.
    rewrite forallb_forall in Hall. apply Hall.
    apply list_elem_of_In; assumption.
  - intros Hpub. rewrite Hpub in Hvis. simpl in Hvis.
    rewrite orb_false_r in Hvis. apply String.eqb_eq in Hvis. assumption.
Qed.



(** ** Pagination *)

Lemma wrapInt_id (z : Z) : isInt z -> wrapInt z = z.
Proof.
  unfold isInt, minInt, maxInt, wrapInt. intros Hz.
  rewrite Z.mod_small; lia.
Qed.

Lemma wrapInt_isInt (z : Z) : isInt (wrapInt z).
Proof.
  unfold isInt, minInt, maxInt, wrapInt.
  pose proof (Z.mod_pos_bound (z + 2 ^ 63) (2 ^ 64) ltac:(lia)). lia.
Qed.

(** The conversion drops the fraction, towards zero, whatever the platform;
    the numbers of the examples are [float64] values. *)
Example float64ToInt_cases `{Platform} :
  float64ToInt (float64OfZ 3) = 3
  /\ float64ToInt (float64OfZ (- 3)) = - 3
  /\ float64ToInt (S754_finite false 5629499534213120 (-51)) = 2
  /\ float64ToInt (S754_finite true 5629499534213120 (-51)) = - 2
  /\ float64ToInt (S754_zero true) = 0
  /\ float64ToInt (float64OfZ (2 ^ 53 + 1)) = 2 ^ 53
  /\ valid_binary 53 1024 (float64OfZ 3) = true
  /\ valid_binary 53 1024 (S754_finite false 5629499534213120 (-51)) = true
  /\ valid_binary 53 1024 (float64OfZ (2 ^ 61)) = true.
Proof. repeat split; vm_compute; reflexivity. Qed.

Lemma listPageSize_cases `{Platform} (req : CallToolRequest) :
  let requested := GetInt req "page_size" 20 in
  1 <= listPageSize req <= 100
  /\ (requested <= 0 -> listPageSize req = 20)
  /\ (1 <= requested <= 100 -> listPageSize req = requested)
  /\ (100 < requested -> listPageSize req = 100).
Proof.
  unfold listPageSize. cbn zeta.
  destruct (Z.leb_spec (GetInt req "page_size" 20) 0);
    [|destruct (Z.ltb_spec 100 (GetInt req "page_size" 20))].
  all: repeat match goal with
         | |- context [?a >? ?b] => rewrite (Z.gtb_ltb a b)
         | |- context [?a <? ?b] => destruct (Z.ltb_spec a b)
         end; lia.
Qed.







(** ** Ownership *)

(** An anonymous caller of update or delete is turned away as
    unauthenticated, which is not the access-denied answer: here on memo
    [memos/a1] of user 7. *)
Lemma anonymous_update_is_unauthenticated :
  (perform (Store_GetMemo (findByUID "a1")) sampleWorld).1
    = Ok (Some (sampleMemo 1 "a1" 7 Public "first #go"))
  /\ CreatorID (sampleMemo 1 "a1" 7 Public "first #go") <> 0
  /\ (exec (handleUpdateMemo 0 (onlyName "memos/a1")) sampleWorld).1.1
     = Some (NewToolResultError Unauthenticated)
  /\ (exec (handleDeleteMemo 0 (onlyName "memos/a1")) sampleWorld).1.1
     = Some (NewToolResultError Unauthenticated)
  /\ (exec (handleUpdateMemo 0 (onlyName "memos/a1")) sampleWorld).1.1
     <> Some (NewToolResultError PermissionDenied).
Proof.
  repeat split; try reflexivity; vm_compute; discriminate.
Qed.

(** C3 (amended). An update or delete call by an authenticated caller who is
    not the creator of the target memo ends in the access-denied error,
    whatever the memo's visibility and whoever the caller: the only thing
    asked of the store is the lookup of the memo, so nothing is changed. An
    anonymous caller is turned away before that, as unauthenticated, without
    any call to the store. *)
Theorem update_delete_owner_only {W} `{Store W}
    (caller : Z) (req : CallToolRequest) (uid : string) (memo : Memo) (w w' : W) :
  parseMemoUID (GetString req "name" "") = Ok uid ->
  perform (Store_GetMemo (findByUID uid)) w = (Ok (Some memo), w') ->
  CreatorID memo <> caller ->
  (caller <> 0 ->
     exec (handleUpdateMemo caller req) w
       = (Some (NewToolResultError PermissionDenied),
          [event (Store_GetMemo (findByUID uid)) (Ok (Some memo))], w')
     /\ exec (handleDeleteMemo caller req) w
       = (Some (NewToolResultError PermissionDenied),
          [event (Store_GetMemo (findByUID uid)) (Ok (Some memo))], w'))
  /\ (caller = 0 ->
     exec (handleUpdateMemo caller req) w
       = (Some (NewToolResultError Unauthenticated), [], w)
     /\ exec (handleDeleteMemo caller req) w
       = (Some (NewToolResultError Unauthenticated), [], w)).
Proof.
  intros Hname Hget Hother. split.
  - intros Hauth. unfold handleUpdateMemo, handleDeleteMemo, extractUserID.
    apply Z.eqb_neq in Hauth, Hother. rewrite Hauth, Hname. simpl.
    rewrite Hget, Hother. simpl. split; reflexivity.
  - intros ->. split; reflexivity.
Qed.

Lemma update_delete_owner_only_witness :
  exec (handleUpdateMemo 8 (onlyName "memos/b2")) sampleWorld
    = (Some (NewToolResultError PermissionDenied),
       [event (Store_GetMemo (findByUID "b2"))
              (Ok (Some (sampleMemo 2 "b2" 7 Private "second #go #diary")))],
       sampleWorld)
  /\ exec (handleDeleteMemo 8 (onlyName "memos/b2")) sampleWorld
    = (Some (NewToolResultError PermissionDenied),
       [event (Store_GetMemo (findByUID "b2"))
              (Ok (Some (sampleMemo 2 "b2" 7 Private "second #go #diary")))],
       sampleWorld).
Proof.
  refine (proj1 (update_delete_owner_only 8 (onlyName "memos/b2") "b2"
                   (sampleMemo 2 "b2" 7 Private "second #go #diary")
                   sampleWorld sampleWorld eq_refl eq_refl _) _);
    vm_compute; discriminate.
Defined.

(** ** Comments *)

Lemma checkMemoAccess_error (m : Memo) (c : Z) (e : MCPError) :
  checkMemoAccess m c = Err e -> e = PermissionDenied.
Proof.
  unfold checkMemoAccess.
  repeat match goal with |- context [if ?b then _ else _] => destruct b end;
    congruence.
Qed.

(** C4. A create-comment call that succeeds has looked the parent up, found
    it readable by the caller, drawn a fresh uid, created one memo whose
    visibility is the parent's, whose creator is the caller and whose parent
    reference is the parent's uid, and then, once, the COMMENT relation
    from that memo to the parent; the content was not empty. A call with
    empty content, a parent that is not found or a parent the caller may
    not read ends in an error result. *)
Theorem createMemoComment_contract {W} `{Store W}
    (caller : Z) (req : CallToolRequest) (w w' : W)
    (res : option CallToolResult) (evs : list Event) :
  exec (handleCreateMemoComment caller req) w = (res, evs, w') ->
  let content := GetString req "content" "" in
  (forall body, res = Some (NewToolResultText body) ->
     exists uid parent newUID comment rel,
       caller <> 0
       /\ parseMemoUID (GetString req "name" "") = Ok uid
       /\ content <> ""
       /\ checkMemoAccess parent caller = Ok ()
       /\ evs = [event (Store_GetMemo (findByUID uid)) (Ok (Some parent));
                 event Shortuuid_New newUID;
                 event (Store_CreateMemo (commentDraft caller content newUID parent))
                       (Ok comment);
                 event (Store_UpsertMemoRelation (commentRelation comment parent))
                       (Ok rel)]
       /\ body = marshalMemo (storeMemoToJSON comment))
  /\ (content = "" -> exists e, res = Some (NewToolResultError e))
  /\ (forall uid w1,
        parseMemoUID (GetString req "name" "") = Ok uid ->
        perform (Store_GetMemo (findByUID uid)) w = (Ok None, w1) ->
        exists e, res = Some (NewToolResultError e))
  /\ (forall uid parent w1,
        parseMemoUID (GetString req "name" "") = Ok uid ->
        perform (Store_GetMemo (findByUID uid)) w = (Ok (Some parent), w1) ->
        checkMemoAccess parent caller <> Ok () ->
        exists e, res = Some (NewToolResultError e)).
Proof.
  intros Hexec content.
  match goal with
  | |- ?G => assert (Hfail : forall e, res = Some (NewToolResultError e) -> G)
  end.
  { intros e ->. split; [intros body [=]|]. repeat split; eauto. }
  unfold handleCreateMemoComment, extractUserID in Hexec.
  fold content in Hexec.
  destruct (Z.eqb_spec caller 0) as [Hanon|Hauth].
  { simpl in Hexec. injection Hexec as <- <- <-. eapply Hfail; reflexivity. }
  destruct (parseMemoUID (GetString req "name" "")) as [uid|e] eqn:Hname.
  2:{ simpl in Hexec. injection Hexec as <- <- <-. eapply Hfail; reflexivity. }
  destruct (String.eqb_spec content "") as [Hempty|Hcontent].
  { simpl in Hexec. injection Hexec as <- <- <-. eapply Hfail; reflexivity. }
  simpl in Hexec.
  destruct (perform (Store_GetMemo (findByUID uid)) w) as [got w1] eqn:Hget.
  destruct got as [[parent|]|err];
    [|simpl in Hexec; injection Hexec as <- <- <-; eapply Hfail; reflexivity ..].
  destruct (checkMemoAccess parent caller) as [[]|e] eqn:Haccess;
    [|simpl in Hexec; injection Hexec as <- <- <-; eapply Hfail; reflexivity].
  simpl in Hexec.
  destruct (perform Shortuuid_New w1) as [newUID w2] eqn:Hnew.
  destruct (perform (Store_CreateMemo _) w2) as [[comment|err] w3] eqn:Hcreate;
    [|simpl in Hexec; injection Hexec as <- <- <-; eapply Hfail; reflexivity].
  simpl in Hexec.
  destruct (perform (Store_UpsertMemoRelation _) w3) as [[rel|err] w4] eqn:Hlink;
    [|simpl in Hexec; injection Hexec as <- <- <-; eapply Hfail; reflexivity].
  simpl in Hexec. injection Hexec as <- <- <-. clear Hfail.
  split; [|split; [|split]].
  - intros body [= <-]. exists uid, parent, newUID, comment, rel.
    repeat split; auto.
  - intros Hempty. destruct (Hcontent Hempty).
  - intros uid' w1' [= <-] Hnone. rewrite Hget in Hnone. discriminate.
  - intros uid' parent' w1' [= <-] Hsome Hno.
    rewrite Hget in Hsome. injection Hsome as <- <-. contradiction.
Qed.

Lemma createMemoComment_contract_witness :
  let req := withContent "memos/c3" "nice #idea" in
  let run := exec (handleCreateMemoComment 7 req) sampleWorld in
  exists uid parent newUID comment rel,
    7 <> 0
    /\ parseMemoUID (GetString req "name" "") = Ok uid
    /\ GetString req "content" "" <> ""
    /\ checkMemoAccess parent 7 = Ok ()
    /\ run.1.2
       = [event (Store_GetMemo (findByUID uid)) (Ok (Some parent));
          event Shortuuid_New newUID;
          event (Store_CreateMemo
                   (commentDraft 7 (GetString req "content" "") newUID parent))
                (Ok comment);
          event (Store_UpsertMemoRelation (commentRelation comment parent)) (Ok rel)]
    /\ textOf run.1.1 = marshalMemo (storeMemoToJSON comment).
Proof.
  intros req run.
  assert (Hrun : run = (run.1.1, run.1.2, run.2)) by (vm_compute; reflexivity).
  pose proof (createMemoComment_contract 7 req sampleWorld run.2 run.1.1 run.1.2 Hrun)
    as [Hok _].
  exact (Hok (textOf run.1.1) ltac:(vm_compute; reflexivity)).
Defined.

(** On the sample store: user 7 comments on the PROTECTED memo of user 8.
    The comment is PROTECTED, is user 7's, points to its parent, and one
    relation links the two. *)
Example createMemoComment_sample :
  let run := exec (handleCreateMemoComment 7 (withContent "memos/c3" "nice #idea"))
               sampleWorld in
  let comment :=
    {| ID := 7; UID := "u1"; RowStatus := Normal; CreatorID := 7;
       CreatedTs := 1700000100; UpdatedTs := 1700000100;
       Content := "nice #idea"; Visibility := Protected; Pinned := false;
       Payload := Some {| Tags := ["idea"]; Property := None |};
       ParentUID := Some "c3" |} in
  run.1.1 = Some (NewToolResultText (marshalMemo (storeMemoToJSON comment)))
  /\ memos run.2 = memos sampleWorld ++ [comment]
  /\ relations run.2
     = [{| rel_MemoID := 7; rel_RelatedMemoID := 3; rel_Type := MemoRelationComment |}].
Proof. vm_compute. repeat split. Qed.

(** ** The memo resource *)

Lemma append_nil_l (s : string) : "" +:+ s = s.
Proof. reflexivity. Qed.

Lemma append_cons (c : ascii) (a b : string) : String c a +:+ b = String c (a +:+ b).
Proof. reflexivity. Qed.


Lemma append_empty_r (a : string) : a +:+ "" = a.
Proof.
  induction a as [|x a IH]; [reflexivity|].
  rewrite append_cons, IH. reflexivity.
Qed.

Lemma append_length (a b : string) :
  String.length (a +:+ b) = (String.length a + String.length b)%nat.
Proof.
  induction a as [|x a IH]; [reflexivity|].
  rewrite append_cons. simpl. rewrite IH. reflexivity.
Qed.

Lemma stringsCutPrefix_spec (s prefix rest : string) :
  stringsCutPrefix s prefix = Some rest <-> s = prefix +:+ rest.
Proof.
  revert s. induction prefix as [|p prefix IH]; intros s; simpl.
  - rewrite append_nil_l. split; intros; congruence.
  - rewrite append_cons. destruct s as [|c s]; [split; discriminate|].
    destruct (Ascii.eqb_spec c p) as [->|Hne].
    + rewrite IH. split; intros; congruence.
    + split; [discriminate|]. intros [= ? _]. contradiction.
Qed.

Lemma resource_uri_parse (uri : string) :
  let uid := stringsTrimPrefix uri "memo://memos/" in
  if String.eqb uid uri || String.eqb uid ""
  then forall u, ~ wellFormedURI uri u
  else wellFormedURI uri uid.
Proof.
  cbn zeta. unfold stringsTrimPrefix, wellFormedURI.
  destruct (stringsCutPrefix uri "memo://memos/") as [rest|] eqn:Hcut.
  - apply stringsCutPrefix_spec in Hcut.
    destruct (String.eqb_spec rest uri) as [Hsame|_].
    + exfalso. apply (f_equal String.length) in Hcut.
      rewrite append_length, Hsame in Hcut. simpl in Hcut. lia.
    + destruct (String.eqb_spec rest "") as [->|Hne]; simpl.
      * intros u [Hu Hnon]. rewrite Hcut in Hu.
        apply stringsCutPrefix_spec in Hu. cbv in Hu. congruence.
      * auto.
  - rewrite String.eqb_refl. simpl.
    intros u [Hu _]. apply stringsCutPrefix_spec in Hu. congruence.
Qed.



Lemma wellFormedURI_trim (uri uid : string) :
  wellFormedURI uri uid ->
  stringsTrimPrefix uri "memo://memos/" = uid
  /\ String.eqb uid uri || String.eqb uid "" = false.
Proof.
  intros Hwf. pose proof (resource_uri_parse uri) as Hparse. cbn zeta in Hparse.
  assert (stringsTrimPrefix uri "memo://memos/" = uid) as Htrim.
  { destruct Hwf as [Huri _]. apply stringsCutPrefix_spec in Huri.
    unfold stringsTrimPrefix. rewrite Huri. reflexivity. }
  rewrite Htrim in Hparse. split; [assumption|].
  destruct (String.eqb uid uri || String.eqb uid ""); [|reflexivity].
  destruct (Hparse uid Hwf).
Qed.



(** ** Partial update *)

Lemma parseVisibility_ok (s v : string) : parseVisibility s = Ok v -> v = s.
Proof. unfold parseVisibility. destruct (_ || _); congruence. Qed.

Lemma parseRowStatus_ok (s v : string) : parseRowStatus s = Ok v -> v = s.
Proof. unfold parseRowStatus. destruct (_ || _); congruence. Qed.

(** What [handleUpdateMemo] asks the store to change: content, visibility
    and state exactly when supplied as non-empty strings, the pinned flag
    exactly when the key is among the arguments, and the payload built from
    the new content when content is supplied. *)
Lemma buildUpdate_fields (memo : Memo) (req : CallToolRequest) (u : UpdateMemo) :
  buildUpdate memo req = Ok u ->
  upd_ID u = ID memo
  /\ upd_Content u = suppliedString req "content"
  /\ upd_Visibility u = suppliedString req "visibility"
  /\ upd_RowStatus u = suppliedString req "state"
  /\ upd_Pinned u
     = (match GetArguments req !! "pinned" with
        | Some _ => Some (GetBool req "pinned" false)
        | None => None
        end)
  /\ upd_Payload u
     = (match suppliedString req "content" with
        | Some content => buildPayload content
        | None => None
        end).
Proof.
  unfold buildUpdate, suppliedString. cbn zeta.
  destruct (String.eqb (GetString req "content" "") ""); simpl;
    (destruct (String.eqb (GetString req "visibility" "") ""); simpl;
     [|destruct (parseVisibility _) as [vis|e] eqn:Hvis; [|discriminate];
       apply parseVisibility_ok in Hvis as ->]);
    (destruct (String.eqb (GetString req "state" "") ""); simpl;
     [|destruct (parseRowStatus _) as [rs|e] eqn:Hrs; [|discriminate];
       apply parseRowStatus_ok in Hrs as ->]);
    intros [= <-]; simpl; repeat split.
Qed.

(** New content without tags changes the content and sends no payload. *)
Lemma buildUpdate_untagged_content
    (memo : Memo) (req : CallToolRequest) (u : UpdateMemo) (content : string) :
  buildUpdate memo req = Ok u ->
  suppliedString req "content" = Some content ->
  extractTags content = [] ->
  upd_Content u = Some content /\ upd_Payload u = None.
Proof.
  intros Hu Hcontent Hnone.
  destruct (buildUpdate_fields memo req u Hu) as (_ & Hc & _ & _ & _ & Hp).
  rewrite Hc, Hp, Hcontent. split; [reflexivity|].
  unfold buildPayload. rewrite Hnone. reflexivity.
Qed.

(** A row that is given nothing to change stays as it is. *)
Lemma applyUpdate_nothing (id : Z) (m : Memo) :
  applyUpdate {| upd_ID := id; upd_RowStatus := None; upd_Content := None;
                 upd_Visibility := None; upd_Pinned := None;
                 upd_Payload := None |} m = m.
Proof. unfold applyUpdate. simpl. destruct (ID m =? id), m; reflexivity. Qed.

(** With no argument but the name, the update asks for no change. *)
Lemma buildUpdate_no_arguments (memo : Memo) (name : string) :
  buildUpdate memo {| GetArguments := {[ "name" := AString name ]} |}
    = Ok {| upd_ID := ID memo; upd_RowStatus := None; upd_Content := None;
            upd_Visibility := None; upd_Pinned := None; upd_Payload := None |}.
Proof. reflexivity. Qed.

(** C7, where the code departs from it. User 7 rewrites the memo [memos/a1],
    whose content [first #go] gave it the tag [go], to a text without tags.
    The tags derived from the new content are none, but the update carries
    no payload ([buildPayload] gives nil for an empty tag list, which
    [UpdateMemo] reads as "leave the payload alone"), so the memo keeps the
    tag [go] next to its new content. *)
Theorem update_to_untagged_content_keeps_tags :
  let req := withContent "memos/a1" "no tags now" in
  let before := sampleMemo 1 "a1" 7 Public "first #go" in
  let run := exec (handleUpdateMemo 7 req) sampleWorld in
  memoTags before = ["go"]
  /\ extractTags "no tags now" = []
  /\ buildUpdate before req
     = Ok {| upd_ID := 1; upd_RowStatus := None;
             upd_Content := Some "no tags now"; upd_Visibility := None;
             upd_Pinned := None; upd_Payload := None |}
  /\ (exists after,
        head (memos run.2) = Some after
        /\ Content after = "no tags now"
        /\ memoTags after = ["go"]
        /\ memoTags after <> extractTags (Content after)
        /\ run.1.1 = Some (NewToolResultText (marshalMemo (storeMemoToJSON after)))
        /\ jsonField "tags" (textOf run.1.1) = Some (JArray [JString "go"])).
Proof.
  cbn zeta. split; [reflexivity|]. split; [reflexivity|]. split; [reflexivity|].
  eexists. split; [vm_compute; reflexivity|].
  repeat split; try reflexivity.
  vm_compute. discriminate.
Qed.

(** ** Tag counts *)

Lemma countIn_nonneg (tag : string) (tags : list string) : 0 <= countIn tag tags.
Proof. induction tags as [|t tags IH]; simpl; [lia|]. destruct (String.eqb t tag); lia. Qed.

Lemma countIn_app (tag : string) (l1 l2 : list string) :
  countIn tag (l1 ++ l2) = countIn tag l1 + countIn tag l2.
Proof. induction l1 as [|t l1 IH]; simpl; [reflexivity|]. rewrite IH. lia. Qed.

Lemma countTag_agrees (counts : gmap string Z) (seen : list string) (tag : string) :
  countsAgree counts seen -> countsAgree (countTag counts tag) (seen ++ [tag]).
Proof.
  intros Hagree t. unfold countTag. rewrite countIn_app. cbn [countIn].
  pose proof (countIn_nonneg t seen) as Hnn.
  destruct (String.eqb_spec tag t) as [->|Hne].
  - rewrite lookup_insert_eq, (Hagree t).
    destruct (Z.eqb_spec (countIn t seen + (1 + 0)) 0) as [Hz|_]; [lia|].
    destruct (Z.eqb_spec (countIn t seen) 0) as [->|Hpos]; cbn [default];
      f_equal; lia.
  - rewrite lookup_insert_ne by assumption. rewrite (Hagree t).
    replace (countIn t seen + (0 + 0)) with (countIn t seen) by lia. reflexivity.
Qed.

Lemma fold_countTag_agrees (tags : list string) (counts : gmap string Z)
    (seen : list string) :
  countsAgree counts seen ->
  countsAgree (fold_left countTag tags counts) (seen ++ tags).
Proof.
  revert counts seen. induction tags as [|t tags IH]; intros counts seen Hagree; simpl.
  - rewrite app_nil_r. assumption.
  - replace (seen ++ t :: tags) with ((seen ++ [t]) ++ tags)
      by (rewrite <- app_assoc; reflexivity).
    apply IH, countTag_agrees, Hagree.
Qed.

Lemma countMemoTags_agrees (counts : gmap string Z) (seen : list string) (m : Memo) :
  countsAgree counts seen ->
  countsAgree (countMemoTags counts m) (seen ++ memoTags m).
Proof.
  intros Hagree. unfold countMemoTags, memoTags.
  destruct (Payload m) as [payload|].
  - apply fold_countTag_agrees, Hagree.
  - rewrite app_nil_r. assumption.
Qed.

Lemma tagCounts_agree (memos : list Memo) :
  countsAgree (tagCounts memos) (memos ≫= memoTags).
Proof.
  unfold tagCounts.
  assert (Hgen : forall counts seen,
            countsAgree counts seen ->
            countsAgree (fold_left countMemoTags memos counts)
                        (seen ++ (memos ≫= memoTags))).
  { induction memos as [|m memos IH]; intros counts seen Hagree; simpl.
    - rewrite app_nil_r. assumption.
    - rewrite app_assoc. apply IH, countMemoTags_agrees, Hagree. }
  apply (Hgen ∅ []). intros tag. simpl. apply lookup_empty.
Qed.

(** *** The order of [sort.Slice] *)

Lemma ascii_compare_refl (c : ascii) : Ascii.compare c c = Eq.
Proof. unfold Ascii.compare. apply N.compare_refl. Qed.

Lemma string_compare_refl (s : string) : String.compare s s = Eq.
Proof.
  induction s as [|c s IH]; simpl; [reflexivity|].
  rewrite ascii_compare_refl. assumption.
Qed.

Lemma string_compare_trans (a b c : string) :
  String.compare a b = Lt -> String.compare b c = Lt -> String.compare a c = Lt.
Proof.
  revert b c. induction a as [|x a IH]; intros [|y b] [|z c]; simpl;
    try discriminate; auto.
  unfold Ascii.compare.
  destruct (N.compare_spec (N_of_ascii x) (N_of_ascii y)) as [Hxy|Hxy|Hxy];
    try discriminate;
    destruct (N.compare_spec (N_of_ascii y) (N_of_ascii z)) as [Hyz|Hyz|Hyz];
    try discriminate; intros Hab Hbc.
  - rewrite Hxy, Hyz, N.compare_refl. eauto.
  - rewrite Hxy. apply N.compare_lt_iff in Hyz. rewrite Hyz. reflexivity.
  - rewrite <- Hyz. apply N.compare_lt_iff in Hxy. rewrite Hxy. reflexivity.
  - assert (N_of_ascii x < N_of_ascii z)%N as Hxz by lia.
    apply N.compare_lt_iff in Hxz. rewrite Hxz. reflexivity.
Qed.

Lemma string_ltb_irrefl (s : string) : String.ltb s s = false.
Proof. unfold String.ltb. rewrite string_compare_refl. reflexivity. Qed.

Lemma string_ltb_trans (a b c : string) :
  String.ltb a b = true -> String.ltb b c = true -> String.ltb a c = true.
Proof.
  unfold String.ltb. intros Hab Hbc.
  destruct (String.compare a b) eqn:Hc1; try discriminate.
  destruct (String.compare b c) eqn:Hc2; try discriminate.
  rewrite (string_compare_trans a b c Hc1 Hc2). reflexivity.
Qed.

Lemma string_ltb_total (a b : string) :
  String.ltb a b = true \/ a = b \/ String.ltb b a = true.
Proof.
  unfold String.ltb. rewrite (String.compare_antisym b a).
  destruct (String.compare a b) eqn:Hc; simpl; auto.
  apply String.compare_eq_iff in Hc. auto.
Qed.

Lemma tagEntryLess_spec (a b : tagEntry) :
  tagEntryLess a b = true <-> ranksBefore a b.
Proof.
  unfold tagEntryLess, ranksBefore.
  destruct (Z.eqb_spec (Count a) (Count b)) as [Heq|Hne]; simpl.
  - split; [auto|]. intros [Hgt|[_ Hlt]]; [lia|assumption].
  - rewrite Z.gtb_ltb, Z.ltb_lt. split; [intros; left; lia|].
    intros [Hgt|[Heq _]]; lia.
Qed.

Lemma ranksBefore_trans (a b c : tagEntry) :
  ranksBefore a b -> ranksBefore b c -> ranksBefore a c.
Proof.
  unfold ranksBefore. intros [Hab|[Hab Htab]] [Hbc|[Hbc Htbc]]; try (left; lia).
  right. split; [lia|]. eapply string_ltb_trans; eassumption.
Qed.

Lemma ranksBefore_total (a b : tagEntry) :
  ranksBefore a b \/ a = b \/ ranksBefore b a.
Proof.
  unfold ranksBefore. destruct a as [ta ca], b as [tb cb]; simpl.
  destruct (Z.lt_trichotomy ca cb) as [Hlt|[->|Hgt]].
  - right; right; left; lia.
  - destruct (string_ltb_total ta tb) as [Hlt|[->|Hgt]]; auto.
  - left; left; lia.
Qed.

Lemma ranksBefore_irrefl (a : tagEntry) : ~ ranksBefore a a.
Proof.
  unfold ranksBefore. intros [Hgt|[_ Hlt]]; [lia|].
  rewrite string_ltb_irrefl in Hlt. discriminate.
Qed.

Lemma tagEntryBefore_spec (a b : tagEntry) :
  tagEntryBefore a b <-> a = b \/ ranksBefore a b.
Proof.
  unfold tagEntryBefore. rewrite <- not_true_iff_false, tagEntryLess_spec.
  split.
  - intros Hnot. destruct (ranksBefore_total a b) as [?|[?|?]]; auto. contradiction.
  - intros [->|Hab] Hba; [exact (ranksBefore_irrefl _ Hba)|].
    exact (ranksBefore_irrefl _ (ranksBefore_trans _ _ _ Hab Hba)).
Qed.

#[global] Instance tagEntryBefore_total : Total tagEntryBefore.
Proof.
  intros a b. rewrite !tagEntryBefore_spec.
  destruct (ranksBefore_total a b) as [?|[?|?]]; auto.
Qed.

#[global] Instance tagEntryBefore_trans : Transitive tagEntryBefore.
Proof.
  intros a b c. rewrite !tagEntryBefore_spec.
  intros [->|Hab] [->|Hbc]; auto. right. eapply ranksBefore_trans; eassumption.
Qed.

#[global] Instance tagEntryBefore_antisym : AntiSymm (=) tagEntryBefore.
Proof.
  intros a b. rewrite !tagEntryBefore_spec.
  intros [->|Hab] [Heq|Hba]; auto.
  destruct (ranksBefore_irrefl _ (ranksBefore_trans _ _ _ Hab Hba)).
Qed.

(** *** The listed entries *)

Lemma tagEntries_Permutation (counts : gmap string Z) :
  tagEntries counts ≡ₚ toEntry <$> map_to_list counts.
Proof. unfold tagEntries. apply merge_sort_Permutation. Qed.

Lemma tagEntries_elem_of (counts : gmap string Z) (e : tagEntry) :
  e ∈ tagEntries counts <-> counts !! Tag e = Some (Count e).
Proof.
  rewrite tagEntries_Permutation, list_elem_of_fmap. split.
  - intros [[tag n] [-> Hin]]. apply elem_of_map_to_list in Hin. assumption.
  - intros Hlook. exists (Tag e, Count e). split; [destruct e; reflexivity|].
    apply elem_of_map_to_list. assumption.
Qed.

Lemma tagEntries_NoDup (counts : gmap string Z) :
  NoDup (Tag <$> tagEntries counts).
Proof.
  rewrite tagEntries_Permutation, <- list_fmap_compose.
  apply (NoDup_fst_map_to_list counts).
Qed.

Lemma tagEntries_Sorted (counts : gmap string Z) :
  StronglySorted tagEntryBefore (tagEntries counts).
Proof. unfold tagEntries. apply StronglySorted_merge_sort; apply _. Qed.

Lemma StronglySorted_lookup_lt {A} (R : relation A) (l : list A) (i j : nat) (a b : A) :
  StronglySorted R l -> (i < j)%nat -> l !! i = Some a -> l !! j = Some b -> R a b.
Proof.
  intros Hsorted. revert i j.
  induction Hsorted as [|x l Hsorted IH Hall]; intros i j Hij Hi Hj.
  - discriminate.
  - destruct j as [|j]; [lia|]. destruct i as [|i]; simpl in *.
    + injection Hi as <-. rewrite Forall_forall in Hall. apply Hall.
      eapply list_elem_of_lookup_2; eassumption.
    + apply (IH i j); [lia|assumption..].
Qed.

(** C9. The answer of list-tags is the list of the objects with the two
    fields [tag] and [count], one for each entry, in the order of the
    entries. The entries are ordered by count, highest first, and among
    equal counts by tag, lowest first; every order of the same entries that
    is sorted by the [less] of the source is this one. A tag has an entry
    exactly when it stands in the tag list of some listed memo, once, and its
    count is the number of times it stands in those lists; memos without
    payload add nothing. *)
Theorem listTags_sorted_counts {W} `{Store W}
    (userID : Z) (req : CallToolRequest) (memos : list Memo) (w w' : W) :
  perform (Store_ListMemos (tagsFind userID)) w = (Ok memos, w') ->
  exists entries : list tagEntry,
    exec (handleListTags userID req) w
      = (Some (NewToolResultText
                 (JArray ((fun e => JObject [("tag", JString (toValidUTF8 (Tag e)));
                                             ("count", JNumber (Count e))])
                            <$> entries))),
         [event (Store_ListMemos (tagsFind userID)) (Ok memos)], w')
    /\ (forall e, e ∈ entries <->
           0 < Count e /\ Count e = tagOccurrences (Tag e) memos)
    /\ NoDup (Tag <$> entries)
    /\ (forall i j a b,
          (i < j)%nat -> entries !! i = Some a -> entries !! j = Some b ->
          Count a > Count b
          \/ (Count a = Count b /\ String.ltb (Tag a) (Tag b) = true))
    /\ (forall l, l ≡ₚ entries -> Sorted tagEntryBefore l -> l = entries)
    /\ (forall m tag, Payload m = None ->
          tagOccurrences tag (m :: memos) = tagOccurrences tag memos
          /\ tagEntries (tagCounts (m :: memos)) = entries
          /\ tagEntries (tagCounts (memos ++ [m])) = entries).
Proof.
  intros Hlist. exists (tagEntries (tagCounts memos)).
  split; [|split; [|split; [|split; [|split]]]].
  - unfold handleListTags. cbn [exec]. rewrite Hlist. reflexivity.
  - intros e. rewrite tagEntries_elem_of, (tagCounts_agree memos (Tag e)).
    unfold tagOccurrences.
    pose proof (countIn_nonneg (Tag e) (memos ≫= memoTags)) as Hnn.
    destruct (Z.eqb_spec (countIn (Tag e) (memos ≫= memoTags)) 0) as [Hz|Hnz].
    + split; [discriminate|]. intros [Hpos Heq]. lia.
    + split.
      * intros [= Heq]. lia.
      * intros [_ ->]. reflexivity.
  - apply tagEntries_NoDup.
  - intros i j a b Hij Hi Hj.
    pose proof (StronglySorted_lookup_lt _ _ i j a b
                  (tagEntries_Sorted (tagCounts memos)) Hij Hi Hj) as Hbefore.
    apply tagEntryBefore_spec in Hbefore as [Heq|Hrank]; [|exact Hrank].
    exfalso. subst b.
    pose proof (tagEntries_NoDup (tagCounts memos)) as Hnodup.
    assert (i = j); [|lia].
    eapply (NoDup_lookup _ i j (Tag a) Hnodup);
      rewrite list_lookup_fmap; [rewrite Hi|rewrite Hj]; reflexivity.
  - intros l Hperm Hsorted.
    apply (Sorted_unique tagEntryBefore); [assumption| |assumption].
    unfold tagEntries. apply Sorted_merge_sort. apply _.
  - intros m tag Hnone. split; [|split].
    + unfold tagOccurrences, memoTags at 1. rewrite bind_cons.
      unfold memoTags at 1. rewrite Hnone. reflexivity.
    + unfold tagCounts. simpl. unfold countMemoTags at 2. rewrite Hnone. reflexivity.
    + unfold tagCounts. rewrite fold_left_app. simpl.
      unfold countMemoTags at 1. rewrite Hnone. reflexivity.
Qed.

Example listTags_sample :
  tagEntries (tagCounts taggedSample)
    = [ {| Tag := "go"; Count := 3 |}; {| Tag := "diary"; Count := 2 |};
        {| Tag := "zoo"; Count := 2 |}; {| Tag := "work"; Count := 1 |} ].
Proof. vm_compute. reflexivity. Qed.

(** The answer for those memos, as user 7 gets it. *)
Example listTags_sample_answer :
  textOf (exec (handleListTags 7 (onlyName "x")) (setMemos sampleWorld taggedSample)).1.1
    = JArray [JObject [("tag", JString "go"); ("count", JNumber 3)];
              JObject [("tag", JString "diary"); ("count", JNumber 2)];
              JObject [("tag", JString "zoo"); ("count", JNumber 2)];
              JObject [("tag", JString "work"); ("count", JNumber 1)]].
Proof. vm_compute. reflexivity. Qed.

Lemma listTags_sorted_counts_witness :
  exists entries : list tagEntry,
    exec (handleListTags 7 (onlyName "x")) (setMemos sampleWorld taggedSample)
      = (Some (NewToolResultText
                 (JArray ((fun e => JObject [("tag", JString (toValidUTF8 (Tag e)));
                                             ("count", JNumber (Count e))])
                            <$> entries))),
         [event (Store_ListMemos (tagsFind 7)) (Ok taggedSample)],
         setMemos sampleWorld taggedSample)
    /\ (forall e, e ∈ entries <->
           0 < Count e /\ Count e = tagOccurrences (Tag e) taggedSample)
    /\ (forall i j a b,
          (i < j)%nat -> entries !! i = Some a -> entries !! j = Some b ->
          Count a > Count b
          \/ (Count a = Count b /\ String.ltb (Tag a) (Tag b) = true)).
Proof.
  assert (Hlist : perform (Store_ListMemos (tagsFind 7)) (setMemos sampleWorld taggedSample)
                  = (Ok taggedSample, setMemos sampleWorld taggedSample))
    by (vm_compute; reflexivity).
  destruct (listTags_sorted_counts 7 (onlyName "x") taggedSample _ _ Hlist)
    as (entries & Hexec & Hcounts & _ & Horder & _).
  exists entries. split; [exact Hexec|]. split; assumption.
Defined.

(** ** Tag extraction *)

(** *** The regular expression finds the tags of the rule *)

Lemma isLetter_isTagChar (c : ascii) : isLetter c = true -> isTagChar c = true.
Proof. destruct c as [[] [] [] [] [] [] [] []]; vm_compute; congruence. Qed.

Lemma isTagChar_not_space (c : ascii) : isTagChar c = true -> isSpace c = false.
Proof. unfold isTagChar. destruct (isSpace c); [discriminate|reflexivity]. Qed.

Lemma isTagChar_not_hash (c : ascii) : isTagChar c = true -> isHash c = false.
Proof.
  unfold isTagChar. destruct (isHash c); [|reflexivity].
  rewrite andb_false_r. discriminate.
Qed.

Lemma isSpace_not_hash (c : ascii) : isSpace c = true -> isHash c = false.
Proof. destruct c as [[] [] [] [] [] [] [] []]; vm_compute; congruence. Qed.

(** What [matchHashTag] finds is the tag of the rule at a [#]. *)
Lemma matchHashTag_tagRun (c : ascii) (s : string) :
  fst <$> matchHashTag (String c s) = if isHash c then tagRun s else None.
Proof.
  unfold matchHashTag, tagRun. destruct s as [|l s].
  - destruct (isHash c); reflexivity.
  - destruct (isHash c); simpl; [|reflexivity].
    destruct (isLetter l) eqn:Hl; [|reflexivity].
    rewrite (isLetter_isTagChar _ Hl).
    destruct (spanTag s) as [run rest]. reflexivity.
Qed.

(** Inside a run of tag characters no tag starts; after it the scan goes on
    behind a character that is not whitespace. *)
Lemma tagsFrom_run (s : string) (c : ascii) :
  isTagChar c = true ->
  exists w, isSpace w = false
            /\ tagsFrom (Some c) s = tagsFrom (Some w) (spanTag s).2.
Proof.
  revert c. induction s as [|x s IH]; intros c Hc; simpl.
  - exists c. split; [apply isTagChar_not_space; assumption|reflexivity].
  - destruct (isTagChar x) eqn:Hx.
    + rewrite (isTagChar_not_hash _ Hx). simpl.
      destruct (IH x Hx) as (w & Hw & Heq). exists w. split; [assumption|].
      destruct (spanTag s) as [run rest]. simpl in *. assumption.
    + exists c. split; [apply isTagChar_not_space; assumption|reflexivity].
Qed.

(** The scan over a match of the part of [tagRegexp] that starts at the
    [#]. *)
Lemma tagsFrom_match (prev : option ascii) (s tag rest : string) :
  atBoundary prev = true ->
  matchHashTag s = Some (tag, rest) ->
  exists w, isSpace w = false
            /\ tagsFrom prev s = tag :: tagsFrom (Some w) rest.
Proof.
  intros Hprev Hmatch.
  destruct s as [|h [|l s]]; try discriminate.
  assert (Hrun : (if isHash h then tagRun (String l s) else None) = Some tag).
  { rewrite <- matchHashTag_tagRun, Hmatch. reflexivity. }
  unfold matchHashTag in Hmatch.
  destruct (isHash h) eqn:Hh; [|discriminate].
  destruct (isLetter l) eqn:Hl; [|discriminate]. cbn [andb] in Hmatch.
  pose proof (isLetter_isTagChar _ Hl) as Htag.
  destruct (tagsFrom_run s l Htag) as (w & Hw & Heq).
  exists w. split; [assumption|].
  cbn [tagsFrom]. rewrite Hh, Hprev, Hrun. cbn [andb].
  rewrite (isTagChar_not_hash _ Htag). cbn [andb app].
  rewrite Heq. destruct (spanTag s) as [run rest'].
  injection Hmatch as _ <-. reflexivity.
Qed.

Lemma findAllTags_step (atStart : bool) (s : string) :
  findAllTags atStart s =
    match matchTagRegexp atStart s with
    | Some (tag, rest) => tag :: findAllTags false rest
    | None =>
        match s with
        | EmptyString => []
        | String _ s' => findAllTags false s'
        end
    end.
Proof.
  rewrite findAllTags_equation_1.
  destruct (inspect (matchTagRegexp atStart s)) as [[[tag rest]|] Ho].
  - simp findAllTags. rewrite Ho, <- findAllTags_equation_1. reflexivity.
  - destruct s; simp findAllTags; rewrite Ho, <- ?findAllTags_equation_1; reflexivity.
Qed.

(** Where no match starts at a [#], the rule gives no tag either. *)
Lemma tagsFrom_no_match (prev : option ascii) (c : ascii) (s : string) :
  (atBoundary prev = true -> matchHashTag (String c s) = None) ->
  tagsFrom prev (String c s) = tagsFrom (Some c) s.
Proof.
  intros Hnone. cbn [tagsFrom].
  destruct (isHash c) eqn:Hh, (atBoundary prev) eqn:Hb; cbn [andb app]; try reflexivity.
  pose proof (matchHashTag_tagRun c s) as Hrun.
  rewrite (Hnone eq_refl), Hh in Hrun. simpl in Hrun. rewrite <- Hrun. reflexivity.
Qed.

Lemma matchHashTag_space (c : ascii) (s : string) :
  isSpace c = true -> matchHashTag (String c s) = None.
Proof.
  intros Hc. unfold matchHashTag. destruct s; [reflexivity|].
  rewrite (isSpace_not_hash _ Hc). reflexivity.
Qed.

(** The matches of [tagRegexp] are the tags of the rule, in order. Behind a
    whitespace character the search has already looked at the text for the
    part after the first group, which is the side condition on [w]. *)
Lemma findAllTags_tagsFrom (n : nat) (s : string) :
  (String.length s <= n)%nat ->
  findAllTags true s = tagsFrom None s
  /\ (forall w, (isSpace w = true -> matchHashTag s = None) ->
                findAllTags false s = tagsFrom (Some w) s).
Proof.
  revert s. induction n as [|n IH]; intros s Hlen.
  { destruct s; [|simpl in Hlen; lia].
    split; [|intros w _]; rewrite findAllTags_step; reflexivity. }
  destruct s as [|c s]; [split; [|intros w _]; rewrite findAllTags_step; reflexivity|].
  simpl in Hlen.
  assert (Hafter : forall prev s1 tag rest,
            (String.length s1 <= S n)%nat ->
            atBoundary prev = true ->
            matchHashTag s1 = Some (tag, rest) ->
            tag :: findAllTags false rest = tagsFrom prev s1).
  { intros prev s1 tag rest Hs1 Hprev Hmatch.
    destruct (tagsFrom_match prev s1 tag rest Hprev Hmatch) as (w & Hw & ->).
    f_equal. apply IH.
    - apply matchHashTag_length in Hmatch. lia.
    - intros Hspace. congruence. }
  assert (Hskip : forall prev,
            (atBoundary prev = true -> matchHashTag (String c s) = None) ->
            (isSpace c = true -> matchHashTag s = None) ->
            findAllTags false s = tagsFrom prev (String c s)).
  { intros prev Hhere Hnext. rewrite (tagsFrom_no_match prev c s Hhere).
    apply IH; [lia|assumption]. }
  split.
  - rewrite findAllTags_step. unfold matchTagRegexp.
    destruct (matchHashTag (String c s)) as [[tag rest]|] eqn:Hfirst.
    + apply (Hafter None); [simpl; lia|reflexivity|assumption].
    + destruct (isSpace c) eqn:Hc.
      * destruct (matchHashTag s) as [[tag rest]|] eqn:Hsecond.
        -- rewrite (tagsFrom_no_match None c s (fun _ => Hfirst)).
           apply (Hafter (Some c)); [lia|assumption..].
        -- apply Hskip; auto.
      * apply Hskip; [auto|congruence].
  - intros w Hw. rewrite findAllTags_step. unfold matchTagRegexp.
    destruct (isSpace c) eqn:Hc.
    + destruct (matchHashTag s) as [[tag rest]|] eqn:Hsecond.
      * rewrite (tagsFrom_no_match (Some w) c s
                   (fun _ => matchHashTag_space c s Hc)).
        apply (Hafter (Some c)); [lia|assumption..].
      * apply Hskip; auto.
    + apply Hskip; [exact Hw|congruence].
Qed.

Lemma findAllTags_tagsByRule (content : string) :
  findAllTags true content = tagsByRule content.
Proof. apply (findAllTags_tagsFrom (String.length content)). lia. Qed.

(** *** The loop keeps first occurrences *)

Lemma filter_twice {A} (f g : A -> bool) (l : list A) :
  List.filter f (List.filter g l) = List.filter (fun x => f x && g x) l.
Proof.
  induction l as [|x l IH]; simpl; [reflexivity|].
  destruct (g x); simpl; rewrite ?andb_true_r, ?andb_false_r;
    [destruct (f x)|]; simpl; congruence.
Qed.

(** The loop of [extractTags], started with [seen] and [tags], appends the
    first occurrences of the matches that are not in [seen]. *)
Lemma fold_noteTag (matches : list string) (seen : gset string) (tags : list string) :
  (fold_left noteTag matches (seen, tags)).2
    = tags ++ List.filter (fun y => bool_decide (y ∉ seen)) (firstOccurrences matches).
Proof.
  revert seen tags. induction matches as [|x matches IH]; intros seen tags; simpl.
  - rewrite app_nil_r. reflexivity.
  - destruct (decide (x ∈ seen)) as [Hin|Hout].
    + rewrite IH, bool_decide_eq_false_2 by auto. f_equal.
      rewrite filter_twice. apply List.filter_ext. intros y.
      destruct (String.eqb_spec y x) as [->|Hne]; simpl.
      * rewrite bool_decide_eq_false_2 by auto. reflexivity.
      * rewrite andb_true_r. reflexivity.
    + rewrite IH, bool_decide_eq_true_2 by assumption.
      rewrite <- app_assoc. simpl. do 2 f_equal.
      rewrite filter_twice. apply List.filter_ext. intros y.
      destruct (String.eqb_spec y x) as [->|Hne]; simpl.
      * rewrite andb_false_r. apply bool_decide_eq_false_2.
        intros Hnot. apply Hnot, elem_of_union_l, elem_of_singleton. reflexivity.
      * rewrite andb_true_r. apply bool_decide_ext.
        rewrite elem_of_union, elem_of_singleton. tauto.
Qed.

Lemma extractTags_firstOccurrences (content : string) :
  extractTags content = firstOccurrences (tagsByRule content).
Proof.
  unfold extractTags. cbn zeta. rewrite fold_noteTag, findAllTags_tagsByRule.
  simpl. induction (firstOccurrences (tagsByRule content)) as [|x l IH];
    simpl; [reflexivity|].
  rewrite bool_decide_eq_true_2 by apply not_elem_of_empty. f_equal. assumption.
Qed.

Lemma firstOccurrences_elem_of (l : list string) (x : string) :
  x ∈ firstOccurrences l <-> x ∈ l.
Proof.
  induction l as [|y l IH]; simpl; [reflexivity|].
  rewrite !elem_of_cons, <- IH, list_elem_of_In, List.filter_In, <- list_elem_of_In.
  destruct (String.eqb_spec x y) as [->|Hne]; simpl.
  - split; intros _; left; reflexivity.
  - split; (intros [Heq|Hin]; [contradiction|right]).
    + apply Hin.
    + split; [assumption|reflexivity].
Qed.

Lemma firstOccurrences_NoDup (l : list string) : NoDup (firstOccurrences l).
Proof.
  induction l as [|y l IH]; simpl; constructor.
  - rewrite list_elem_of_In, List.filter_In. intros [_ Hne].
    rewrite String.eqb_refl in Hne. discriminate.
  - apply NoDup_ListNoDup, List.NoDup_filter, NoDup_ListNoDup, IH.
Qed.

(** *** The rule, said of substrings *)

Lemma isHash_spec (c : ascii) : isHash c = true <-> c = "#"%char.
Proof.
  split; [|intros ->; reflexivity].
  destruct c as [[] [] [] [] [] [] [] []]; vm_compute; congruence.
Qed.

Lemma spanTag_spec (s : string) :
  s = (spanTag s).1 +:+ (spanTag s).2
  /\ allChars isTagChar (spanTag s).1 = true
  /\ endsTag (spanTag s).2 = true.
Proof.
  induction s as [|c s (IH1 & IH2 & IH3)]; simpl; [auto|].
  destruct (isTagChar c) eqn:Hc; simpl.
  - destruct (spanTag s) as [run rest]; simpl in *.
    rewrite Hc, append_cons, <- IH1. auto.
  - rewrite Hc. auto.
Qed.

Lemma spanTag_unique (run rest : string) :
  allChars isTagChar run = true -> endsTag rest = true ->
  spanTag (run +:+ rest) = (run, rest).
Proof.
  induction run as [|c run IH]; simpl; intros Hrun Hrest.
  - rewrite ?append_nil_l. destruct rest as [|c rest]; [reflexivity|].
    simpl in *. destruct (isTagChar c); [discriminate|reflexivity].
  - apply andb_true_iff in Hrun as [Hc Hrun].
    rewrite ?append_cons. simpl. rewrite Hc, (IH Hrun Hrest). reflexivity.
Qed.

Lemma tagRun_spec (s tag : string) :
  tagRun s = Some tag <->
  exists post, s = tag +:+ post /\ isTag tag = true /\ endsTag post = true.
Proof.
  split.
  - destruct s as [|c s]; [discriminate|]. unfold tagRun.
    destruct (isLetter c) eqn:Hl; [|discriminate]. intros [= <-].
    destruct (spanTag_spec (String c s)) as (Hsplit & Hall & Hend).
    exists (spanTag (String c s)).2. split; [assumption|]. split; [|assumption].
    pose proof (isLetter_isTagChar _ Hl) as Htc.
    simpl in *. rewrite Htc in *.
    destruct (spanTag s) as [run rest]; simpl in *.
    rewrite Htc in Hall. rewrite Hl. exact Hall.
  - intros (post & -> & Htag & Hend).
    destruct tag as [|c tag]; [discriminate|]. simpl in Htag.
    apply andb_true_iff in Htag as [Hl Hall].
    rewrite append_cons. unfold tagRun. rewrite Hl.
    rewrite <- append_cons, spanTag_unique; [reflexivity| |assumption].
    simpl. rewrite (isLetter_isTagChar _ Hl). assumption.
Qed.

(** The tags of the rule are the tags that occur in the text. *)
Lemma tagsFrom_elem_of (prev : option ascii) (s tag : string) :
  tag ∈ tagsFrom prev s <-> tagOccursIn prev s tag.
Proof.
  revert prev. induction s as [|c s IH]; intros prev; simpl.
  - split; [intros Hin; inversion Hin|].
    intros (pre & post & Heq & _). destruct pre; discriminate.
  - rewrite elem_of_app, IH. split.
    + intros [Hhere|(pre & post & -> & Hb & Ht & He)].
      * destruct (isHash c) eqn:Hh; [|inversion Hhere].
        destruct (atBoundary prev) eqn:Hb; [|inversion Hhere]. simpl in Hhere.
        destruct (tagRun s) as [t|] eqn:Hrun; [|inversion Hhere].
        apply list_elem_of_singleton in Hhere as ->.
        apply tagRun_spec in Hrun as (post & -> & Ht & He).
        apply isHash_spec in Hh as ->.
        exists "", post. auto.
      * exists (String c pre), post. auto.
    + intros ([|x pre] & post & Heq & Hb & Ht & He).
      * rewrite append_nil_l in Heq. injection Heq as -> ->. left.
        simpl in Hb. rewrite Hb. simpl.
        assert (tagRun (tag +:+ post) = Some tag) as ->
          by (apply tagRun_spec; eauto).
        apply list_elem_of_singleton. reflexivity.
      * rewrite append_cons in Heq. injection Heq as -> ->. right.
        exists pre, post. auto.
Qed.

(** The example of the specification: the comma after [world] is neither
    whitespace nor [#], so it belongs to the first tag. *)
Lemma extractTags_example_keeps_comma :
  extractTags "hello #world, #Go-lang #a1" = ["world,"; "Go-lang"; "a1"]
  /\ extractTags "hello #world, #Go-lang #a1" <> ["world"; "Go-lang"; "a1"].
Proof. split; [vm_compute; reflexivity|vm_compute; discriminate]. Qed.

(** C6 (amended). [extractTags] returns the tags of the rule, each a longest
    run of characters that are neither whitespace nor [#], starting with a
    letter, behind a [#] that follows the start of the text or whitespace;
    in the order of their first appearance, each once, as they stand in the
    text. On [hello #world, #Go-lang #a1] that is [world,], [Go-lang] and
    [a1]; a bare [#] and [#1abc] give no tag. *)
Theorem extractTags_by_rule (content : string) :
  extractTags content = firstOccurrences (tagsByRule content)
  /\ (forall tag, tag ∈ extractTags content <-> tagOccursIn None content tag)
  /\ NoDup (extractTags content)
  /\ extractTags "hello #world, #Go-lang #a1" = ["world,"; "Go-lang"; "a1"]
  /\ extractTags "#" = []
  /\ extractTags "#1abc" = [].
Proof.
  split; [apply extractTags_firstOccurrences|].
  split.
  { intros tag. rewrite extractTags_firstOccurrences, firstOccurrences_elem_of.
    apply tagsFrom_elem_of. }
  split.
  { rewrite extractTags_firstOccurrences. apply firstOccurrences_NoDup. }
  repeat split; vm_compute; reflexivity.
Qed.

(** Tags differing in case are different tags, and a repeated tag is listed
    where it first stands. *)
Example extractTags_case_and_order :
  extractTags "#b #a #B #b x#c #a" = ["b"; "a"; "B"].
Proof. vm_compute. reflexivity. Qed.

(** * Further properties *)

(** ** Names and enumerations *)

(** X1. [parseMemoUID] accepts a name exactly when it is [memos/] followed
    by a non-empty uid, and gives that uid; every other name, the bare
    prefix included, is refused with the error that quotes the name. *)
Theorem parseMemoUID_accepts_iff (name : string) :
  (forall uid, parseMemoUID name = Ok uid <-> name = "memos/" +:+ uid /\ uid <> "")
  /\ ((exists uid, parseMemoUID name = Ok uid)
      \/ parseMemoUID name = Err (BadMemoName name)).
Proof.
  unfold parseMemoUID. split.
  - intros uid. destruct (stringsCutPrefix name "memos/") as [rest|] eqn:Hcut.
    + apply stringsCutPrefix_spec in Hcut.
      destruct (String.eqb_spec rest "") as [->|Hne].
      * split; [discriminate|]. intros [Hname Huid]. rewrite Hcut in Hname.
        apply stringsCutPrefix_spec in Hname. cbv in Hname. congruence.
      * split.
        -- intros [= <-]. auto.
        -- intros [Hname Huid]. rewrite Hcut in Hname.
           apply stringsCutPrefix_spec in Hname.
           assert (Hself : stringsCutPrefix ("memos/" +:+ rest) "memos/" = Some rest)
             by (apply stringsCutPrefix_spec; reflexivity).
           congruence.
    + split; [discriminate|]. intros [Hname _].
      apply stringsCutPrefix_spec in Hname. congruence.
  - destruct (stringsCutPrefix name "memos/") as [rest|]; [|auto].
    destruct (String.eqb rest ""); eauto.
Qed.

(** X2. The name a memo is given in a response leads back to the memo: it
    parses to the memo's uid, and [memo://] before it is a well-formed
    resource identifier for that uid, as long as the uid is not empty. A
    memo with the empty uid is named [memos/], which does not parse. *)
Theorem memo_name_round_trip (m : Memo) :
  (UID m <> "" ->
     parseMemoUID (json_Name (storeMemoToJSON m)) = Ok (UID m)
     /\ wellFormedURI ("memo://" +:+ json_Name (storeMemoToJSON m)) (UID m))
  /\ (UID m = "" ->
     parseMemoUID (json_Name (storeMemoToJSON m)) = Err (BadMemoName "memos/")).
Proof.
  change (json_Name (storeMemoToJSON m)) with ("memos/" +:+ UID m). split.
  - intros Huid. split.
    + unfold parseMemoUID.
      assert (Hcut : stringsCutPrefix ("memos/" +:+ UID m) "memos/" = Some (UID m))
        by (apply stringsCutPrefix_spec; reflexivity).
      rewrite Hcut. apply String.eqb_neq in Huid. rewrite Huid. reflexivity.
    + split; [reflexivity|assumption].
  - intros ->. reflexivity.
Qed.

Lemma memo_name_round_trip_witness :
  parseMemoUID (json_Name (storeMemoToJSON (sampleMemo 4 "d4" 8 Public "fourth #diary")))
    = Ok "d4"
  /\ wellFormedURI
       ("memo://" +:+ json_Name (storeMemoToJSON (sampleMemo 4 "d4" 8 Public "fourth #diary")))
       "d4".
Proof.
  apply (proj1 (memo_name_round_trip (sampleMemo 4 "d4" 8 Public "fourth #diary"))).
  discriminate.
Defined.

(** X3. [parseVisibility] accepts exactly PRIVATE, PROTECTED and PUBLIC and
    [parseRowStatus] exactly NORMAL and ARCHIVED, as they are written; what
    is accepted comes back unchanged, and a refusal carries the rejected
    text. *)
Theorem enumerations_validated (s : string) :
  (forall v, parseVisibility s = Ok v <-> v = s /\ knownVisibility s)
  /\ (forall e, parseVisibility s = Err e <-> e = BadVisibility s /\ ~ knownVisibility s)
  /\ (forall v, parseRowStatus s = Ok v <-> v = s /\ knownRowStatus s)
  /\ (forall e, parseRowStatus s = Err e <-> e = BadRowStatus s /\ ~ knownRowStatus s).
Proof.
  unfold parseVisibility, parseRowStatus, knownVisibility, knownRowStatus.
  destruct (String.eqb_spec s Public), (String.eqb_spec s Protected),
    (String.eqb_spec s Private), (String.eqb_spec s Normal),
    (String.eqb_spec s Archived); simpl.
  all: repeat split; try discriminate; try tauto; try congruence.
  all: try (intros [= <-]; tauto).
  all: try (intros [_ H]; exfalso; tauto).
  all: try (intros [-> _]; reflexivity).
Qed.

(** ** More on read access *)

Lemma checkMemoAccess_cases (m : Memo) (c : Z) :
  checkMemoAccess m c =
    if String.eqb (Visibility m) Protected then
      (if c =? 0 then Err PermissionDenied else Ok ())
    else if String.eqb (Visibility m) Private then
      (if CreatorID m =? c then Ok () else Err PermissionDenied)
    else Ok ().
Proof.
  unfold checkMemoAccess.
  destruct (String.eqb (Visibility m) Protected); [reflexivity|].
  destruct (String.eqb (Visibility m) Private); [|reflexivity].
  destruct (CreatorID m =? c); reflexivity.
Qed.

(** X4. The creator of a memo can always read it, whatever its visibility,
    and a memo the anonymous caller can read can be read by every caller;
    both need the creator to be a real identity (not 0), since a PRIVATE
    memo created by identity 0 is open to the anonymous caller alone. *)
Theorem owner_and_public_access (m : Memo) :
  CreatorID m <> 0 ->
  checkMemoAccess m (CreatorID m) = Ok ()
  /\ (checkMemoAccess m 0 = Ok () -> forall c, checkMemoAccess m c = Ok ()).
Proof.
  intros Hreal. apply Z.eqb_neq in Hreal. split.
  - rewrite checkMemoAccess_cases, Z.eqb_refl, Hreal.
    destruct (String.eqb (Visibility m) Protected), (String.eqb (Visibility m) Private); reflexivity.
  - rewrite checkMemoAccess_cases, Hreal. simpl. intros Hanon c.
    rewrite checkMemoAccess_cases.
    destruct (String.eqb (Visibility m) Protected); [discriminate|].
    destruct (String.eqb (Visibility m) Private); [discriminate|]. reflexivity.
Qed.

Lemma owner_and_public_access_witness :
  checkMemoAccess (sampleMemo 2 "b2" 7 Private "second #go #diary") 7 = Ok ()
  /\ (checkMemoAccess (sampleMemo 2 "b2" 7 Private "second #go #diary") 0 = Ok () ->
      forall c, checkMemoAccess (sampleMemo 2 "b2" 7 Private "second #go #diary") c = Ok ()).
Proof.
  apply (owner_and_public_access (sampleMemo 2 "b2" 7 Private "second #go #diary")).
  discriminate.
Defined.

(** A PRIVATE memo created by identity 0 is read by the anonymous caller
    and by nobody else. *)
Example private_memo_of_identity_zero :
  checkMemoAccess (sampleMemo 9 "z9" 0 Private "x") 0 = Ok ()
  /\ checkMemoAccess (sampleMemo 9 "z9" 0 Private "x") 5 = Err PermissionDenied.
Proof. split; reflexivity. Qed.

(** The rows a listing returns are rows the query selects, with or without
    their content. *)
Lemma selectMemos_rows (w : World) (q : FindMemo) (x : Memo) :
  x ∈ selectMemos w q ->
  exists m, m ∈ memos w /\ rowMatches w q m = true
            /\ (x = m \/ x = withoutContent m).
Proof.
  unfold selectMemos. cbn zeta.
  set (rows := List.filter (rowMatches w q) (memos w)).
  set (ordered := if find_OrderByPinned q
                  then List.filter Pinned rows
                       ++ List.filter (fun m => negb (Pinned m)) rows
                  else rows).
  set (dropped := match find_Offset q with
                  | Some o => drop (Z.to_nat o) ordered
                  | None => ordered
                  end).
  set (taken := match find_Limit q with
                | Some l => take (Z.to_nat l) dropped
                | None => dropped
                end).
  assert (Hrows : forall m, m ∈ taken -> m ∈ memos w /\ rowMatches w q m = true).
  { intros m Hm.
    assert (Hd : m ∈ dropped).
    { unfold taken in Hm. destruct (find_Limit q); [|assumption].
      eapply subseteq_take; eassumption. }
    assert (Ho : m ∈ ordered).
    { unfold dropped in Hd. destruct (find_Offset q); [|assumption].
      eapply subseteq_drop; eassumption. }
    assert (Hr : m ∈ rows).
    { unfold ordered in Ho. destruct (find_OrderByPinned q); [|assumption].
      apply elem_of_app in Ho as [Ho|Ho];
        apply list_elem_of_In, List.filter_In in Ho as [Ho _];
        apply list_elem_of_In; assumption. }
    unfold rows in Hr. apply list_elem_of_In, List.filter_In in Hr as [Hin Hmatch].
    split; [apply list_elem_of_In|]; assumption. }
  destruct (find_ExcludeContent q).
  - intros (m & -> & Hm)%list_elem_of_fmap. exists m.
    destruct (Hrows m Hm). auto.
  - intros Hx. exists x. destruct (Hrows x Hx). auto.
Qed.

(** A row that passes the policy of a query is readable. *)
Lemma policy_row_readable (w : World) (q : FindMemo) (c : Z) (m : Memo) :
  (c <> 0 -> readsPolicyClause w c) ->
  find_VisibilityList q = (if c =? 0 then [Public] else []) ->
  (c <> 0 -> visibilityClause c ∈ find_Filters q) ->
  rowMatches w q m = true ->
  checkMemoAccess m c = Ok ().
Proof.
  intros Hreads Hvis Hclause Hmatch. rewrite checkMemoAccess_cases.
  destruct (rowMatches_filters w q m Hmatch) as [Hall Hpublic].
  destruct (Z.eqb_spec c 0) as [->|Hc].
  - rewrite (Hpublic Hvis). reflexivity.
  - rewrite Forall_forall in Hall. pose proof (Hall _ (Hclause Hc)) as Heval.
    unfold visibilityClause in Heval. rewrite (Hreads Hc m) in Heval.
    destruct (String.eqb_spec (Visibility m) Protected) as [_|_]; [reflexivity|].
    destruct (String.eqb_spec (Visibility m) Private) as [Hpriv|_]; [|reflexivity].
    rewrite Hpriv in Heval. cbn in Heval. rewrite !orb_false_r in Heval.
    rewrite Heval. reflexivity.
Qed.

(** X5. Listing and reading agree. On a store that reads the policy clause
    the way CEL does, every row that list, search and list-tags get from
    the store is a memo the caller may read; and a memo with one of the
    three visibilities, created by a real identity, that the caller may
    read passes the policy [applyVisibilityFilter] puts on a query. *)
Theorem listing_agrees_with_access `{Platform}
    (w : World) (quote : string -> string) (c : Z)
    (req : CallToolRequest) (rowStatus : option string) :
  (c <> 0 -> readsPolicyClause w c) ->
  Forall (fun m => checkMemoAccess m c = Ok ())
         (selectMemos w (listFind c req rowStatus))
  /\ Forall (fun m => checkMemoAccess m c = Ok ())
         (selectMemos w (searchFind quote c (GetString req "query" "")))
  /\ Forall (fun m => checkMemoAccess m c = Ok ()) (selectMemos w (tagsFind c))
  /\ (forall find m,
        find_VisibilityList find = [] ->
        rowMatches w find m = true ->
        checkMemoAccess m c = Ok () ->
        knownVisibility (Visibility m) -> CreatorID m <> 0 ->
        rowMatches w (applyVisibilityFilter find c) m = true).
Proof.
  intros Hreads.
  assert (Hlisted : forall q,
            find_VisibilityList q = (if c =? 0 then [Public] else []) ->
            (c <> 0 -> visibilityClause c ∈ find_Filters q) ->
            Forall (fun m => checkMemoAccess m c = Ok ()) (selectMemos w q)).
  { intros q Hvis Hclause. apply Forall_forall. intros x Hx.
    apply selectMemos_rows in Hx as (m & _ & Hmatch & Hx).
    pose proof (policy_row_readable w q c m Hreads Hvis Hclause Hmatch) as Hread.
    destruct Hx as [->| ->]; [assumption|].
    rewrite checkMemoAccess_cases in *. exact Hread. }
  assert (Hpolicy : forall find,
            find_VisibilityList find = [] ->
            find_VisibilityList (applyVisibilityFilter find c)
              = (if c =? 0 then [Public] else [])
            /\ (c <> 0 -> visibilityClause c
                           ∈ find_Filters (applyVisibilityFilter find c))).
  { intros find Hnone.
    destruct (applyVisibilityFilter_fields find c) as (Hv & Hf & _). cbn zeta in Hv, Hf.
    rewrite Hv, Hf, Hnone. split; [reflexivity|].
    intros Hc. apply Z.eqb_neq in Hc. unfold policyClauses. rewrite Hc.
    apply elem_of_app. right. apply elem_of_cons. left. reflexivity. }
  split; [|split; [|split]].
  - unfold listFind. cbn zeta.
    match goal with
    | |- context [applyVisibilityFilter ?f c] =>
        destruct (Hpolicy f eq_refl) as [Hv Hf]
    end.
    destruct (negb _); apply Hlisted; try assumption.
    intros Hc. cbn [find_Filters appendFilter]. apply elem_of_app. left. auto.
  - unfold searchFind. cbn zeta.
    match goal with
    | |- context [applyVisibilityFilter ?f c] =>
        destruct (Hpolicy f eq_refl) as [Hv Hf]
    end.
    apply Hlisted; assumption.
  - unfold tagsFind. cbn zeta.
    match goal with
    | |- context [applyVisibilityFilter ?f c] =>
        destruct (Hpolicy f eq_refl) as [Hv Hf]
    end.
    apply Hlisted; assumption.
  - intros find m Hnone Hmatch Hread Hknown Hreal.
    rewrite checkMemoAccess_cases in Hread.
    unfold rowMatches in *.
    destruct (applyVisibilityFilter_fields find c)
      as (Hv & Hf & Hid & Huid & Hrs & _ & Hec & _ & _ & _ & Hidl).
    cbn zeta in *. rewrite Hv, Hf, Hid, Huid, Hrs, Hec, Hidl.
    rewrite Hnone in Hmatch. cbn [inOrAll] in Hmatch.
    rewrite !andb_true_iff in Hmatch. rewrite !andb_true_iff.
    destruct Hmatch as [[[[[[H1 H2] H3] _] H5] H6] H7].
    repeat split; try assumption.
    + destruct (Z.eqb_spec c 0) as [->|Hc]; [|rewrite Hnone; reflexivity].
      cbn [inOrAll existsb]. rewrite orb_false_r.
      destruct Hknown as [Hk|[Hk|Hk]]; rewrite Hk in *; [reflexivity| |].
      * cbn in Hread. discriminate.
      * cbn in Hread. apply Z.eqb_neq in Hreal. rewrite Hreal in Hread. discriminate.
    + rewrite forallb_app, H7. cbn [andb]. unfold policyClauses.
      destruct (Z.eqb_spec c 0) as [->|Hc]; [reflexivity|].
      cbn [forallb]. rewrite andb_true_r. unfold visibilityClause.
      rewrite (Hreads Hc m).
      destruct Hknown as [Hk|[Hk|Hk]]; rewrite Hk in *; cbn; rewrite ?orb_true_r;
        try reflexivity.
      cbn in Hread. destruct (CreatorID m =? c); [reflexivity|discriminate].
Qed.

Lemma listing_agrees_with_access_witness :
  Forall (fun m => checkMemoAccess m 7 = Ok ()) (selectMemos sampleWorld (tagsFind 7))
  /\ rowMatches sampleWorld (applyVisibilityFilter (findByUID "b2") 7)
       (sampleMemo 2 "b2" 7 Private "second #go #diary") = true.
Proof.
  assert (Hreads : 7 <> 0 -> readsPolicyClause sampleWorld 7).
  { intros _ m. reflexivity. }
  destruct (listing_agrees_with_access sampleWorld (fun s => s) 7 (onlyName "x") None
              Hreads) as (_ & _ & Htags & Hback).
  split; [exact Htags|].
  apply Hback.
  - reflexivity.
  - vm_compute. reflexivity.
  - reflexivity.
  - right; right; reflexivity.
  - discriminate.
Defined.

(** A memo of unknown visibility: every caller may read it, the listing
    shows it to its creator only. *)
Example unknown_visibility_read_not_listed :
  checkMemoAccess (sampleMemo 9 "z9" 8 "SECRET" "x") 7 = Ok ()
  /\ rowMatches sampleWorld (tagsFind 7) (sampleMemo 9 "z9" 8 "SECRET" "x") = false
  /\ rowMatches sampleWorld (tagsFind 7) (sampleMemo 9 "z9" 7 "SECRET" "x") = true.
Proof. repeat split; vm_compute; reflexivity. Qed.

(** ** What the handlers ask of the store *)

(** Running a handler symbolically: every answer of the store and every
    test of the handler is split into its cases. *)
Ltac run_handler :=
  repeat first
    [ progress cbn [exec callsOf resultOf fst snd]
    | match goal with
      | |- context [exec (match ?x with _ => _ end) _] => destruct x eqn:?
      | |- context [exec (if ?b then _ else _) _] => destruct b eqn:?
      | |- context [let '(_, _) := perform ?c ?w in _] =>
          destruct (perform c w) as [? ?] eqn:?
      end ].

(** X6. The reading operations never change the store: whatever the store
    answers, list, get, search, list-comments, list-tags and the resource
    read make only lookup and listing calls. *)
Theorem reads_never_write `{Platform} {W} `{Store W}
    (quote : string -> string) (caller : Z) (req : CallToolRequest)
    (uri : string) (w : W) :
  Forall (fun e => eventMutates e = false) (callsOf (exec (handleListMemos caller req) w))
  /\ Forall (fun e => eventMutates e = false) (callsOf (exec (handleGetMemo caller req) w))
  /\ Forall (fun e => eventMutates e = false)
       (callsOf (exec (handleSearchMemos quote caller req) w))
  /\ Forall (fun e => eventMutates e = false)
       (callsOf (exec (handleListMemoComments caller req) w))
  /\ Forall (fun e => eventMutates e = false) (callsOf (exec (handleListTags caller req) w))
  /\ Forall (fun e => eventMutates e = false)
       (callsOf (exec (handleReadMemoResource caller uri) w)).
Proof.
  repeat split.
  - unfold handleListMemos. cbn zeta. run_handler; repeat constructor.
  - unfold handleGetMemo. run_handler; repeat constructor.
  - unfold handleSearchMemos. cbn zeta. run_handler; repeat constructor.
  - unfold handleListMemoComments. run_handler; repeat constructor.
  - unfold handleListTags. run_handler; repeat constructor.
  - unfold handleReadMemoResource. cbn zeta. run_handler; repeat constructor.
Qed.

(** X7. Writing needs an identity: create, update, delete and
    create-comment called anonymously end in the unauthenticated error
    before the arguments are looked at and without any call to the store. *)
Theorem anonymous_writes_rejected {W} `{Store W} (req : CallToolRequest) (w : W) :
  exec (handleCreateMemo 0 req) w = (Some (NewToolResultError Unauthenticated), [], w)
  /\ exec (handleUpdateMemo 0 req) w = (Some (NewToolResultError Unauthenticated), [], w)
  /\ exec (handleDeleteMemo 0 req) w = (Some (NewToolResultError Unauthenticated), [], w)
  /\ exec (handleCreateMemoComment 0 req) w
     = (Some (NewToolResultError Unauthenticated), [], w).
Proof. repeat split. Qed.

Lemma parseVisibility_known (s v : string) :
  parseVisibility s = Ok v -> knownVisibility v.
Proof.
  unfold parseVisibility, knownVisibility.
  destruct (String.eqb_spec s Public), (String.eqb_spec s Protected),
    (String.eqb_spec s Private); simpl; intros [= <-]; auto.
Qed.

Lemma parseRowStatus_known (s v : string) :
  parseRowStatus s = Ok v -> knownRowStatus v.
Proof.
  unfold parseRowStatus, knownRowStatus.
  destruct (String.eqb_spec s Normal), (String.eqb_spec s Archived);
    simpl; intros [= <-]; auto.
Qed.

Lemma buildUpdate_known (memo : Memo) (req : CallToolRequest) (u : UpdateMemo) :
  buildUpdate memo req = Ok u ->
  (forall v, upd_Visibility u = Some v -> knownVisibility v)
  /\ (forall s, upd_RowStatus u = Some s -> knownRowStatus s).
Proof.
  unfold buildUpdate. cbn zeta.
  destruct (negb (String.eqb (GetString req "content" "") "")); cbn iota beta.
  all: destruct (negb (String.eqb (GetString req "visibility" "") "")).
  all: try (destruct (parseVisibility (GetString req "visibility" "")) as [vis|e] eqn:Hvis;
            [|discriminate]).
  all: destruct (negb (String.eqb (GetString req "state" "") "")).
  all: try (destruct (parseRowStatus (GetString req "state" "")) as [rs|e'] eqn:Hrs;
            [|discriminate]).
  all: intros [= <-]; simpl; split; intros x [= <-] || intros x [=].
  all: eauto using parseVisibility_known, parseRowStatus_known.
Qed.

(** X8. Create and update never write a visibility other than PRIVATE,
    PROTECTED or PUBLIC, and update never a state other than NORMAL or
    ARCHIVED, whatever the arguments and whatever the store answers. *)
Theorem writes_keep_enumerations {W} `{Store W}
    (caller : Z) (req : CallToolRequest) (w : W) :
  Forall writesKnownValues (callsOf (exec (handleCreateMemo caller req) w))
  /\ Forall writesKnownValues (callsOf (exec (handleUpdateMemo caller req) w)).
Proof.
  assert (Hother : forall e, writtenVisibility e = None -> writtenRowStatus e = None ->
                             writesKnownValues e).
  { intros e Hv Hs. split; intros x Hx; congruence. }
  split.
  - unfold handleCreateMemo. cbn zeta.
    run_handler; repeat (first [apply List.Forall_nil | apply List.Forall_cons]).
    all: try (apply Hother; reflexivity).
    all: split; [intros ? [= <-]; eauto using parseVisibility_known | intros ? [=]].
  - unfold handleUpdateMemo.
    run_handler; repeat (first [apply List.Forall_nil | apply List.Forall_cons]).
    all: try (apply Hother; reflexivity).
    all: match goal with
         | Hb : buildUpdate _ _ = Ok _ |- _ => exact (buildUpdate_known _ _ _ Hb)
         end.
Qed.

Lemma parseVisibility_unknown (s : string) :
  ~ knownVisibility s -> parseVisibility s = Err (BadVisibility s).
Proof.
  unfold parseVisibility, knownVisibility. intros Hno.
  destruct (String.eqb_spec s Public), (String.eqb_spec s Protected),
    (String.eqb_spec s Private); simpl; tauto.
Qed.

Lemma parseRowStatus_unknown (s : string) :
  ~ knownRowStatus s -> parseRowStatus s = Err (BadRowStatus s).
Proof.
  unfold parseRowStatus, knownRowStatus. intros Hno.
  destruct (String.eqb_spec s Normal), (String.eqb_spec s Archived); simpl; tauto.
Qed.

Lemma suppliedString_Some (req : CallToolRequest) (key v : string) :
  suppliedString req key = Some v ->
  GetString req key "" = v /\ String.eqb v "" = false.
Proof.
  unfold suppliedString.
  destruct (String.eqb (GetString req key "") "") eqn:He; [discriminate|].
  intros [= <-]. auto.
Qed.

Lemma parseVisibility_Err (s : string) (e : MCPError) :
  parseVisibility s = Err e -> e = BadVisibility s.
Proof. unfold parseVisibility. destruct (_ || _); congruence. Qed.

(** An update with an unknown visibility or state is refused as a whole. *)
Lemma buildUpdate_invalid (memo : Memo) (req : CallToolRequest) :
  (exists v, suppliedString req "visibility" = Some v /\ ~ knownVisibility v)
  \/ (exists s, suppliedString req "state" = Some s /\ ~ knownRowStatus s) ->
  exists e, buildUpdate memo req = Err e
            /\ (e = BadVisibility (GetString req "visibility" "")
                \/ e = BadRowStatus (GetString req "state" "")).
Proof.
  intros Hbad.
  assert (Hstate : forall s, suppliedString req "state" = Some s -> ~ knownRowStatus s ->
            (if negb (String.eqb (GetString req "state" "") "")
             then match parseRowStatus (GetString req "state" "") with
                  | Ok rs => Ok (Some rs)
                  | Err e => Err e
                  end
             else Ok None) = Err (BadRowStatus (GetString req "state" ""))).
  { intros s Hs Hno. apply suppliedString_Some in Hs as [Hget Hne].
    rewrite Hget, Hne. cbn [negb]. rewrite (parseRowStatus_unknown s Hno). reflexivity. }
  unfold buildUpdate. cbn zeta.
  destruct (negb (String.eqb (GetString req "content" "") "")); cbn iota beta.
  all: destruct (negb (String.eqb (GetString req "visibility" "") "")) eqn:Hvne;
    [destruct (parseVisibility (GetString req "visibility" "")) as [vis|e] eqn:Hp|].
  all: try (apply parseVisibility_Err in Hp as ->; eauto).
  all: destruct Hbad as [(v & Hv & Hno)|(s & Hs & Hno)];
    [exfalso; apply suppliedString_Some in Hv as [Hget Hne]
    |rewrite (Hstate s Hs Hno); eauto].
  all: rewrite Hget in *.
  all: try (rewrite Hne in Hvne; discriminate).
  all: apply Hno; pose proof (parseVisibility_ok _ _ Hp) as ->;
    exact (parseVisibility_known _ _ Hp).
Qed.

(** X9. An update by the owner that carries an unknown visibility or state
    changes nothing: the call ends in the validation error after the lookup
    of the memo, and the store is not asked to update, even when the same
    call brings a valid new content. *)
Theorem update_invalid_enum_changes_nothing {W} `{Store W}
    (caller : Z) (req : CallToolRequest) (uid : string) (memo : Memo) (w w' : W) :
  caller <> 0 ->
  parseMemoUID (GetString req "name" "") = Ok uid ->
  perform (Store_GetMemo (findByUID uid)) w = (Ok (Some memo), w') ->
  CreatorID memo = caller ->
  (exists v, suppliedString req "visibility" = Some v /\ ~ knownVisibility v)
  \/ (exists s, suppliedString req "state" = Some s /\ ~ knownRowStatus s) ->
  exists e,
    exec (handleUpdateMemo caller req) w
      = (Some (NewToolResultError e),
         [event (Store_GetMemo (findByUID uid)) (Ok (Some memo))], w')
    /\ (e = BadVisibility (GetString req "visibility" "")
        \/ e = BadRowStatus (GetString req "state" "")).
Proof.
  intros Hauth Hname Hget Howner Hbad.
  destruct (buildUpdate_invalid memo req Hbad) as (e & Hbuild & He).
  exists e. split; [|assumption].
  unfold handleUpdateMemo, extractUserID.
  apply Z.eqb_neq in Hauth. rewrite Hauth, Hname. cbn [exec].
  rewrite Hget. rewrite Howner, Z.eqb_refl. cbn [negb]. rewrite Hbuild. reflexivity.
Qed.

Lemma update_invalid_enum_changes_nothing_witness :
  exists e,
    exec (handleUpdateMemo 7 (updateRequest "memos/a1" "new text #new" "SECRET"))
         sampleWorld
      = (Some (NewToolResultError e),
         [event (Store_GetMemo (findByUID "a1"))
                (Ok (Some (sampleMemo 1 "a1" 7 Public "first #go")))],
         sampleWorld)
    /\ (e = BadVisibility
              (GetString (updateRequest "memos/a1" "new text #new" "SECRET")
                         "visibility" "")
        \/ e = BadRowStatus
                 (GetString (updateRequest "memos/a1" "new text #new" "SECRET")
                            "state" "")).
Proof.
  assert (Hget : perform (Store_GetMemo (findByUID "a1")) sampleWorld
                 = (Ok (Some (sampleMemo 1 "a1" 7 Public "first #go")), sampleWorld))
    by (vm_compute; reflexivity).
  assert (Hbad : (exists v, suppliedString
                              (updateRequest "memos/a1" "new text #new" "SECRET")
                              "visibility" = Some v /\ ~ knownVisibility v)
                 \/ (exists s, suppliedString
                                 (updateRequest "memos/a1" "new text #new" "SECRET")
                                 "state" = Some s /\ ~ knownRowStatus s)).
  { left. exists "SECRET". split; [reflexivity|].
    intros [Hk|[Hk|Hk]]; discriminate. }
  apply (update_invalid_enum_changes_nothing 7
           (updateRequest "memos/a1" "new text #new" "SECRET") "a1"
           (sampleMemo 1 "a1" 7 Public "first #go") sampleWorld sampleWorld);
    [discriminate|reflexivity|exact Hget|reflexivity|exact Hbad].
Defined.

(** ** Creating *)

(** X10. Create looks at its arguments before it touches anything: without
    content, or with a visibility that is not one of the three (an empty
    string given for it included), the call ends in the validation error
    and neither a uid is drawn nor the store called. *)
Theorem create_validates_first {W} `{Store W}
    (caller : Z) (req : CallToolRequest) (w : W) :
  caller <> 0 ->
  GetString req "content" "" = ""
  \/ ~ knownVisibility (GetString req "visibility" "PRIVATE") ->
  exists e,
    exec (handleCreateMemo caller req) w = (Some (NewToolResultError e), [], w)
    /\ (e = ContentRequired
        \/ e = BadVisibility (GetString req "visibility" "PRIVATE")).
Proof.
  intros Hauth Hbad. unfold handleCreateMemo, extractUserID. cbn zeta.
  apply Z.eqb_neq in Hauth. rewrite Hauth.
  destruct (String.eqb_spec (GetString req "content" "") "") as [Hempty|Hcontent].
  - exists ContentRequired. auto.
  - destruct Hbad as [Hempty|Hvis]; [contradiction|].
    rewrite (parseVisibility_unknown _ Hvis). eauto.
Qed.

Lemma create_validates_first_witness :
  exists e,
    exec (handleCreateMemo 7
            {| GetArguments := {[ "content" := AString "note";
                                  "visibility" := AString "" ]} |}) sampleWorld
      = (Some (NewToolResultError e), [], sampleWorld)
    /\ (e = ContentRequired
        \/ e = BadVisibility
                 (GetString {| GetArguments := {[ "content" := AString "note";
                                                  "visibility" := AString "" ]} |}
                            "visibility" "PRIVATE")).
Proof.
  apply (create_validates_first 7
           {| GetArguments := {[ "content" := AString "note";
                                 "visibility" := AString "" ]} |} sampleWorld).
  - discriminate.
  - right. intros [Hk|[Hk|Hk]]; discriminate.
Defined.

(** X11. A create call with content and a valid (or no) visibility draws a
    uid and asks the store once, for a memo with that uid, the caller as
    creator, the content as given, the visibility asked for, PRIVATE when
    none is, and the payload built from the content; it answers what the
    store created, or the store's failure. *)
Theorem create_contract {W} `{Store W}
    (caller : Z) (req : CallToolRequest) (uid : string)
    (answer : Result string Memo) (w w1 w2 : W) :
  let content := GetString req "content" "" in
  let visibility := GetString req "visibility" "PRIVATE" in
  caller <> 0 ->
  content <> "" ->
  knownVisibility visibility ->
  perform Shortuuid_New w = (uid, w1) ->
  perform (Store_CreateMemo (memoDraft caller content uid visibility)) w1 = (answer, w2) ->
  exec (handleCreateMemo caller req) w
    = (Some match answer with
            | Ok memo => NewToolResultText (marshalMemo (storeMemoToJSON memo))
            | Err err => NewToolResultError (Failed "create memo" err)
            end,
       [event Shortuuid_New uid;
        event (Store_CreateMemo (memoDraft caller content uid visibility)) answer],
       w2)
  /\ (GetArguments req !! "visibility" = None -> visibility = Private).
Proof.
  intros content visibility Hauth Hcontent Hvis Hnew Hcreate. split.
  - unfold handleCreateMemo, extractUserID. cbn zeta. fold content visibility.
    apply Z.eqb_neq in Hauth. apply String.eqb_neq in Hcontent.
    rewrite Hauth, Hcontent.
    assert (parseVisibility visibility = Ok visibility) as ->.
    { unfold parseVisibility, knownVisibility in *.
      destruct Hvis as [Hv | [Hv | Hv]]; rewrite Hv; reflexivity. }
    cbn [exec]. rewrite Hnew.
    change {| ID := 0; UID := uid; RowStatus := ""; CreatorID := caller;
              CreatedTs := 0; UpdatedTs := 0; Content := content;
              Visibility := visibility; Pinned := false;
              Payload := buildPayload content; ParentUID := None |}
      with (memoDraft caller content uid visibility).
    rewrite Hcreate. destruct answer; reflexivity.
  - intros Habsent. unfold visibility, GetString. rewrite Habsent. reflexivity.
Qed.

Lemma create_contract_witness :
  exists memo,
    exec (handleCreateMemo 7 (createRequest "buy milk #groceries")) sampleWorld
      = (Some (NewToolResultText (marshalMemo (storeMemoToJSON memo))),
         [event Shortuuid_New "u1";
          event (Store_CreateMemo (memoDraft 7 "buy milk #groceries" "u1" Private))
                (Ok memo)],
         (perform (Store_CreateMemo (memoDraft 7 "buy milk #groceries" "u1" Private))
                  (perform Shortuuid_New sampleWorld).2).2)
    /\ Visibility memo = Private
    /\ memoTags memo = ["groceries"].
Proof.
  set (w1 := (perform Shortuuid_New sampleWorld).2).
  set (run := perform (Store_CreateMemo (memoDraft 7 "buy milk #groceries" "u1" Private)) w1).
  assert (Hnew : perform Shortuuid_New sampleWorld = ("u1", w1)) by reflexivity.
  assert (Hrun : exists memo, run = (Ok memo, run.2) /\ Visibility memo = Private
                              /\ memoTags memo = ["groceries"]).
  { eexists. vm_compute. repeat split. }
  destruct Hrun as (memo & Hrun & Hvis & Htags).
  exists memo. split; [|auto].
  assert (Hvalid : knownVisibility
                     (GetString (createRequest "buy milk #groceries") "visibility" "PRIVATE"))
    by (right; right; reflexivity).
  assert (Hcontent : GetString (createRequest "buy milk #groceries") "content" "" <> "")
    by discriminate.
  exact (proj1 (create_contract 7 (createRequest "buy milk #groceries") "u1" (Ok memo)
                  sampleWorld w1 run.2 ltac:(discriminate) Hcontent Hvalid Hnew Hrun)).
Defined.

Lemma marshalMemo_tags (j : memoJSON) :
  jsonField "tags" (marshalMemo j) = Some (marshalStrings (json_Tags j)).
Proof.
  unfold marshalMemo, jsonField.
  rewrite !fieldOf_app, fieldOf_omitEmptyString. reflexivity.
Qed.

Lemma buildPayload_tags (content : string) :
  match buildPayload content with
  | Some payload => Tags payload = extractTags content /\ Property payload = None
  | None => extractTags content = []
  end.
Proof.
  unfold buildPayload. cbn zeta.
  destruct (extractTags content) as [|t tags]; simpl; auto.
Qed.

Lemma allChars_app (p : ascii -> bool) (a b : string) :
  allChars p (a +:+ b) = allChars p a && allChars p b.
Proof.
  induction a as [|c a IH]; [reflexivity|].
  rewrite append_cons. cbn [allChars]. rewrite IH, andb_assoc. reflexivity.
Qed.

(** The tags of an ASCII text are ASCII. *)
Lemma extractTags_ascii (content : string) :
  allChars (fun c => (nat_of_ascii c <? 128)%nat) content = true ->
  Forall (fun tag => toValidUTF8 tag = tag) (extractTags content).
Proof.
  intros Hascii. apply Forall_forall. intros tag Hin. apply toValidUTF8_ascii.
  rewrite extractTags_firstOccurrences in Hin.
  apply firstOccurrences_elem_of, tagsFrom_elem_of in Hin.
  destruct Hin as (pre & post & Hcontent & _). rewrite Hcontent in Hascii.
  rewrite allChars_app in Hascii. apply andb_true_iff in Hascii as [_ Hrest].
  cbn [allChars] in Hrest. apply andb_true_iff in Hrest as [_ Hrest].
  rewrite allChars_app in Hrest. apply andb_true_iff in Hrest as [Htag _].
  exact Htag.
Qed.

(** X12. The payload built from a content carries exactly the tags
    extracted from it and no property, and there is no payload at all
    exactly when the content has no tag; a memo with that payload shows
    those tags in its response, each written as [encoding/json] writes a
    string (U+FFFD for a byte that is not valid UTF-8), which for a content
    in ASCII is the tag itself. *)
Theorem payload_tags_are_extracted (m : Memo) (content : string) :
  (buildPayload content = None <-> extractTags content = [])
  /\ (Payload m = buildPayload content ->
      memoTags m = extractTags content
      /\ jsonField "tags" (marshalMemo (storeMemoToJSON m))
         = Some (JArray ((fun tag => JString (toValidUTF8 tag)) <$> extractTags content))
      /\ (allChars (fun c => (nat_of_ascii c <? 128)%nat) content = true ->
          jsonField "tags" (marshalMemo (storeMemoToJSON m))
          = Some (JArray (JString <$> extractTags content)))
      /\ jsonField "property" (marshalMemo (storeMemoToJSON m)) = None).
Proof.
  pose proof (buildPayload_tags content) as Hbuild. split.
  - destruct (buildPayload content) as [payload|] eqn:Hp.
    + destruct Hbuild as [Htags _]. split; [discriminate|].
      intros Hnone. exfalso. unfold buildPayload in Hp. cbn zeta in Hp.
      rewrite Hnone in Hp. discriminate.
    + split; auto.
  - intros Hpayload.
    assert (Htags : memoTags m = extractTags content).
    { unfold memoTags. rewrite Hpayload.
      destruct (buildPayload content) as [payload|]; [apply Hbuild|].
      symmetry. exact Hbuild. }
    assert (Hfield : jsonField "tags" (marshalMemo (storeMemoToJSON m))
              = Some (JArray ((fun tag => JString (toValidUTF8 tag))
                                <$> extractTags content))).
    { rewrite marshalMemo_tags, storeMemoToJSON_Tags, Htags. reflexivity. }
    split; [assumption|]. split; [exact Hfield|]. split.
    + intros Hascii.
      rewrite Hfield, (marshal_valid_strings _ (extractTags_ascii content Hascii)).
      reflexivity.
    + assert (Hprop : json_Property (storeMemoToJSON m) = None).
      { unfold storeMemoToJSON. cbn [json_Property]. rewrite Hpayload.
        destruct (buildPayload content) as [payload|]; [|reflexivity].
        destruct Hbuild as [_ ->]. reflexivity. }
      unfold marshalMemo, jsonField.
      rewrite !fieldOf_app, !fieldOf_omitEmptyString, Hprop. reflexivity.
Qed.

Lemma payload_tags_are_extracted_witness :
  memoTags (sampleMemo 2 "b2" 7 Private "second #go #diary")
    = extractTags "second #go #diary"
  /\ jsonField "tags"
       (marshalMemo (storeMemoToJSON (sampleMemo 2 "b2" 7 Private "second #go #diary")))
     = Some (JArray (JString <$> extractTags "second #go #diary"))
  /\ jsonField "property"
       (marshalMemo (storeMemoToJSON (sampleMemo 2 "b2" 7 Private "second #go #diary")))
     = None.
Proof.
  destruct (proj2 (payload_tags_are_extracted
                     (sampleMemo 2 "b2" 7 Private "second #go #diary")
                     "second #go #diary") eq_refl)
    as (Htags & _ & Hascii & Hprop).
  split; [exact Htags|]. split; [|exact Hprop].
  apply Hascii. reflexivity.
Defined.

(** ** Panics *)

(** X13. An update whose memo is gone when it is fetched again panics: the
    owner's update is applied, the store answers the second lookup (by row
    id) with no memo and no error, and the handler dereferences that nil
    memo instead of reporting it. *)
Theorem update_panics_when_memo_vanishes {W} `{Store W}
    (caller : Z) (req : CallToolRequest) (uid : string) (memo : Memo)
    (update : UpdateMemo) (w w1 w2 w3 : W) :
  caller <> 0 ->
  parseMemoUID (GetString req "name" "") = Ok uid ->
  perform (Store_GetMemo (findByUID uid)) w = (Ok (Some memo), w1) ->
  CreatorID memo = caller ->
  buildUpdate memo req = Ok update ->
  perform (Store_UpdateMemo update) w1 = (Ok (), w2) ->
  perform (Store_GetMemo (findByID (ID memo))) w2 = (Ok None, w3) ->
  exec (handleUpdateMemo caller req) w
    = (None,
       [event (Store_GetMemo (findByUID uid)) (Ok (Some memo));
        event (Store_UpdateMemo update) (Ok ());
        event (Store_GetMemo (findByID (ID memo))) (Ok None)],
       w3).
Proof.
  intros Hauth Hname Hget Howner Hbuild Hupdate Hagain.
  unfold handleUpdateMemo, extractUserID.
  apply Z.eqb_neq in Hauth. rewrite Hauth, Hname. cbn [exec].
  rewrite Hget, Howner, Z.eqb_refl. cbn [negb]. rewrite Hbuild. cbn [exec].
  rewrite Hupdate. cbn [exec]. rewrite Hagain. reflexivity.
Qed.

Lemma update_panics_when_memo_vanishes_witness :
  @exec bool racingStore _ (handleUpdateMemo 7 (withContent "memos/a1" "changed")) false
    = (None,
       [event (Store_GetMemo (findByUID "a1"))
              (Ok (Some (sampleMemo 1 "a1" 7 Public "first #go")));
        event (Store_UpdateMemo
                 {| upd_ID := 1; upd_RowStatus := None; upd_Content := Some "changed";
                    upd_Visibility := None; upd_Pinned := None; upd_Payload := None |})
              (Ok ());
        event (Store_GetMemo (findByID 1)) (Ok None)],
       true).
Proof.
  assert (Hbuild : buildUpdate (sampleMemo 1 "a1" 7 Public "first #go")
                     (withContent "memos/a1" "changed")
                   = Ok {| upd_ID := 1; upd_RowStatus := None;
                           upd_Content := Some "changed"; upd_Visibility := None;
                           upd_Pinned := None; upd_Payload := None |})
    by (vm_compute; reflexivity).
  exact (@update_panics_when_memo_vanishes bool racingStore 7
           (withContent "memos/a1" "changed") "a1"
           (sampleMemo 1 "a1" 7 Public "first #go") _ false false true true
           ltac:(discriminate) eq_refl eq_refl eq_refl Hbuild eq_refl eq_refl).
Defined.

(** X14. No other handler panics, whatever the store answers; and update
    panics only in that case, on a second lookup answered with no memo. *)
Theorem handlers_do_not_panic `{Platform} {W} `{Store W}
    (quote : string -> string) (caller : Z) (req : CallToolRequest)
    (uri : string) (w : W) :
  is_Some (resultOf (exec (handleListMemos caller req) w))
  /\ is_Some (resultOf (exec (handleGetMemo caller req) w))
  /\ is_Some (resultOf (exec (handleCreateMemo caller req) w))
  /\ is_Some (resultOf (exec (handleDeleteMemo caller req) w))
  /\ is_Some (resultOf (exec (handleSearchMemos quote caller req) w))
  /\ is_Some (resultOf (exec (handleListMemoComments caller req) w))
  /\ is_Some (resultOf (exec (handleCreateMemoComment caller req) w))
  /\ is_Some (resultOf (exec (handleListTags caller req) w))
  /\ is_Some (resultOf (exec (handleReadMemoResource caller uri) w))
  /\ (resultOf (exec (handleUpdateMemo caller req) w) = None ->
      exists id before,
        callsOf (exec (handleUpdateMemo caller req) w)
          = before ++ [event (Store_GetMemo (findByID id)) (Ok None)]).
Proof.
  repeat split.
  - unfold handleListMemos. cbn zeta. run_handler; eauto.
  - unfold handleGetMemo. run_handler; eauto.
  - unfold handleCreateMemo. cbn zeta. run_handler; eauto.
  - unfold handleDeleteMemo. run_handler; eauto.
  - unfold handleSearchMemos. cbn zeta. run_handler; eauto.
  - unfold handleListMemoComments. run_handler; eauto.
  - unfold handleCreateMemoComment. cbn zeta. run_handler; eauto.
  - unfold handleListTags. run_handler; eauto.
  - unfold handleReadMemoResource. cbn zeta. run_handler; eauto.
  - unfold handleUpdateMemo. run_handler; try discriminate.
    intros _. eexists _, [_; _]. reflexivity.
Qed.

Lemma handlers_do_not_panic_witness :
  exists id before,
    callsOf (@exec bool racingStore _
               (handleUpdateMemo 7 (withContent "memos/a1" "changed")) false)
      = before ++ [event (Store_GetMemo (findByID id)) (Ok None)].
Proof.
  destruct (@handlers_do_not_panic amd64 bool racingStore (fun s => s) 7
              (withContent "memos/a1" "changed") "" false)
    as (_ & _ & _ & _ & _ & _ & _ & _ & _ & Hupdate).
  apply Hupdate. vm_compute. reflexivity.
Defined.

(** ** What is disclosed *)

(** X15. Get and the resource read show a memo only to a caller who may
    read it: when either ends in a memo, that memo is the one the store
    answered the lookup with, the read check passed on it, and nothing else
    was asked of the store. *)
Theorem single_reads_disclose_readable_only {W} `{Store W}
    (caller : Z) (req : CallToolRequest) (uri : string) (w : W) :
  (forall body,
     resultOf (exec (handleGetMemo caller req) w) = Some (NewToolResultText body) ->
     exists uid memo,
       parseMemoUID (GetString req "name" "") = Ok uid
       /\ callsOf (exec (handleGetMemo caller req) w)
          = [event (Store_GetMemo (findByUID uid)) (Ok (Some memo))]
       /\ checkMemoAccess memo caller = Ok ()
       /\ body = marshalMemo (storeMemoToJSON memo))
  /\ (forall contents,
     resultOf (exec (handleReadMemoResource caller uri) w) = Some (Ok contents) ->
     exists uid memo,
       wellFormedURI uri uid
       /\ callsOf (exec (handleReadMemoResource caller uri) w)
          = [event (Store_GetMemo (findByUID uid)) (Ok (Some memo))]
       /\ checkMemoAccess memo caller = Ok ()
       /\ contents = [{| res_URI := uri; res_MIMEType := "text/markdown";
                         res_Text := formatMemoMarkdown (storeMemoToJSON memo) |}]).
Proof.
  split.
  - intros body. unfold handleGetMemo. run_handler; try discriminate.
    intros [= <-]. eexists _, _. repeat split; try eassumption.
    match goal with Hc : checkMemoAccess _ _ = Ok ?u |- _ => destruct u; exact Hc end.
  - intros contents. unfold handleReadMemoResource. cbn zeta.
    pose proof (resource_uri_parse uri) as Hparse. cbn zeta in Hparse.
    run_handler; try discriminate.
    intros [= <-]. eexists _, _. repeat split; try eassumption; try apply Hparse.
    match goal with Hc : checkMemoAccess _ _ = Ok ?u |- _ => destruct u; exact Hc end.
Qed.

Lemma single_reads_disclose_readable_only_witness :
  exists uid memo,
    parseMemoUID (GetString (onlyName "memos/d4") "name" "") = Ok uid
    /\ callsOf (exec (handleGetMemo 0 (onlyName "memos/d4")) sampleWorld)
       = [event (Store_GetMemo (findByUID uid)) (Ok (Some memo))]
    /\ checkMemoAccess memo 0 = Ok ()
    /\ marshalMemo (storeMemoToJSON (sampleMemo 4 "d4" 8 Public "fourth #diary"))
       = marshalMemo (storeMemoToJSON memo).
Proof.
  assert (Hrun : resultOf (exec (handleGetMemo 0 (onlyName "memos/d4")) sampleWorld)
                 = Some (NewToolResultText
                           (marshalMemo (storeMemoToJSON
                                           (sampleMemo 4 "d4" 8 Public "fourth #diary")))))
    by (vm_compute; reflexivity).
  exact (proj1 (single_reads_disclose_readable_only 0 (onlyName "memos/d4") ""
                  sampleWorld) _ Hrun).
Defined.

(** X16. Listing the comments of a readable memo gives, of the comment
    memos the store returns, exactly those the caller may read, in the
    store's order; a comment the caller may not read is dropped even though
    its parent is readable. When the memo has no comment relation the
    answer is the empty list and the store is not asked for memos at all. *)
Theorem comments_listing_filters {W} `{Store W}
    (caller : Z) (req : CallToolRequest) (uid : string) (parent : Memo)
    (rels : list MemoRelation) (w w1 w2 : W) :
  parseMemoUID (GetString req "name" "") = Ok uid ->
  perform (Store_GetMemo (findByUID uid)) w = (Ok (Some parent), w1) ->
  checkMemoAccess parent caller = Ok () ->
  perform (Store_ListMemoRelations (findCommentsOf parent)) w1 = (Ok rels, w2) ->
  (rels = [] ->
     exec (handleListMemoComments caller req) w
       = (Some (NewToolResultText (JArray [])),
          [event (Store_GetMemo (findByUID uid)) (Ok (Some parent));
           event (Store_ListMemoRelations (findCommentsOf parent)) (Ok rels)],
          w2))
  /\ (rels <> [] ->
      forall memos w3,
        perform (Store_ListMemos (findByIDList (rel_MemoID <$> rels))) w2
          = (Ok memos, w3) ->
        exec (handleListMemoComments caller req) w
          = (Some (NewToolResultText
                     (marshalMemos
                        (storeMemoToJSON <$> List.filter (readable caller) memos))),
             [event (Store_GetMemo (findByUID uid)) (Ok (Some parent));
              event (Store_ListMemoRelations (findCommentsOf parent)) (Ok rels);
              event (Store_ListMemos (findByIDList (rel_MemoID <$> rels))) (Ok memos)],
             w3)
        /\ Forall (fun m => checkMemoAccess m caller = Ok ())
                  (List.filter (readable caller) memos)).
Proof.
  intros Hname Hget Haccess Hrels.
  assert (Hopen : forall k : Result string (list MemoRelation) -> Handler CallToolResult,
            exec (Invoke (Store_ListMemoRelations (findCommentsOf parent)) k) w1
            = let '(a, evs, w') := exec (k (Ok rels)) w2 in
              (a, event (Store_ListMemoRelations (findCommentsOf parent)) (Ok rels) :: evs,
               w')).
  { intros k. cbn [exec]. rewrite Hrels. reflexivity. }
  split.
  - intros ->. unfold handleListMemoComments. rewrite Hname. cbn [exec].
    rewrite Hget, Haccess. cbn zeta.
    change {| findrel_RelatedMemoID := Some (ID parent);
              findrel_Type := Some MemoRelationComment |} with (findCommentsOf parent).
    rewrite Hopen. reflexivity.
  - intros Hsome memos w3 Hlist. split.
    + destruct rels as [|r rels]; [contradiction|].
      unfold handleListMemoComments. rewrite Hname. cbn [exec].
      rewrite Hget, Haccess. cbn zeta.
      change {| findrel_RelatedMemoID := Some (ID parent);
                findrel_Type := Some MemoRelationComment |} with (findCommentsOf parent).
      rewrite Hopen. cbn [length Nat.eqb exec].
      change {| find_ID := None; find_UID := None; find_RowStatus := None;
                find_VisibilityList := []; find_ExcludeContent := false;
                find_ExcludeComments := false; find_Filters := [];
                find_Limit := None; find_Offset := None;
                find_OrderByPinned := false;
                find_IDList := rel_MemoID <$> r :: rels |}
        with (findByIDList (rel_MemoID <$> r :: rels)).
      rewrite Hlist. reflexivity.
    + apply Forall_forall. intros m Hin.
      apply list_elem_of_In, List.filter_In in Hin as [_ Hread].
      unfold readable in Hread.
      destruct (checkMemoAccess m caller) as [[]|]; [reflexivity|discriminate].
Qed.

Lemma comments_listing_filters_witness :
  @exec unit commentedStore _ (handleListMemoComments 7 (onlyName "memos/c3")) tt
    = (Some (NewToolResultText
               (marshalMemos
                  [storeMemoToJSON (sampleMemo 12 "k2" 7 Protected "ours")])),
       [event (Store_GetMemo (findByUID "c3"))
              (Ok (Some (sampleMemo 3 "c3" 8 Protected "third")));
        event (Store_ListMemoRelations (findCommentsOf (sampleMemo 3 "c3" 8 Protected "third")))
              (Ok [{| rel_MemoID := 11; rel_RelatedMemoID := 3;
                      rel_Type := MemoRelationComment |};
                   {| rel_MemoID := 12; rel_RelatedMemoID := 3;
                      rel_Type := MemoRelationComment |}]);
        event (Store_ListMemos (findByIDList [11; 12]))
              (Ok [sampleMemo 11 "k1" 8 Private "mine";
                   sampleMemo 12 "k2" 7 Protected "ours"])],
       tt).
Proof.
  assert (Hnonempty :
            [{| rel_MemoID := 11; rel_RelatedMemoID := 3; rel_Type := MemoRelationComment |};
             {| rel_MemoID := 12; rel_RelatedMemoID := 3; rel_Type := MemoRelationComment |}]
            <> []) by discriminate.
  pose proof (proj2 (@comments_listing_filters unit commentedStore 7 (onlyName "memos/c3")
                       "c3" (sampleMemo 3 "c3" 8 Protected "third") _ tt tt tt
                       eq_refl eq_refl eq_refl eq_refl)
                    Hnonempty _ tt eq_refl) as [Hrun _].
  exact Hrun.
Defined.

(** X17. Whoever created a memo can get it back under the name the
    response gave it, whatever its visibility: when the store answers the
    lookup of the memo's uid with the memo, get and the resource read called
    by the creator with that name end in the memo. *)
Theorem creator_gets_memo_by_its_name {W} `{Store W}
    (memo : Memo) (req : CallToolRequest) (w w' : W) :
  CreatorID memo <> 0 ->
  UID memo <> "" ->
  GetString req "name" "" = json_Name (storeMemoToJSON memo) ->
  perform (Store_GetMemo (findByUID (UID memo))) w = (Ok (Some memo), w') ->
  exec (handleGetMemo (CreatorID memo) req) w
    = (Some (NewToolResultText (marshalMemo (storeMemoToJSON memo))),
       [event (Store_GetMemo (findByUID (UID memo))) (Ok (Some memo))], w')
  /\ exec (handleReadMemoResource (CreatorID memo)
             ("memo://" +:+ json_Name (storeMemoToJSON memo))) w
    = (Some (Ok [{| res_URI := "memo://" +:+ json_Name (storeMemoToJSON memo);
                    res_MIMEType := "text/markdown";
                    res_Text := formatMemoMarkdown (storeMemoToJSON memo) |}]),
       [event (Store_GetMemo (findByUID (UID memo))) (Ok (Some memo))], w').
Proof.
  intros Hreal Huid Hname Hget.
  assert (Haccess : checkMemoAccess memo (CreatorID memo) = Ok ()).
  { rewrite checkMemoAccess_cases, Z.eqb_refl.
    apply Z.eqb_neq in Hreal. rewrite Hreal.
    destruct (String.eqb (Visibility memo) Protected),
      (String.eqb (Visibility memo) Private); reflexivity. }
  assert (Hparse : parseMemoUID ("memos/" +:+ UID memo) = Ok (UID memo)).
  { unfold parseMemoUID.
    assert (Hcut : stringsCutPrefix ("memos/" +:+ UID memo) "memos/" = Some (UID memo))
      by (apply stringsCutPrefix_spec; reflexivity).
    rewrite Hcut. apply String.eqb_neq in Huid. rewrite Huid. reflexivity. }
  split.
  - unfold handleGetMemo. rewrite Hname.
    change (json_Name (storeMemoToJSON memo)) with ("memos/" +:+ UID memo).
    rewrite Hparse. cbn [exec]. rewrite Hget, Haccess. reflexivity.
  - change (json_Name (storeMemoToJSON memo)) with ("memos/" +:+ UID memo).
    assert (Hwf : wellFormedURI ("memo://" +:+ "memos/" +:+ UID memo) (UID memo))
      by (split; [reflexivity|assumption]).
    destruct (wellFormedURI_trim _ _ Hwf) as [Htrim Hguard].
    unfold handleReadMemoResource. cbn zeta. rewrite Htrim, Hguard. cbn [exec].
    rewrite Hget, Haccess. reflexivity.
Qed.

Lemma creator_gets_memo_by_its_name_witness :
  exec (handleGetMemo 7 (onlyName "memos/b2")) sampleWorld
    = (Some (NewToolResultText
               (marshalMemo (storeMemoToJSON
                               (sampleMemo 2 "b2" 7 Private "second #go #diary")))),
       [event (Store_GetMemo (findByUID "b2"))
              (Ok (Some (sampleMemo 2 "b2" 7 Private "second #go #diary")))],
       sampleWorld).
Proof.
  assert (Hget : perform (Store_GetMemo (findByUID "b2")) sampleWorld
                 = (Ok (Some (sampleMemo 2 "b2" 7 Private "second #go #diary")),
                    sampleWorld)) by (vm_compute; reflexivity).
  assert (Hreal : CreatorID (sampleMemo 2 "b2" 7 Private "second #go #diary") <> 0)
    by discriminate.
  assert (Huid : UID (sampleMemo 2 "b2" 7 Private "second #go #diary") <> "")
    by discriminate.
  exact (proj1 (creator_gets_memo_by_its_name
                  (sampleMemo 2 "b2" 7 Private "second #go #diary")
                  (onlyName "memos/b2") sampleWorld sampleWorld
                  Hreal Huid eq_refl Hget)).
Defined.

(** X18. The tool and the resource agree on every memo: for the same uid
    and the same answer of the store, get ends in the memo exactly when the
    resource read does, both refuse with the same access error, and both
    report a missing memo and a failing store as errors. *)
Theorem get_and_resource_agree {W} `{Store W}
    (caller : Z) (req : CallToolRequest) (uid : string)
    (got : Result string (option Memo)) (w w' : W) :
  uid <> "" ->
  GetString req "name" "" = "memos/" +:+ uid ->
  perform (Store_GetMemo (findByUID uid)) w = (got, w') ->
  match resultOf (exec (handleGetMemo caller req) w),
        resultOf (exec (handleReadMemoResource caller ("memo://memos/" +:+ uid)) w) with
  | Some (NewToolResultText body), Some (Ok contents) =>
      exists memo, got = Ok (Some memo)
                   /\ body = marshalMemo (storeMemoToJSON memo)
                   /\ res_Text <$> contents = [formatMemoMarkdown (storeMemoToJSON memo)]
  | Some (NewToolResultError e), Some (Err e') =>
      (e = PermissionDenied /\ e' = PermissionDenied)
      \/ (e = MemoNotFound /\ e' = ResourceNotFound uid)
      \/ (exists err, got = Err err /\ e = Failed "get memo" err
                      /\ e' = Wrapped "failed to get memo" err)
  | _, _ => False
  end.
Proof.
  intros Huid Hname Hget.
  assert (Hparse : parseMemoUID ("memos/" +:+ uid) = Ok uid).
  { unfold parseMemoUID.
    assert (Hcut : stringsCutPrefix ("memos/" +:+ uid) "memos/" = Some uid)
      by (apply stringsCutPrefix_spec; reflexivity).
    rewrite Hcut. apply String.eqb_neq in Huid. rewrite Huid. reflexivity. }
  assert (Hwf : wellFormedURI ("memo://memos/" +:+ uid) uid)
    by (split; [reflexivity|assumption]).
  destruct (wellFormedURI_trim _ _ Hwf) as [Htrim Hguard].
  unfold handleGetMemo, handleReadMemoResource. cbn zeta.
  rewrite Hname, Hparse, Htrim, Hguard. cbn [exec resultOf]. rewrite Hget.
  destruct got as [[memo|]|err]; cbn [exec resultOf fst snd].
  - destruct (checkMemoAccess memo caller) as [[]|e] eqn:Haccess;
      cbn [exec resultOf fst snd].
    + exists memo. repeat split.
    + apply checkMemoAccess_error in Haccess as ->. auto.
  - auto.
  - right; right. eauto.
Qed.

Lemma get_and_resource_agree_witness :
  (MemoNotFound = PermissionDenied /\ ResourceNotFound "nope" = PermissionDenied)
  \/ (MemoNotFound = MemoNotFound /\ ResourceNotFound "nope" = ResourceNotFound "nope")
  \/ (exists err, @Ok string (option Memo) None = Err err
                  /\ MemoNotFound = Failed "get memo" err
                  /\ ResourceNotFound "nope" = Wrapped "failed to get memo" err).
Proof.
  assert (Hget : perform (Store_GetMemo (findByUID "nope")) sampleWorld
                 = (Ok None, sampleWorld)) by (vm_compute; reflexivity).
  assert (Huid : "nope" <> "") by discriminate.
  exact (get_and_resource_agree 0 (onlyName "memos/nope") "nope" (Ok None)
           sampleWorld sampleWorld Huid eq_refl Hget).
Defined.

(** ** Tag extraction over composed texts *)

Lemma isSpace_not_letter (c : ascii) : isSpace c = true -> isLetter c = false.
Proof. destruct c as [[] [] [] [] [] [] [] []]; vm_compute; congruence. Qed.

Lemma isSpace_not_tagChar (c : ascii) : isSpace c = true -> isTagChar c = false.
Proof. unfold isTagChar. intros ->. reflexivity. Qed.

Lemma spanTag_before_space (r b : string) (ws : ascii) :
  isSpace ws = true ->
  (spanTag (r +:+ String ws b)).1 = (spanTag r).1.
Proof.
  intros Hws. induction r as [|c r IH].
  - rewrite append_nil_l. cbn [spanTag]. rewrite (isSpace_not_tagChar _ Hws). reflexivity.
  - rewrite append_cons. cbn [spanTag]. destruct (isTagChar c); [|reflexivity].
    destruct (spanTag (r +:+ String ws b)) as [run rest].
    destruct (spanTag r) as [run' rest']. cbn [fst] in *. congruence.
Qed.

Lemma tagRun_before_space (r b : string) (ws : ascii) :
  isSpace ws = true ->
  tagRun (r +:+ String ws b) = tagRun r.
Proof.
  intros Hws. destruct r as [|c r].
  - rewrite append_nil_l. cbn [tagRun]. rewrite (isSpace_not_letter _ Hws). reflexivity.
  - pose proof (spanTag_before_space (String c r) b ws Hws) as Hspan.
    rewrite append_cons in *. cbn [tagRun]. rewrite Hspan. reflexivity.
Qed.

Lemma tagsFrom_boundary (prev prev' : option ascii) (s : string) :
  atBoundary prev = atBoundary prev' -> tagsFrom prev s = tagsFrom prev' s.
Proof. intros Hb. destruct s; [reflexivity|]. cbn [tagsFrom]. rewrite Hb. reflexivity. Qed.

Lemma tagsFrom_app_space (prev : option ascii) (a b : string) (ws : ascii) :
  isSpace ws = true ->
  tagsFrom prev (a +:+ String ws b) = tagsFrom prev a ++ tagsFrom None b.
Proof.
  intros Hws. revert prev. induction a as [|c a IH]; intros prev.
  - rewrite append_nil_l. cbn [tagsFrom]. rewrite (isSpace_not_hash _ Hws).
    cbn [andb app]. apply tagsFrom_boundary. cbn [atBoundary]. assumption.
  - rewrite append_cons. cbn [tagsFrom]. rewrite tagRun_before_space by assumption.
    rewrite IH, app_assoc. reflexivity.
Qed.

Lemma filter_ext_elem {A} (f g : A -> bool) (l : list A) :
  (forall x, In x l -> f x = g x) -> List.filter f l = List.filter g l.
Proof.
  induction l as [|x l IH]; intros Hfg; [reflexivity|]. cbn [List.filter].
  rewrite (Hfg x) by (left; reflexivity). rewrite IH; [reflexivity|].
  intros y Hy. apply Hfg. right. assumption.
Qed.

Lemma firstOccurrences_filter (p : string -> bool) (l : list string) :
  firstOccurrences (List.filter p l) = List.filter p (firstOccurrences l).
Proof.
  induction l as [|x l IH]; [reflexivity|]. cbn [List.filter firstOccurrences].
  destruct (p x) eqn:Hp; cbn [firstOccurrences List.filter]; rewrite ?Hp.
  - rewrite IH, !filter_twice. f_equal. apply filter_ext_elem. intros y _.
    apply andb_comm.
  - rewrite IH, filter_twice. apply filter_ext_elem. intros y _.
    destruct (String.eqb_spec y x) as [->|]; [rewrite Hp; reflexivity|].
    rewrite andb_true_r. reflexivity.
Qed.

Lemma firstOccurrences_twice (l : list string) :
  firstOccurrences (firstOccurrences l) = firstOccurrences l.
Proof.
  induction l as [|x l IH]; [reflexivity|]. cbn [firstOccurrences].
  rewrite firstOccurrences_filter, IH, filter_twice. f_equal.
  apply filter_ext_elem. intros y _. apply andb_diag.
Qed.

Lemma firstOccurrences_app (l1 l2 : list string) :
  firstOccurrences (l1 ++ l2)
  = firstOccurrences l1
    ++ List.filter (fun y => negb (existsb (String.eqb y) l1)) (firstOccurrences l2).
Proof.
  induction l1 as [|x l1 IH].
  - cbn [app firstOccurrences existsb negb].
    induction (firstOccurrences l2) as [|y l IHl]; [reflexivity|].
    cbn [List.filter]. congruence.
  - cbn [app firstOccurrences]. rewrite IH, List.filter_app, filter_twice.
    cbn [app]. do 2 f_equal. apply filter_ext_elem. intros y _. cbn [existsb].
    rewrite negb_orb. reflexivity.
Qed.

Lemma existsb_firstOccurrences (y : string) (l : list string) :
  existsb (String.eqb y) (firstOccurrences l) = existsb (String.eqb y) l.
Proof.
  apply eq_true_iff_eq. rewrite !existsb_exists.
  split; intros (x & Hin & Heq); exists x; split; try assumption;
    apply list_elem_of_In; apply list_elem_of_In in Hin;
    apply firstOccurrences_elem_of; assumption.
Qed.

(** X19. Tag extraction goes word by word: the tags of two texts joined by
    a whitespace character are the tags of the first followed by those of
    the second that the first does not have. *)
Theorem extractTags_across_whitespace (a b : string) (ws : ascii) :
  isSpace ws = true ->
  extractTags (a +:+ String ws b)
  = extractTags a
    ++ List.filter (fun t => negb (existsb (String.eqb t) (extractTags a)))
         (extractTags b).
Proof.
  intros Hws. rewrite !extractTags_firstOccurrences. unfold tagsByRule.
  rewrite tagsFrom_app_space by assumption.
  rewrite firstOccurrences_app. f_equal. apply filter_ext_elem. intros y _.
  rewrite existsb_firstOccurrences. reflexivity.
Qed.

Lemma extractTags_across_whitespace_witness :
  extractTags ("see #go #web" +:+ String " " "and #go #rust")
  = extractTags "see #go #web"
    ++ List.filter (fun t => negb (existsb (String.eqb t) (extractTags "see #go #web")))
         (extractTags "and #go #rust").
Proof. apply extractTags_across_whitespace. reflexivity. Defined.

Lemma allChars_tagsFrom (prev : option ascii) (s : string) :
  allChars isTagChar s = true -> tagsFrom prev s = [].
Proof.
  revert prev. induction s as [|c s IH]; intros prev Hall; [reflexivity|].
  cbn [allChars] in Hall. apply andb_true_iff in Hall as [Hc Hs].
  cbn [tagsFrom]. rewrite (isTagChar_not_hash _ Hc), IH by assumption. reflexivity.
Qed.

Lemma isTag_allChars (t : string) : isTag t = true -> allChars isTagChar t = true.
Proof.
  destruct t as [|c t]; [discriminate|]. cbn [isTag allChars].
  intros [Hc Ht]%andb_true_iff. rewrite (isLetter_isTagChar _ Hc), Ht. reflexivity.
Qed.

Lemma tagsByRule_one (t : string) : isTag t = true -> tagsByRule ("#" +:+ t) = [t].
Proof.
  intros Htag. unfold tagsByRule. rewrite append_cons, append_nil_l.
  cbn [tagsFrom atBoundary]. 
  assert (Hrun : tagRun t = Some t).
  { apply tagRun_spec. exists "". rewrite append_empty_r. auto. }
  rewrite Hrun, (allChars_tagsFrom _ _ (isTag_allChars _ Htag)). reflexivity.
Qed.

Lemma tagsByRule_renderTags (tags : list string) :
  Forall (fun t => isTag t = true) tags -> tagsByRule (renderTags tags) = tags.
Proof.
  induction 1 as [|t rest Ht Hrest IH]; [reflexivity|].
  destruct rest as [|t' rest].
  - apply tagsByRule_one. assumption.
  - change (renderTags (t :: t' :: rest))
      with ("#" +:+ t +:+ " " +:+ renderTags (t' :: rest)).
    replace ("#" +:+ t +:+ " " +:+ renderTags (t' :: rest))
      with (("#" +:+ t) +:+ String " " (renderTags (t' :: rest))).
    2:{ rewrite !append_cons, !append_nil_l. reflexivity. }
    unfold tagsByRule in *. rewrite tagsFrom_app_space by reflexivity.
    rewrite IH. pose proof (tagsByRule_one t Ht) as Hone. unfold tagsByRule in Hone.
    rewrite Hone. reflexivity.
Qed.

Lemma firstOccurrences_of_NoDup (l : list string) :
  NoDup l -> firstOccurrences l = l.
Proof.
  induction 1 as [|x l Hx Hl IH]; [reflexivity|]. cbn [firstOccurrences].
  rewrite IH. f_equal. clear IH Hl. induction l as [|y l IHl]; [reflexivity|].
  cbn [List.filter]. destruct (String.eqb_spec y x) as [->|Hne].
  - exfalso. apply Hx. left.
  - cbn [negb]. f_equal. apply IHl. intros Hin. apply Hx. right. assumption.
Qed.

(** X20. Every list of distinct tags is read back from its rendering:
    writing each tag behind a [#], a space between two, and extracting the
    tags of that text gives the list again, in its order. *)
Theorem extractTags_of_rendered_tags (tags : list string) :
  Forall (fun t => isTag t = true) tags ->
  NoDup tags ->
  extractTags (renderTags tags) = tags.
Proof.
  intros Htags Hnodup.
  rewrite extractTags_firstOccurrences, tagsByRule_renderTags by assumption.
  apply firstOccurrences_of_NoDup. assumption.
Qed.

Lemma extractTags_of_rendered_tags_witness :
  extractTags (renderTags ["go"; "web-dev"; "a1"]) = ["go"; "web-dev"; "a1"].
Proof.
  apply extractTags_of_rendered_tags.
  - repeat (first [apply List.Forall_nil | apply List.Forall_cons]); reflexivity.
  - apply (bool_decide_unpack _). vm_compute. reflexivity.
Defined.

(** ** The tag listing and the order of the rows *)

Lemma countIn_bind_Permutation (tag : string) (memos memos' : list Memo) :
  memos ≡ₚ memos' ->
  countIn tag (memos ≫= memoTags) = countIn tag (memos' ≫= memoTags).
Proof.
  induction 1 as [|m l l' _ IH|m m' l|l l' l'' _ IH1 _ IH2].
  - reflexivity.
  - rewrite !bind_cons, !countIn_app, IH. reflexivity.
  - rewrite !bind_cons, !countIn_app. lia.
  - congruence.
Qed.

Lemma tagCounts_Permutation (memos memos' : list Memo) :
  memos ≡ₚ memos' -> tagCounts memos = tagCounts memos'.
Proof.
  intros Hperm. apply map_eq. intros tag.
  rewrite (tagCounts_agree memos tag), (tagCounts_agree memos' tag).
  rewrite (countIn_bind_Permutation tag _ _ Hperm). reflexivity.
Qed.

(** X21. The tag listing does not depend on the order in which the store
    returns the memos: two answers that hold the same rows, in whatever
    order, give the same response, entry for entry. *)
Theorem listTags_order_independent {W} `{Store W}
    (caller : Z) (req : CallToolRequest)
    (w1 w1' w2 w2' : W) (memos1 memos2 : list Memo) :
  perform (Store_ListMemos (tagsFind caller)) w1 = (Ok memos1, w1') ->
  perform (Store_ListMemos (tagsFind caller)) w2 = (Ok memos2, w2') ->
  memos1 ≡ₚ memos2 ->
  tagEntries (tagCounts memos1) = tagEntries (tagCounts memos2)
  /\ resultOf (exec (handleListTags caller req) w1)
     = resultOf (exec (handleListTags caller req) w2).
Proof.
  intros H1 H2 Hperm. pose proof (tagCounts_Permutation _ _ Hperm) as Hcounts.
  split; [rewrite Hcounts; reflexivity|].
  unfold handleListTags. cbn [exec resultOf]. rewrite H1, H2.
  cbn [exec resultOf fst snd]. rewrite Hcounts. reflexivity.
Qed.

Lemma listTags_order_independent_witness :
  tagEntries (tagCounts [taggedMemo ["go"; "web"]; taggedMemo ["go"]])
  = tagEntries (tagCounts [taggedMemo ["go"]; taggedMemo ["go"; "web"]]).
Proof.
  assert (H1 : perform (Store_ListMemos (tagsFind 7))
                 (setMemos sampleWorld [taggedMemo ["go"; "web"]; taggedMemo ["go"]])
               = (Ok [taggedMemo ["go"; "web"]; taggedMemo ["go"]],
                  setMemos sampleWorld [taggedMemo ["go"; "web"]; taggedMemo ["go"]]))
    by (vm_compute; reflexivity).
  assert (H2 : perform (Store_ListMemos (tagsFind 7))
                 (setMemos sampleWorld [taggedMemo ["go"]; taggedMemo ["go"; "web"]])
               = (Ok [taggedMemo ["go"]; taggedMemo ["go"; "web"]],
                  setMemos sampleWorld [taggedMemo ["go"]; taggedMemo ["go"; "web"]]))
    by (vm_compute; reflexivity).
  assert (Hperm : [taggedMemo ["go"; "web"]; taggedMemo ["go"]]
                  ≡ₚ [taggedMemo ["go"]; taggedMemo ["go"; "web"]])
    by apply Permutation_swap.
  exact (proj1 (listTags_order_independent 7 (onlyName "x") _ _ _ _ _ _ H1 H2 Hperm)).
Defined.

(** ** Consecutive pages *)

Lemma withPage_other (req : CallToolRequest) (page : float64) (key : string) :
  key <> "page" ->
  GetArguments (withPage req page) !! key = GetArguments req !! key.
Proof. intros Hkey. unfold withPage. cbn [GetArguments]. apply lookup_insert_ne. congruence. Qed.

Lemma listPage_withPage `{Platform} (req : CallToolRequest) (page : float64) :
  0 <= float64ToInt page -> listPage (withPage req page) = float64ToInt page.
Proof.
  intros Hpage. unfold listPage, GetInt, withPage. cbn [GetArguments].
  rewrite lookup_insert_eq.
  destruct (Z.ltb_spec (float64ToInt page) 0); [lia|reflexivity].
Qed.

Lemma listPageSize_withPage `{Platform} (req : CallToolRequest) (page : float64) :
  listPageSize (withPage req page) = listPageSize req.
Proof. unfold listPageSize, GetInt. rewrite withPage_other by discriminate. reflexivity. Qed.

(** X22. Pages tile the listing: for the same arguments otherwise, when the
    page numbers of two calls are read as [p] and [p + 1], the query of the
    first starts at row [p * pageSize], and the query of the second is the
    same query moved on by exactly [pageSize] rows, so that it starts at the
    one row the first asked for beyond its own page. *)
Theorem consecutive_pages_tile `{Platform}
    (userID : Z) (req : CallToolRequest) (rowStatus : option string)
    (page next : float64) (p : Z) :
  float64ToInt page = p ->
  float64ToInt next = p + 1 ->
  0 <= p ->
  (p + 1) * 100 <= maxInt ->
  let pageSize := listPageSize req in
  let q := listFind userID (withPage req page) rowStatus in
  find_Offset q = Some (p * pageSize)
  /\ find_Limit q = Some (pageSize + 1)
  /\ listFind userID (withPage req next) rowStatus
     = atOffset q (p * pageSize + pageSize).
Proof.
  intros Hpage Hnext Hp Hfits pageSize q.
  pose proof (listPageSize_cases req) as ((Hlow & Hhigh) & _). fold pageSize in Hlow, Hhigh.
  assert (Hmax : 0 < maxInt) by (unfold maxInt; lia).
  assert (Hoff : forall k, 0 <= k <= p + 1 -> intMul k pageSize = k * pageSize).
  { intros k Hk. apply wrapInt_id. unfold isInt, minInt. nia. }
  assert (Hgen : forall v k, float64ToInt v = k -> 0 <= k <= p + 1 ->
            listFind userID (withPage req v) rowStatus
            = atOffset (listFind userID (withPage req page) rowStatus) (k * pageSize)).
  { intros v k Hv Hk. unfold listFind. cbn zeta.
    rewrite !listPageSize_withPage, !listPage_withPage
      by (first [rewrite Hv | rewrite Hpage]; lia).
    fold pageSize. rewrite Hv, (Hoff k Hk).
    unfold GetBool, GetString. rewrite !withPage_other by discriminate.
    unfold applyVisibilityFilter, appendFilter, atOffset.
    destruct (userID =? 0), (negb _); reflexivity. }
  subst q. rewrite (Hgen next (p + 1) Hnext) by lia.
  replace ((p + 1) * pageSize) with (p * pageSize + pageSize) by lia.
  rewrite (Hgen page p Hpage) at 1 2 by lia.
  repeat split.
  unfold listFind. cbn zeta. rewrite listPageSize_withPage. fold pageSize.
  unfold intAdd. rewrite wrapInt_id by (unfold isInt, minInt, maxInt; lia).
  unfold applyVisibilityFilter, appendFilter, atOffset.
  destruct (userID =? 0), (negb _); reflexivity.
Qed.

Lemma consecutive_pages_tile_witness :
  find_Offset (listFind 7 (withPage twoPerPage (float64OfZ 3)) (Some Normal))
    = Some (3 * 2)
  /\ listFind 7 (withPage twoPerPage (float64OfZ 4)) (Some Normal)
     = atOffset (listFind 7 (withPage twoPerPage (float64OfZ 3)) (Some Normal))
         (3 * 2 + 2).
Proof.
  assert (Hpage : float64ToInt (float64OfZ 3) = 3) by (vm_compute; reflexivity).
  assert (Hnext : float64ToInt (float64OfZ 4) = 3 + 1) by (vm_compute; reflexivity).
  assert (Hp : 0 <= 3) by lia.
  assert (Hfits : (3 + 1) * 100 <= maxInt) by (unfold maxInt; lia).
  pose proof (consecutive_pages_tile 7 twoPerPage (Some Normal) _ _ 3
                Hpage Hnext Hp Hfits) as Htile.
  cbn zeta in Htile.
  assert (Hsize : listPageSize twoPerPage = 2) by (vm_compute; reflexivity).
  rewrite Hsize in Htile. destruct Htile as (Hoff & _ & Hnext'). split; assumption.
Defined.

(** A page number that no [float64] holds is read as the nearest one that
    is: the pages 2^53 and 2^53 + 1 are the same page to the program. *)
Example page_beyond_float64 :
  float64OfZ (2 ^ 53 + 1) = float64OfZ (2 ^ 53)
  /\ listFind 7 (withPage twoPerPage (float64OfZ (2 ^ 53 + 1))) (Some Normal)
     = listFind 7 (withPage twoPerPage (float64OfZ (2 ^ 53))) (Some Normal).
Proof. split; vm_compute; reflexivity. Qed.

(** ** The keys of a serialized memo *)

(** X23. A serialized memo has the keys of [memoJSON] and no other, each at
    most once and in the order of the struct; the eight keys without
    [omitempty] are always among them. The row identifier of the store is
    not among the keys. *)
Theorem marshalMemo_keys (m : Memo) :
  let keys := keysOf (marshalMemo (storeMemoToJSON m)) in
  keys `sublist_of` memoKeys
  /\ NoDup keys
  /\ ["name"; "creator"; "create_time"; "update_time";
      "visibility"; "tags"; "pinned"; "state"] `sublist_of` keys
  /\ "id" ∉ keys.
Proof.
  cbn zeta.
  assert (Hdistinct : NoDup memoKeys).
  { apply (bool_decide_unpack _). vm_compute. reflexivity. }
  assert (Hid : "id" ∉ memoKeys).
  { apply (bool_decide_unpack _). vm_compute. reflexivity. }
  assert (Hsub : keysOf (marshalMemo (storeMemoToJSON m)) `sublist_of` memoKeys
                 /\ ["name"; "creator"; "create_time"; "update_time";
                     "visibility"; "tags"; "pinned"; "state"]
                      `sublist_of` keysOf (marshalMemo (storeMemoToJSON m))).
  { unfold marshalMemo, keysOf, omitEmptyString, memoKeys.
    destruct (String.eqb (json_Content (storeMemoToJSON m)) ""),
      (json_Property (storeMemoToJSON m)),
      (String.eqb (json_Parent (storeMemoToJSON m)) "");
      cbn [app fmap list_fmap fst];
      split;
      repeat first [apply sublist_nil | apply sublist_skip | apply sublist_cons]. }
  destruct Hsub as [Hkeys Hmandatory].
  repeat split; try assumption.
  - eapply sublist_NoDup; eassumption.
  - intros Hin. apply Hid. eapply elem_of_sublist; eassumption.
Qed.

(** ** What update and delete ask of the store *)

Lemma extractUserID_Ok (ctxUserID userID : Z) :
  extractUserID ctxUserID = Ok userID -> userID = ctxUserID /\ ctxUserID <> 0.
Proof.
  unfold extractUserID. destruct (Z.eqb_spec ctxUserID 0); [discriminate|].
  intros [= <-]. auto.
Qed.

Ltac each_call Hin :=
  repeat (apply elem_of_cons in Hin as [Hin | Hin]; [subst|]);
  try (apply elem_of_nil in Hin; destruct Hin).

(** X24. Update and delete change nothing but the caller's own memo: in
    every run, a call that changes the store comes after the lookup of the
    named memo, the memo found was created by the caller, who is not
    anonymous, and the call is aimed at the row of that memo. *)
Theorem writes_aim_at_own_memo {W} `{Store W}
    (caller : Z) (req : CallToolRequest) (w : W) :
  (forall e, e ∈ callsOf (exec (handleUpdateMemo caller req) w) ->
     eventMutates e = true ->
     exists uid memo,
       parseMemoUID (GetString req "name" "") = Ok uid
       /\ head (callsOf (exec (handleUpdateMemo caller req) w))
          = Some (event (Store_GetMemo (findByUID uid)) (Ok (Some memo)))
       /\ caller <> 0 /\ CreatorID memo = caller
       /\ targetOf e = Some (ID memo))
  /\ (forall e, e ∈ callsOf (exec (handleDeleteMemo caller req) w) ->
     eventMutates e = true ->
     exists uid memo,
       parseMemoUID (GetString req "name" "") = Ok uid
       /\ head (callsOf (exec (handleDeleteMemo caller req) w))
          = Some (event (Store_GetMemo (findByUID uid)) (Ok (Some memo)))
       /\ caller <> 0 /\ CreatorID memo = caller
       /\ targetOf e = Some (ID memo)).
Proof.
  split.
  - unfold handleUpdateMemo. run_handler; intros ? Hin Hmut; each_call Hin;
      try discriminate Hmut.
    all: match goal with
         | Hu : extractUserID _ = Ok _, Hc : negb (_ =? _) = false,
           Hb : buildUpdate _ _ = Ok _ |- _ =>
             apply extractUserID_Ok in Hu as [-> Hreal];
             apply negb_false_iff, Z.eqb_eq in Hc;
             apply buildUpdate_fields in Hb as (Hid & _)
         end.
    all: eexists _, _; repeat split; eauto.
    all: cbn; congruence.
  - unfold handleDeleteMemo. run_handler; intros ? Hin Hmut; each_call Hin;
      try discriminate Hmut.
    all: match goal with
         | Hu : extractUserID _ = Ok _, Hc : negb (_ =? _) = false |- _ =>
             apply extractUserID_Ok in Hu as [-> Hreal];
             apply negb_false_iff, Z.eqb_eq in Hc
         end.
    all: eexists _, _; repeat split; eauto.
Qed.

Lemma writes_aim_at_own_memo_witness :
  exists uid memo,
    parseMemoUID (GetString (onlyName "memos/a1") "name" "") = Ok uid
    /\ head (callsOf (exec (handleDeleteMemo 7 (onlyName "memos/a1")) sampleWorld))
       = Some (event (Store_GetMemo (findByUID uid)) (Ok (Some memo)))
    /\ 7 <> 0 /\ CreatorID memo = 7
    /\ targetOf (event (Store_DeleteMemo {| del_ID := 1 |}) (Ok ())) = Some (ID memo).
Proof.
  assert (Hin : event (Store_DeleteMemo {| del_ID := 1 |}) (Ok ())
                ∈ callsOf (exec (handleDeleteMemo 7 (onlyName "memos/a1")) sampleWorld)).
  { assert (Hcalls : callsOf (exec (handleDeleteMemo 7 (onlyName "memos/a1")) sampleWorld)
                     = [event (Store_GetMemo (findByUID "a1"))
                              (Ok (Some (sampleMemo 1 "a1" 7 Public "first #go")));
                        event (Store_DeleteMemo {| del_ID := 1 |}) (Ok ())])
      by (vm_compute; reflexivity).
    rewrite Hcalls. apply elem_of_cons. right. apply elem_of_cons. left. reflexivity. }
  assert (Hmut : eventMutates (event (Store_DeleteMemo {| del_ID := 1 |}) (Ok ())) = true)
    by reflexivity.
  exact (proj2 (writes_aim_at_own_memo 7 (onlyName "memos/a1") sampleWorld) _ Hin Hmut).
Defined.

(** X25. An update asks the store to change what the call supplies and
    nothing else: in every run, the update sent carries the content, the
    visibility and the state exactly when they are supplied as non-empty
    strings, the pinned flag exactly when its key is among the arguments,
    and a payload only together with a content; and it is sent once. *)
Theorem update_sends_supplied_fields {W} `{Store W}
    (caller : Z) (req : CallToolRequest) (w : W) :
  (forall e u, e ∈ callsOf (exec (handleUpdateMemo caller req) w) ->
     updateOf e = Some u ->
     upd_Content u = suppliedString req "content"
     /\ upd_Visibility u = suppliedString req "visibility"
     /\ upd_RowStatus u = suppliedString req "state"
     /\ upd_Pinned u
        = (match GetArguments req !! "pinned" with
           | Some _ => Some (GetBool req "pinned" false)
           | None => None
           end)
     /\ upd_Payload u
        = (match suppliedString req "content" with
           | Some content => buildPayload content
           | None => None
           end))
  /\ (length (List.filter eventMutates (callsOf (exec (handleUpdateMemo caller req) w)))
      <= 1)%nat.
Proof.
  split.
  - unfold handleUpdateMemo. run_handler; intros ? ? Hin Hupd; each_call Hin;
      try discriminate Hupd.
    all: injection Hupd as <-.
    all: match goal with
         | Hb : buildUpdate _ _ = Ok _ |- _ =>
             apply buildUpdate_fields in Hb as (_ & Hfields)
         end.
    all: exact Hfields.
  - unfold handleUpdateMemo. run_handler; cbn; lia.
Qed.

Lemma update_sends_supplied_fields_witness :
  upd_Content {| upd_ID := 1; upd_RowStatus := None;
                 upd_Content := Some "no tags now"; upd_Visibility := None;
                 upd_Pinned := None; upd_Payload := None |}
  = suppliedString (withContent "memos/a1" "no tags now") "content".
Proof.
  set (u := {| upd_ID := 1; upd_RowStatus := None;
               upd_Content := Some "no tags now"; upd_Visibility := None;
               upd_Pinned := None; upd_Payload := None |}).
  assert (Hin : event (Store_UpdateMemo u) (Ok ())
                ∈ callsOf (exec (handleUpdateMemo 7 (withContent "memos/a1" "no tags now"))
                             sampleWorld)).
  { assert (Hcalls : nth_error
                       (callsOf (exec (handleUpdateMemo 7
                                         (withContent "memos/a1" "no tags now"))
                                   sampleWorld)) 1
                     = Some (event (Store_UpdateMemo u) (Ok ())))
      by (vm_compute; reflexivity).
    apply list_elem_of_In. eapply nth_error_In. exact Hcalls. }
  assert (Hupd : updateOf (event (Store_UpdateMemo u) (Ok ())) = Some u) by reflexivity.
  exact (proj1 (proj1 (update_sends_supplied_fields 7
                          (withContent "memos/a1" "no tags now") sampleWorld)
                  _ _ Hin Hupd)).
Defined.

(** ** Calls one after the other, on the reference store *)

Lemma rowMatches_findByUID (w : World) (uid : string) (m : Memo) :
  rowMatches w (findByUID uid) m = String.eqb uid (UID m).
Proof.
  unfold rowMatches, findByUID, optMatches, inOrAll. cbn.
  rewrite !andb_true_r. reflexivity.
Qed.

Lemma rowMatches_setMemos (w : World) (ms : list Memo) (find : FindMemo) (m : Memo) :
  rowMatches (setMemos w ms) find m = rowMatches w find m.
Proof. reflexivity. Qed.

Lemma filter_none {A} (p : A -> bool) (l : list A) :
  (forall x, x ∈ l -> p x = false) -> List.filter p l = [].
Proof.
  induction l as [|x l IH]; intros Hp; [reflexivity|]. cbn [List.filter].
  rewrite (Hp x) by (apply elem_of_cons; auto). apply IH. intros y Hy. apply Hp.
  apply elem_of_cons. auto.
Qed.

Lemma elem_of_filter_bool {A} (p : A -> bool) (l : list A) (x : A) :
  x ∈ List.filter p l <-> x ∈ l /\ p x = true.
Proof. rewrite !list_elem_of_In. apply List.filter_In. Qed.

(** X26. A deleted memo is gone: on a store where the memos of one uid
    share their row, once its creator has deleted a memo, get under the same
    name finds nothing, whoever asks, and the store holds the rows it held
    before without the deleted one. *)
Theorem delete_then_get_not_found
    (w : World) (caller other : Z) (req : CallToolRequest) (uid : string) (memo : Memo) :
  caller <> 0 ->
  parseMemoUID (GetString req "name" "") = Ok uid ->
  perform (Store_GetMemo (findByUID uid)) w = (Ok (Some memo), w) ->
  CreatorID memo = caller ->
  (forall m, m ∈ memos w -> UID m = uid -> ID m = ID memo) ->
  let deleted := exec (handleDeleteMemo caller req) w in
  resultOf deleted = Some (NewToolResultText (JObject [("deleted", JBool true)]))
  /\ resultOf (exec (handleGetMemo other req) deleted.2)
     = Some (NewToolResultError MemoNotFound)
  /\ (forall m, m ∈ memos deleted.2 <-> m ∈ memos w /\ ID m <> ID memo).
Proof.
  intros Hreal Hname Hget Hown Hrows.
  assert (Hrun : exec (handleDeleteMemo caller req) w
                 = (Some (NewToolResultText (JObject [("deleted", JBool true)])),
                    [event (Store_GetMemo (findByUID uid)) (Ok (Some memo));
                     event (Store_DeleteMemo {| del_ID := ID memo |}) (Ok ())],
                    setMemos w (List.filter (fun m => negb (ID m =? ID memo)) (memos w)))).
  { unfold handleDeleteMemo, extractUserID. apply Z.eqb_neq in Hreal.
    rewrite Hreal, Hname. cbn [exec]. rewrite Hget, Hown, Z.eqb_refl. reflexivity. }
  cbn zeta. rewrite Hrun. cbn [snd resultOf fst]. split; [reflexivity|]. split.
  - unfold handleGetMemo. rewrite Hname. cbn [exec perform memStore memPerform].
    cbn [memos setMemos].
    rewrite filter_none; [reflexivity|].
    intros m [Hin Hother]%elem_of_filter_bool.
    rewrite rowMatches_findByUID. apply String.eqb_neq. intros Huid.
    apply negb_true_iff, Z.eqb_neq in Hother. apply Hother, Hrows; auto.
  - intros m. cbn [memos setMemos]. rewrite elem_of_filter_bool, negb_true_iff, Z.eqb_neq.
    reflexivity.
Qed.

Lemma delete_then_get_not_found_witness :
  resultOf (exec (handleGetMemo 8 (onlyName "memos/a1"))
              (exec (handleDeleteMemo 7 (onlyName "memos/a1")) sampleWorld).2)
  = Some (NewToolResultError MemoNotFound).
Proof.
  assert (Hreal : 7 <> 0) by lia.
  assert (Hname : parseMemoUID (GetString (onlyName "memos/a1") "name" "") = Ok "a1")
    by reflexivity.
  assert (Hget : perform (Store_GetMemo (findByUID "a1")) sampleWorld
                 = (Ok (Some (sampleMemo 1 "a1" 7 Public "first #go")), sampleWorld))
    by (vm_compute; reflexivity).
  assert (Hown : CreatorID (sampleMemo 1 "a1" 7 Public "first #go") = 7) by reflexivity.
  assert (Hrows : forall m, m ∈ memos sampleWorld -> UID m = "a1" ->
                            ID m = ID (sampleMemo 1 "a1" 7 Public "first #go")).
  { intros m Hin Huid. cbn [memos sampleWorld] in Hin.
    repeat (apply elem_of_cons in Hin as [Hin | Hin]; [subst m|]);
      try (apply elem_of_nil in Hin; destruct Hin);
      first [reflexivity | discriminate Huid]. }
  exact (proj1 (proj2 (delete_then_get_not_found sampleWorld 7 8 (onlyName "memos/a1")
                         "a1" _ Hreal Hname Hget Hown Hrows))).
Defined.

Lemma parseVisibility_of_known (v : string) :
  knownVisibility v -> parseVisibility v = Ok v.
Proof.
  unfold parseVisibility, knownVisibility.
  intros [Hv | [Hv | Hv]]; rewrite Hv; reflexivity.
Qed.

(** X27. A created memo can be read back: on a store where the uid drawn is
    fresh, create answers with a memo of the caller, with the content and
    the visibility asked for, in the NORMAL state and with the tags of its
    content; the store holds that row behind the ones it held, and get
    by the creator under the name of the response answers the same memo. *)
Theorem create_then_get
    (w : World) (caller : Z) (req get : CallToolRequest) (uid : string) :
  let content := GetString req "content" "" in
  let visibility := GetString req "visibility" "PRIVATE" in
  caller <> 0 ->
  content <> "" ->
  knownVisibility visibility ->
  hd "" (uuids w) = uid ->
  uid <> "" ->
  (forall m, m ∈ memos w -> UID m <> uid) ->
  GetString get "name" "" = "memos/" +:+ uid ->
  let created := exec (handleCreateMemo caller req) w in
  exists row,
    resultOf created = Some (NewToolResultText (marshalMemo (storeMemoToJSON row)))
    /\ json_Name (storeMemoToJSON row) = "memos/" +:+ uid
    /\ CreatorID row = caller /\ Content row = content
    /\ Visibility row = visibility /\ RowStatus row = Normal
    /\ memoTags row = extractTags content
    /\ memos created.2 = memos w ++ [row]
    /\ resultOf (exec (handleGetMemo caller get) created.2) = resultOf created.
Proof.
  intros content visibility Hreal Hcontent Hvis Huuid Huid Hfresh Hname.
  set (row := {| ID := nextID w; UID := uid; RowStatus := Normal; CreatorID := caller;
                 CreatedTs := clock w; UpdatedTs := clock w; Content := content;
                 Visibility := visibility; Pinned := false;
                 Payload := buildPayload content; ParentUID := None |}).
  assert (Hrun : exists w', exec (handleCreateMemo caller req) w
                   = (Some (NewToolResultText (marshalMemo (storeMemoToJSON row))),
                      [event Shortuuid_New uid;
                       event (Store_CreateMemo (memoDraft caller content uid visibility))
                             (Ok row)],
                      w')
                   /\ memos w' = memos w ++ [row]
                   /\ filterEval w' = filterEval w).
  { eexists. unfold handleCreateMemo, extractUserID. cbn zeta.
    fold content visibility.
    apply Z.eqb_neq in Hreal. apply String.eqb_neq in Hcontent.
    rewrite Hreal, Hcontent, (parseVisibility_of_known _ Hvis).
    cbn [exec perform memStore memPerform]. rewrite Huuid.
    cbn [exec perform memStore memPerform fst snd UID RowStatus CreatorID Content
         Visibility Pinned Payload ParentUID String.eqb nextID clock memos filterEval].
    split; [reflexivity|]. split; reflexivity. }
  destruct Hrun as (w' & Hrun & Hmemos & _).
  cbn zeta. rewrite Hrun. cbn [resultOf fst snd].
  exists row. split; [reflexivity|]. split; [reflexivity|].
  split; [reflexivity|]. split; [reflexivity|]. split; [reflexivity|].
  split; [reflexivity|]. split.
  { pose proof (buildPayload_tags content) as Hbuild. unfold memoTags, row.
    cbn [Payload]. destruct (buildPayload content); [apply Hbuild|]. symmetry.
    exact Hbuild. }
  split; [assumption|].
  assert (Hparse : parseMemoUID ("memos/" +:+ uid) = Ok uid).
  { unfold parseMemoUID.
    assert (Hcut : stringsCutPrefix ("memos/" +:+ uid) "memos/" = Some uid)
      by (apply stringsCutPrefix_spec; reflexivity).
    rewrite Hcut. apply String.eqb_neq in Huid. rewrite Huid. reflexivity. }
  assert (Haccess : checkMemoAccess row caller = Ok ()).
  { rewrite checkMemoAccess_cases. cbn [CreatorID row]. rewrite Z.eqb_refl.
    apply Z.eqb_neq in Hreal. rewrite Hreal.
    destruct (String.eqb (Visibility row) Protected),
      (String.eqb (Visibility row) Private); reflexivity. }
  unfold handleGetMemo. rewrite Hname, Hparse.
  cbn [exec perform memStore memPerform]. rewrite Hmemos, List.filter_app.
  rewrite filter_none.
  2:{ intros m Hin. rewrite rowMatches_findByUID. apply String.eqb_neq.
      intros Heq. exact (Hfresh m Hin (eq_sym Heq)). }
  cbn [app List.filter]. rewrite rowMatches_findByUID. cbn [UID row].
  rewrite String.eqb_refl. cbn [head exec]. rewrite Haccess. reflexivity.
Qed.

Lemma create_then_get_witness :
  exists row,
    resultOf (exec (handleCreateMemo 7 (createRequest "buy milk #groceries")) sampleWorld)
      = Some (NewToolResultText (marshalMemo (storeMemoToJSON row)))
    /\ memoTags row = extractTags "buy milk #groceries"
    /\ resultOf (exec (handleGetMemo 7 (onlyName "memos/u1"))
                   (exec (handleCreateMemo 7 (createRequest "buy milk #groceries"))
                      sampleWorld).2)
       = resultOf (exec (handleCreateMemo 7 (createRequest "buy milk #groceries"))
                     sampleWorld).
Proof.
  assert (Hreal : 7 <> 0) by lia.
  assert (Hcontent : GetString (createRequest "buy milk #groceries") "content" "" <> "")
    by discriminate.
  assert (Hvis : knownVisibility
                   (GetString (createRequest "buy milk #groceries") "visibility" "PRIVATE"))
    by (right; right; reflexivity).
  assert (Huuid : hd "" (uuids sampleWorld) = "u1") by reflexivity.
  assert (Huid : "u1" <> "") by discriminate.
  assert (Hfresh : forall m, m ∈ memos sampleWorld -> UID m <> "u1").
  { intros m Hin. cbn [memos sampleWorld] in Hin.
    repeat (apply elem_of_cons in Hin as [Hin | Hin]; [subst m; discriminate|]).
    apply elem_of_nil in Hin. destruct Hin. }
  assert (Hname : GetString (onlyName "memos/u1") "name" "" = "memos/" +:+ "u1")
    by reflexivity.
  destruct (create_then_get sampleWorld 7 (createRequest "buy milk #groceries")
              (onlyName "memos/u1") "u1"
              Hreal Hcontent Hvis Huuid Huid Hfresh Hname)
    as (row & Hres & _ & _ & _ & _ & _ & Htags & _ & Hget).
  exists row. repeat split; assumption.
Defined.

Lemma rowMatches_findByID (w : World) (id : Z) (m : Memo) :
  rowMatches w (findByID id) m = (id =? ID m).
Proof.
  unfold rowMatches, findByID, optMatches, inOrAll. cbn.
  rewrite !andb_true_r. reflexivity.
Qed.

Lemma filter_fmap_invariant {A} (p : A -> bool) (f : A -> A) (l : list A) :
  (forall x, p (f x) = p x) -> List.filter p (f <$> l) = f <$> List.filter p l.
Proof.
  intros Hp. induction l as [|x l IH]; [reflexivity|].
  cbn [fmap list_fmap List.filter]. rewrite Hp.
  destruct (p x); cbn [fmap list_fmap]; rewrite <- IH; reflexivity.
Qed.

Lemma applyUpdate_keys (u : UpdateMemo) (m : Memo) :
  ID (applyUpdate u m) = ID m /\ UID (applyUpdate u m) = UID m
  /\ CreatorID (applyUpdate u m) = CreatorID m.
Proof. unfold applyUpdate. destruct (ID m =? upd_ID u); auto. Qed.

Lemma applyUpdate_twice (u : UpdateMemo) (m : Memo) :
  applyUpdate u (applyUpdate u m) = applyUpdate u m.
Proof.
  unfold applyUpdate. destruct (ID m =? upd_ID u) eqn:Hid; cbn [ID]; rewrite Hid;
    [|reflexivity].
  cbn. destruct (upd_RowStatus u), (upd_Content u), (upd_Visibility u),
    (upd_Pinned u), (upd_Payload u); reflexivity.
Qed.

Lemma buildUpdate_by_ID (m m' : Memo) (req : CallToolRequest) :
  ID m' = ID m -> buildUpdate m' req = buildUpdate m req.
Proof. intros Hid. unfold buildUpdate. rewrite Hid. reflexivity. Qed.

(** What an owner's update does on the reference store: the rows are
    rewritten by [applyUpdate], and the answer is the row found again by its
    identifier. *)
Lemma update_run (w : World) (caller : Z) (req : CallToolRequest)
    (uid : string) (memo : Memo) :
  caller <> 0 ->
  parseMemoUID (GetString req "name" "") = Ok uid ->
  head (List.filter (rowMatches w (findByUID uid)) (memos w)) = Some memo ->
  CreatorID memo = caller ->
  (exec (handleUpdateMemo caller req) w).2
    = match buildUpdate memo req with
      | Ok u => setMemos w (applyUpdate u <$> memos w)
      | Err _ => w
      end
  /\ resultOf (exec (handleUpdateMemo caller req) w)
    = match buildUpdate memo req with
      | Ok u =>
          match head (List.filter (fun m => ID memo =? ID m) (applyUpdate u <$> memos w)) with
          | Some updated => Some (NewToolResultText (marshalMemo (storeMemoToJSON updated)))
          | None => None
          end
      | Err e => Some (NewToolResultError e)
      end.
Proof.
  intros Hreal Hname Hget Hown.
  unfold handleUpdateMemo, extractUserID. apply Z.eqb_neq in Hreal.
  rewrite Hreal, Hname. cbn [exec perform memStore memPerform]. rewrite Hget.
  cbn [exec fst snd]. rewrite Hown, Z.eqb_refl. cbn [negb].
  destruct (buildUpdate memo req) as [u|e]; [|split; reflexivity].
  cbn [exec perform memStore memPerform fst snd memos setMemos].
  erewrite (filter_ext_elem (rowMatches _ (findByID (ID memo)))).
  2:{ intros m _. apply rowMatches_findByID. }
  destruct (head (List.filter (fun m => ID memo =? ID m) (applyUpdate u <$> memos w)));
    cbn [exec fst snd resultOf]; split; reflexivity.
Qed.

(** X28. Updating twice is updating once: on the reference store, the
    owner's update repeated with the same arguments leaves the store as the
    first update left it and answers the same. *)
Theorem update_twice_is_update_once
    (w : World) (caller : Z) (req : CallToolRequest) (uid : string) (memo : Memo) :
  caller <> 0 ->
  parseMemoUID (GetString req "name" "") = Ok uid ->
  perform (Store_GetMemo (findByUID uid)) w = (Ok (Some memo), w) ->
  CreatorID memo = caller ->
  let once := exec (handleUpdateMemo caller req) w in
  let twice := exec (handleUpdateMemo caller req) once.2 in
  twice.2 = once.2 /\ resultOf twice = resultOf once.
Proof.
  intros Hreal Hname Hget Hown.
  assert (Hhead : head (List.filter (rowMatches w (findByUID uid)) (memos w)) = Some memo).
  { cbn [perform memStore memPerform] in Hget. congruence. }
  destruct (update_run w caller req uid memo Hreal Hname Hhead Hown) as [Hw Hres].
  cbn zeta. rewrite Hres, Hw.
  destruct (buildUpdate memo req) as [u|e] eqn:Hbuild.
  - set (w1 := setMemos w (applyUpdate u <$> memos w)).
    assert (Hhead1 : head (List.filter (rowMatches w1 (findByUID uid)) (memos w1))
                     = Some (applyUpdate u memo)).
    { unfold w1. cbn [memos setMemos].
      erewrite (filter_ext_elem (rowMatches _ (findByUID uid))).
      2:{ intros m _. rewrite rowMatches_setMemos. reflexivity. }
      rewrite filter_fmap_invariant.
      - destruct (List.filter _ (memos w)) as [|m0 rest]; [discriminate|].
        cbn in Hhead |- *. congruence.
      - intros m. rewrite !rowMatches_findByUID.
        destruct (applyUpdate_keys u m) as (_ & -> & _). reflexivity. }
    destruct (applyUpdate_keys u memo) as (Hid & _ & Hcreator).
    assert (Hown1 : CreatorID (applyUpdate u memo) = caller) by congruence.
    destruct (update_run w1 caller req uid _ Hreal Hname Hhead1 Hown1) as [Hw1 Hres1].
    rewrite Hres1, Hw1, (buildUpdate_by_ID _ _ _ Hid), Hbuild, Hid.
    assert (Hsame : applyUpdate u <$> memos w1 = memos w1).
    { unfold w1. cbn [memos setMemos]. rewrite <- list_fmap_compose.
      apply list_fmap_ext. intros i m _. apply applyUpdate_twice. }
    rewrite Hsame. split; [|reflexivity].
    unfold w1, setMemos. cbn. reflexivity.
  - destruct (update_run w caller req uid memo Hreal Hname Hhead Hown) as [Hw' Hres'].
    rewrite Hbuild in Hw', Hres'. rewrite Hres', Hw'. auto.
Qed.

Lemma update_twice_is_update_once_witness :
  (exec (handleUpdateMemo 7 (updateRequest "memos/a1" "new #text" "PRIVATE"))
     (exec (handleUpdateMemo 7 (updateRequest "memos/a1" "new #text" "PRIVATE"))
        sampleWorld).2).2
  = (exec (handleUpdateMemo 7 (updateRequest "memos/a1" "new #text" "PRIVATE"))
       sampleWorld).2.
Proof.
  assert (Hreal : 7 <> 0) by lia.
  assert (Hname : parseMemoUID
                    (GetString (updateRequest "memos/a1" "new #text" "PRIVATE") "name" "")
                  = Ok "a1") by reflexivity.
  assert (Hget : perform (Store_GetMemo (findByUID "a1")) sampleWorld
                 = (Ok (Some (sampleMemo 1 "a1" 7 Public "first #go")), sampleWorld))
    by (vm_compute; reflexivity).
  assert (Hown : CreatorID (sampleMemo 1 "a1" 7 Public "first #go") = 7) by reflexivity.
  exact (proj1 (update_twice_is_update_once sampleWorld 7
                  (updateRequest "memos/a1" "new #text" "PRIVATE") "a1" _
                  Hreal Hname Hget Hown)).
Defined.

Lemma suppliedString_None (req : CallToolRequest) (key : string) :
  suppliedString req key = None -> String.eqb (GetString req key "") "" = true.
Proof. unfold suppliedString. destruct (String.eqb _ ""); [reflexivity|discriminate]. Qed.

Lemma setMemos_same (w : World) : setMemos w (memos w) = w.
Proof. destruct w. reflexivity. Qed.

(** X29. An update that supplies nothing changes nothing: when the call
    brings no content, no visibility, no state and no pinned flag, the
    owner's update leaves the reference store as it was and answers with a
    row the store already held. *)
Theorem update_without_fields_changes_nothing
    (w : World) (caller : Z) (req : CallToolRequest) (uid : string) (memo : Memo) :
  caller <> 0 ->
  parseMemoUID (GetString req "name" "") = Ok uid ->
  perform (Store_GetMemo (findByUID uid)) w = (Ok (Some memo), w) ->
  CreatorID memo = caller ->
  suppliedString req "content" = None ->
  suppliedString req "visibility" = None ->
  suppliedString req "state" = None ->
  GetArguments req !! "pinned" = None ->
  (exec (handleUpdateMemo caller req) w).2 = w
  /\ exists row,
       row ∈ memos w /\ ID row = ID memo
       /\ resultOf (exec (handleUpdateMemo caller req) w)
          = Some (NewToolResultText (marshalMemo (storeMemoToJSON row))).
Proof.
  intros Hreal Hname Hget Hown Hcontent Hvis Hstate Hpinned.
  assert (Hhead : head (List.filter (rowMatches w (findByUID uid)) (memos w)) = Some memo).
  { cbn [perform memStore memPerform] in Hget. congruence. }
  destruct (update_run w caller req uid memo Hreal Hname Hhead Hown) as [Hw Hres].
  assert (Hbuild : buildUpdate memo req
                   = Ok {| upd_ID := ID memo; upd_RowStatus := None; upd_Content := None;
                           upd_Visibility := None; upd_Pinned := None;
                           upd_Payload := None |}).
  { unfold buildUpdate. cbn zeta.
    rewrite (suppliedString_None _ _ Hcontent), (suppliedString_None _ _ Hvis),
      (suppliedString_None _ _ Hstate), Hpinned. reflexivity. }
  rewrite Hbuild in Hw, Hres.
  assert (Hsame : applyUpdate {| upd_ID := ID memo; upd_RowStatus := None;
                                 upd_Content := None; upd_Visibility := None;
                                 upd_Pinned := None; upd_Payload := None |} <$> memos w
                  = memos w).
  { rewrite <- (list_fmap_id (memos w)) at 2. apply list_fmap_ext.
    intros i m _. apply applyUpdate_nothing. }
  rewrite Hsame in Hw, Hres. rewrite Hw, setMemos_same. split; [reflexivity|].
  assert (Hin : memo ∈ List.filter (fun m => ID memo =? ID m) (memos w)).
  { apply elem_of_filter_bool. split; [|apply Z.eqb_refl].
    assert (Hm : memo ∈ List.filter (rowMatches w (findByUID uid)) (memos w)).
    { destruct (List.filter _ (memos w)) as [|m0 rest]; [discriminate|].
      injection Hhead as ->. apply elem_of_cons. auto. }
    apply elem_of_filter_bool in Hm. tauto. }
  destruct (List.filter (fun m => ID memo =? ID m) (memos w)) as [|row rest] eqn:Hrows.
  { apply elem_of_nil in Hin. destruct Hin. }
  assert (Hrow : row ∈ List.filter (fun m => ID memo =? ID m) (memos w))
    by (rewrite Hrows; apply elem_of_cons; auto).
  apply elem_of_filter_bool in Hrow as [Hrow Hid]. apply Z.eqb_eq in Hid.
  exists row. split; [assumption|]. split; [congruence|]. exact Hres.
Qed.

Lemma update_without_fields_changes_nothing_witness :
  (exec (handleUpdateMemo 7 (onlyName "memos/a1")) sampleWorld).2 = sampleWorld.
Proof.
  assert (Hreal : 7 <> 0) by lia.
  assert (Hname : parseMemoUID (GetString (onlyName "memos/a1") "name" "") = Ok "a1")
    by reflexivity.
  assert (Hget : perform (Store_GetMemo (findByUID "a1")) sampleWorld
                 = (Ok (Some (sampleMemo 1 "a1" 7 Public "first #go")), sampleWorld))
    by (vm_compute; reflexivity).
  assert (Hown : CreatorID (sampleMemo 1 "a1" 7 Public "first #go") = 7) by reflexivity.
  exact (proj1 (update_without_fields_changes_nothing sampleWorld 7 (onlyName "memos/a1")
                  "a1" _ Hreal Hname Hget Hown eq_refl eq_refl eq_refl eq_refl)).
Defined.

(** ** The prompts *)

(** X30. A prompt needs its argument: capture fails exactly when its
    content, and review exactly when its topic, is missing or empty.
    Otherwise the prompt is one message in the user role; the capture text
    ends with the content as given, followed by the hint on tags and the
    tags exactly when tags are given. *)
Theorem prompts_need_their_argument
    (quote : string -> string) (req : GetPromptRequest) :
  (handleCapturePrompt req = Err "content argument is required"
   <-> (prompt_Arguments req !! "content" = None
        \/ prompt_Arguments req !! "content" = Some ""))
  /\ (handleReviewPrompt quote req = Err "topic argument is required"
      <-> (prompt_Arguments req !! "topic" = None
           \/ prompt_Arguments req !! "topic" = Some ""))
  /\ (forall res, handleCapturePrompt req = Ok res ->
        exists text,
          prompt_Messages res = [{| msg_Role := "user"; msg_Text := text |}]
          /\ text = captureInstruction +:+ promptArgument req "content"
                    +:+ match prompt_Arguments req !! "tags" with
                        | None | Some "" => ""
                        | Some tags => captureTagsHint +:+ tags
                        end)
  /\ (forall res, handleReviewPrompt quote req = Ok res ->
        exists text,
          prompt_Messages res = [{| msg_Role := "user"; msg_Text := text |}]
          /\ prompt_Description res
             = "Review memos about " +:+ quote (promptArgument req "topic")).
Proof.
  assert (Hempty : forall key,
            String.eqb (promptArgument req key) "" = true
            <-> (prompt_Arguments req !! key = None
                 \/ prompt_Arguments req !! key = Some "")).
  { intros key. unfold promptArgument. rewrite String.eqb_eq.
    destruct (prompt_Arguments req !! key) as [v|]; cbn [default].
    - split.
      + intros Hv. right. f_equal. exact Hv.
      + intros [Hv|Hv]; [discriminate|]. injection Hv as Hv. exact Hv.
    - split; auto. }
  repeat split.
  - unfold handleCapturePrompt. cbn zeta. intros Herr. apply Hempty.
    destruct (String.eqb (promptArgument req "content") ""); [reflexivity|discriminate].
  - intros Hnone%Hempty. unfold handleCapturePrompt. cbn zeta. rewrite Hnone. reflexivity.
  - unfold handleReviewPrompt. cbn zeta. intros Herr. apply Hempty.
    destruct (String.eqb (promptArgument req "topic") ""); [reflexivity|discriminate].
  - intros Hnone%Hempty. unfold handleReviewPrompt. cbn zeta. rewrite Hnone. reflexivity.
  - intros res. unfold handleCapturePrompt. cbn zeta.
    destruct (String.eqb (promptArgument req "content") ""); [discriminate|].
    intros [= <-]. eexists. split; [reflexivity|]. cbn [msg_Text].
    set (content := promptArgument req "content"). unfold promptArgument.
    destruct (prompt_Arguments req !! "tags") as [[|c tags]|];
      cbn [default from_option id String.eqb negb].
    + rewrite append_empty_r. reflexivity.
    + reflexivity.
    + rewrite append_empty_r. reflexivity.
  - intros res. unfold handleReviewPrompt. cbn zeta.
    destruct (String.eqb (promptArgument req "topic") ""); [discriminate|].
    intros [= <-]. eexists. split; reflexivity.
Qed.
